(** * pi-memory: the context assembly engine of [index.ts]

    A shallow embedding of the text-budget primitives, the scratchpad
    format, the context builder and the qmd output handling of
    [index.ts], followed by the properties of the specification that
    were checked against them.

    - JavaScript strings are sequences of UTF-16 code units; they are
      modelled as lists of code units ([N]), so [length] is
      [String.length] and every string the program can receive has a
      model.
    - The numbers of the modelled code are integers (limits, counts) or
      [Number.POSITIVE_INFINITY]; fractional limits are outside the model.
    - What the program reads from its environment is an argument of the
      model: the four files as optional strings ([readFileSafe] returns
      [null] for a missing file), the two results of [toISOString], and the
      arguments [execFile] passes to its callback.  [ensureDirs] only
      creates directories and is left out.
    - A promise is modelled by the way it settles. *)

From Stdlib Require Import Ascii String.
From Stdlib Require Import List ZArith NArith Lia Bool Arith.
From Stdlib Require Import Permutation Sorted.
Import ListNotations.

Set Implicit Arguments.

(* ------------------------------------------------------------------ *)
(** * Part I : the program                                              *)
(* ------------------------------------------------------------------ *)

(** ** JavaScript strings *)

Definition jschar := N.
Definition jsstring := list jschar.

(** A string literal of the source, as code units. *)
Definition lit (s : string) : jsstring :=
  List.map N_of_ascii (list_ascii_of_string s).

Definition LF : jschar := 10%N.
Definition CR : jschar := 13%N.
Definition DQUOTE : jschar := 34%N.

(** A literal in which every apostrophe stands for a double quote. *)
Definition qlit (s : string) : jsstring :=
  List.map (fun c => if N.eqb c 39 then DQUOTE else c) (lit s).

(** [l.length], as the integer the program compares with its limits. *)
Definition len (A : Type) (l : list A) : Z := Z.of_nat (length l).

(** Truthiness of a string: [if (s)] holds for non-empty strings. *)
Definition truthy (s : jsstring) : bool :=
  match s with [] => false | _ :: _ => true end.

(** ECMAScript WhiteSpace and LineTerminator code units, the ones
    [String.prototype.trim] removes. *)
Definition isWhiteSpace (c : jschar) : bool :=
  ((9 <=? c) && (c <=? 13) || (c =? 32) || (c =? 160) || (c =? 5760)
   || (8192 <=? c) && (c <=? 8202) || (c =? 8232) || (c =? 8233)
   || (c =? 8239) || (c =? 8287) || (c =? 12288) || (c =? 65279))%N.

(** LineTerminator code units: the ones a regular expression dot refuses. *)
Definition isLineTerminator (c : jschar) : bool :=
  ((c =? 10) || (c =? 13) || (c =? 8232) || (c =? 8233))%N.

Fixpoint trimStart (s : jsstring) : jsstring :=
  match s with
  | [] => []
  | c :: s' => if isWhiteSpace c then trimStart s' else s
  end.

Definition trimEnd (s : jsstring) : jsstring :=
  rev_append (trimStart (rev_append s [])) [].

(** [s.trim()] *)
Definition trim (s : jsstring) : jsstring := trimEnd (trimStart s).

(** [s.split("\n")]: never the empty array. *)
Fixpoint split_nl (s : jsstring) : list jsstring :=
  match s with
  | [] => [[]]
  | c :: s' =>
      if (c =? LF)%N then [] :: split_nl s'
      else match split_nl s' with
           | l :: ls => (c :: l) :: ls
           | [] => [[c]]
           end
  end.

(** [parts.join(sep)] *)
Fixpoint join (sep : jsstring) (parts : list jsstring) : jsstring :=
  match parts with
  | [] => []
  | [p] => p
  | p :: ps => p ++ sep ++ join sep ps
  end.

(** Relative index of [slice]: a negative index counts from the end. *)
Definition relIndex (len k : Z) : Z :=
  if (k <? 0)%Z then Z.max (len + k) 0 else Z.min k len.

(** [l.slice(start, stop)] on arrays and strings; [stop = None] when the
    second argument is omitted. *)
Definition slice (A : Type) (l : list A) (start : Z) (stop : option Z) : list A :=
  let len := Z.of_nat (length l) in
  let from := relIndex len start in
  let upto := match stop with Some e => relIndex len e | None => len end in
  firstn (Z.to_nat (upto - from)) (skipn (Z.to_nat from) l).

(** [Math.ceil(k / 2)] and [Math.floor(k / 2)] on an integer [k]. *)
Definition ceilHalf (k : Z) : Z := (- ((- k) / 2))%Z.
Definition floorHalf (k : Z) : Z := (k / 2)%Z.

(** Decimal digits of a natural number, most significant first; [fuel]
    bounds the number of digits. *)
Fixpoint decimalDigits (fuel : nat) (n : N) : jsstring :=
  match fuel with
  | O => []
  | S fuel' =>
      if (n <? 10)%N then [(48 + n)%N]
      else decimalDigits fuel' (n / 10)%N ++ [(48 + n mod 10)%N]
  end.

(** [String(n)], as template interpolation applies it to a count [n]: the
    decimal digits of [n] (the counts of the program are lengths, far
    below the [1e21] from which the language prints an exponent). *)
Definition numberToString (n : nat) : jsstring :=
  decimalDigits (S (N.to_nat (N.log2 (N.of_nat n)))) (N.of_nat n).

(** ** Limits and preview helpers *)

(** A limit: an integer or [Number.POSITIVE_INFINITY]. *)
Inductive jsnum : Type :=
| Fin (z : Z)
| PosInf.

Definition RESPONSE_PREVIEW_MAX_CHARS : Z := 4000.
Definition RESPONSE_PREVIEW_MAX_LINES : Z := 120.
Definition CONTEXT_LONG_TERM_MAX_CHARS : Z := 4000.
Definition CONTEXT_LONG_TERM_MAX_LINES : Z := 150.
Definition CONTEXT_SCRATCHPAD_MAX_CHARS : Z := 2000.
Definition CONTEXT_SCRATCHPAD_MAX_LINES : Z := 120.
Definition CONTEXT_DAILY_MAX_CHARS : Z := 3000.
Definition CONTEXT_DAILY_MAX_LINES : Z := 120.
Definition CONTEXT_SEARCH_MAX_CHARS : Z := 2500.
Definition CONTEXT_SEARCH_MAX_LINES : Z := 80.
Definition CONTEXT_MAX_CHARS : Z := 16000.

Inductive TruncateMode : Type := ModeStart | ModeEnd | ModeMiddle.

Record PreviewResult : Type := mkPreview {
  preview : jsstring;
  truncated : bool;
  totalLines : nat;
  totalChars : nat;
  previewLines : nat;
  previewChars : nat
}.

Record PreviewOptions : Type := mkOptions {
  maxLines : jsnum;
  maxChars : jsnum;
  mode : TruncateMode
}.

Record LineResult : Type := mkLines {
  lr_lines : list jsstring;
  lr_truncated : bool
}.

Record TextResult : Type := mkText {
  tr_text : jsstring;
  tr_truncated : bool
}.

Definition normalizeContent (content : jsstring) : jsstring := trim content.

(** The literal inserted by keep-middle truncation. *)
Definition marker : jsstring := lit "... (truncated) ...".

Definition isMiddle (m : TruncateMode) : bool :=
  match m with ModeMiddle => true | _ => false end.

Definition isEnd (m : TruncateMode) : bool :=
  match m with ModeEnd => true | _ => false end.

Definition truncateLines (lines : list jsstring) (maxLines : jsnum)
    (mode : TruncateMode) : LineResult :=
  match maxLines with
  | PosInf =>
      (* [Infinity <= 0] is false and [lines.length <= Infinity] is true *)
      mkLines lines false
  | Fin m =>
      if ((m <=? 0) || (len lines <=? m))%Z then mkLines lines false
      else if isEnd mode then mkLines (slice lines (- m) None) true
      else if isMiddle mode && (1 <? m)%Z then
        let keep := (m - 1)%Z in
        let headCount := ceilHalf keep in
        let tailCount := floorHalf keep in
        let head := slice lines 0 (Some headCount) in
        let tail := if (0 <? tailCount)%Z
                    then slice lines (- tailCount) None else [] in
        mkLines (head ++ [marker] ++ tail) true
      else mkLines (slice lines 0 (Some m)) true
  end.

Definition truncateText (text : jsstring) (maxChars : jsnum)
    (mode : TruncateMode) : TextResult :=
  match maxChars with
  | PosInf => mkText text false
  | Fin m =>
      if ((m <=? 0) || (len text <=? m))%Z then mkText text false
      else if isEnd mode then mkText (slice text (- m) None) true
      else if isMiddle mode && (10 <? m)%Z then
        let keep := (m - len marker)%Z in
        if (0 <? keep)%Z then
          let headCount := ceilHalf keep in
          let tailCount := floorHalf keep in
          mkText (slice text 0 (Some headCount) ++ marker
                  ++ slice text (len text - tailCount) None) true
        else mkText (slice text 0 (Some m)) true
      else mkText (slice text 0 (Some m)) true
  end.

Definition buildPreview (content : jsstring) (options : PreviewOptions)
    : PreviewResult :=
  let normalized := normalizeContent content in
  if negb (truthy normalized) then mkPreview [] false 0 0 0 0
  else
    let lines := split_nl normalized in
    let lineResult := truncateLines lines (maxLines options) (mode options) in
    let text := join [LF] (lr_lines lineResult) in
    let charResult := truncateText text (maxChars options) (mode options) in
    let preview := tr_text charResult in
    mkPreview preview
      (lr_truncated lineResult || tr_truncated charResult)
      (length lines)
      (length normalized)
      (if truthy preview then length (split_nl preview) else 0)
      (length preview).

(** The text fed to the character pass: the input after normalisation and
    the line pass (the local [text] of [buildPreview]). *)
Definition lineTruncatedText (content : jsstring) (options : PreviewOptions)
    : jsstring :=
  join [LF] (lr_lines (truncateLines (split_nl (normalizeContent content))
                         (maxLines options) (mode options))).

(** The note appended by [formatContextSection] to a truncated section. *)
Definition sectionNote (r : PreviewResult) : jsstring :=
  [LF; LF] ++ lit "[truncated: showing " ++ numberToString (previewLines r)
  ++ lit "/" ++ numberToString (totalLines r) ++ lit " lines, "
  ++ numberToString (previewChars r) ++ lit "/"
  ++ numberToString (totalChars r) ++ lit " chars]".

Definition formatContextSection (label content : jsstring)
    (mode : TruncateMode) (maxLines maxChars : Z) : jsstring :=
  let result := buildPreview content (mkOptions (Fin maxLines) (Fin maxChars) mode) in
  if negb (truthy (preview result)) then []
  else
    let note := if truncated result then sectionNote result else [] in
    label ++ [LF; LF] ++ preview result ++ note.

(** ** Scratchpad helpers *)

Record ScratchpadItem : Type := mkItem {
  done : bool;
  text : jsstring;
  meta : jsstring
}.

Definition noLineTerminator (s : jsstring) : bool :=
  forallb (fun c => negb (isLineTerminator c)) s.

(** [stripPrefix p s] is the rest of [s] after its prefix [p], if [s]
    starts with [p]. *)
Fixpoint stripPrefix (prefix s : jsstring) : option jsstring :=
  match prefix, s with
  | [], _ => Some s
  | p :: prefix', c :: s' => if (p =? c)%N then stripPrefix prefix' s' else None
  | _ :: _, [] => None
  end.

(** [s.endsWith(suffix)], as the end-anchored literal of a pattern. *)
Definition endsWith (suffix s : jsstring) : bool :=
  match stripPrefix (rev suffix) (rev s) with
  | Some _ => true
  | None => false
  end.

(** The characters the class [[ xX]] accepts. *)
Definition isCheckboxChar (c : jschar) : bool :=
  ((c =? 32) || (c =? 120) || (c =? 88))%N.

(** The match of [/^- \[([ xX])\] (.+)$/] on a line: the two captured
    groups, when the line has that shape.  The dot takes no line
    terminator and, without the [m] flag, [$] is the end of the line. *)
Definition matchItem (line : jsstring) : option (jschar * jsstring) :=
  match stripPrefix (lit "- [") line with
  | Some (c :: afterBox) =>
      if isCheckboxChar c then
        match stripPrefix (lit "] ") afterBox with
        | Some rest =>
            if truthy rest && noLineTerminator rest then Some (c, rest)
            else None
        | None => None
        end
      else None
  | _ => None
  end.

(** Whether [/^<!--.*-->$/] matches a line. *)
Definition matchComment (line : jsstring) : bool :=
  match stripPrefix (lit "<!--") line with
  | Some rest => endsWith (lit "-->") rest && noLineTerminator rest
  | None => false
  end.

(** [c.toLowerCase() === "x"] on the captured checkbox character. *)
Definition isChecked (c : jschar) : bool := ((c =? 120) || (c =? 88))%N.

(** The loop of [parseScratchpad]: [prev] is [lines[i - 1]], absent at
    index 0. *)
Fixpoint parseLines (prev : option jsstring) (lines : list jsstring)
    : list ScratchpadItem :=
  match lines with
  | [] => []
  | line :: rest =>
      match matchItem line with
      | Some (c, t) =>
          let meta :=
            match prev with
            | Some p => if matchComment p then p else []
            | None => []
            end in
          mkItem (isChecked c) t meta :: parseLines (Some line) rest
      | None => parseLines (Some line) rest
      end
  end.

Definition parseScratchpad (content : jsstring) : list ScratchpadItem :=
  parseLines None (split_nl content).

(** The lines one item pushes in [serializeScratchpad]. *)
Definition itemLines (item : ScratchpadItem) : list jsstring :=
  (if truthy (meta item) then [meta item] else [])
  ++ [lit "- " ++ (if done item then lit "[x]" else lit "[ ]")
      ++ lit " " ++ text item].

Definition serializeScratchpad (items : list ScratchpadItem) : jsstring :=
  let lines := [lit "# Scratchpad"; []] ++ flat_map itemLines items in
  join [LF] lines ++ [LF].

(** ** Context builder *)

(** What [buildMemoryContext] reads from its environment: the four files
    ([readFileSafe] gives [null] for a missing one) and what
    [d.toISOString()] returns in [todayStr] and in [yesterdayStr]. *)
Record MemoryStore : Type := mkStore {
  scratchpadFile : option jsstring;
  todayFile : option jsstring;
  longTermFile : option jsstring;
  yesterdayFile : option jsstring;
  todayISO : jsstring;
  yesterdayISO : jsstring
}.

(** [d.toISOString().slice(0, 10)] *)
Definition todayStr (st : MemoryStore) : jsstring :=
  slice (todayISO st) 0 (Some 10%Z).

Definition yesterdayStr (st : MemoryStore) : jsstring :=
  slice (yesterdayISO st) 0 (Some 10%Z).

(** [s?.trim()] as a condition. *)
Definition trimmedTruthy (s : option jsstring) : bool :=
  match s with
  | Some s => truthy (trim s)
  | None => false
  end.

Definition optString (s : option jsstring) : jsstring :=
  match s with Some s => s | None => [] end.

(** [if (section) sections.push(section)] *)
Definition pushSection (section : jsstring) : list jsstring :=
  if truthy section then [section] else [].

Definition SCRATCHPAD_LABEL : jsstring := lit "## SCRATCHPAD.md (working context)".
Definition SEARCH_LABEL : jsstring := lit "## Relevant memories (auto-retrieved)".
Definition LONG_TERM_LABEL : jsstring := lit "## MEMORY.md (long-term)".
Definition todayLabel (today : jsstring) : jsstring :=
  lit "## Daily log: " ++ today ++ lit " (today)".
Definition yesterdayLabel (yesterday : jsstring) : jsstring :=
  lit "## Daily log: " ++ yesterday ++ lit " (yesterday)".

Definition isOpen (i : ScratchpadItem) : bool := negb (done i).

(** The sections each source pushes, in the order of the source. *)
Definition scratchpadSections (scratchpad : option jsstring) : list jsstring :=
  if trimmedTruthy scratchpad then
    let openItems := filter isOpen (parseScratchpad (optString scratchpad)) in
    if (0 <? length openItems)%nat then
      pushSection (formatContextSection SCRATCHPAD_LABEL
                     (serializeScratchpad openItems) ModeStart
                     CONTEXT_SCRATCHPAD_MAX_LINES CONTEXT_SCRATCHPAD_MAX_CHARS)
    else []
  else [].

Definition todaySections (st : MemoryStore) : list jsstring :=
  if trimmedTruthy (todayFile st) then
    pushSection (formatContextSection (todayLabel (todayStr st))
                   (optString (todayFile st)) ModeEnd
                   CONTEXT_DAILY_MAX_LINES CONTEXT_DAILY_MAX_CHARS)
  else [].

Definition searchSections (searchResults : option jsstring) : list jsstring :=
  if trimmedTruthy searchResults then
    pushSection (formatContextSection SEARCH_LABEL
                   (optString searchResults) ModeStart
                   CONTEXT_SEARCH_MAX_LINES CONTEXT_SEARCH_MAX_CHARS)
  else [].

Definition longTermSections (longTerm : option jsstring) : list jsstring :=
  if trimmedTruthy longTerm then
    pushSection (formatContextSection LONG_TERM_LABEL
                   (optString longTerm) ModeMiddle
                   CONTEXT_LONG_TERM_MAX_LINES CONTEXT_LONG_TERM_MAX_CHARS)
  else [].

Definition yesterdaySections (st : MemoryStore) : list jsstring :=
  if trimmedTruthy (yesterdayFile st) then
    pushSection (formatContextSection (yesterdayLabel (yesterdayStr st))
                   (optString (yesterdayFile st)) ModeEnd
                   CONTEXT_DAILY_MAX_LINES CONTEXT_DAILY_MAX_CHARS)
  else [].

(** The array [sections] once every source has been visited. *)
Definition contextSections (st : MemoryStore) (searchResults : option jsstring)
    : list jsstring :=
  scratchpadSections (scratchpadFile st) ++ todaySections st
  ++ searchSections searchResults ++ longTermSections (longTermFile st)
  ++ yesterdaySections st.

Definition DIVIDER : jsstring := [LF; LF] ++ lit "---" ++ [LF; LF].
Definition HEADING : jsstring := lit "# Memory" ++ [LF; LF].

(** The local [context]: heading and joined sections, before the overall
    cap. *)
Definition assembleContext (sections : list jsstring) : jsstring :=
  HEADING ++ join DIVIDER sections.

(** The note of the overall pass. *)
Definition overallNote (r : PreviewResult) : jsstring :=
  [LF; LF] ++ lit "[truncated overall context: showing "
  ++ numberToString (previewChars r) ++ lit "/"
  ++ numberToString (totalChars r) ++ lit " chars]".

Definition overallOptions : PreviewOptions :=
  mkOptions PosInf (Fin CONTEXT_MAX_CHARS) ModeStart.

Definition buildMemoryContext (st : MemoryStore)
    (searchResults : option jsstring) : jsstring :=
  let sections := contextSections st searchResults in
  if (length sections =? 0)%nat then []
  else
    let context := assembleContext sections in
    if (CONTEXT_MAX_CHARS <? len context)%Z then
      let result := buildPreview context overallOptions in
      let note := if truncated result then overallNote result else [] in
      preview result ++ note
    else context.

(** ** qmd output handling *)

(** JSON values as [JSON.parse] builds them.  A number keeps its source
    lexeme (no floating point in the model); an object keeps its members
    in source order, the last one winning on lookup. *)
#[warnings="-register-all"] Inductive json : Type :=
| JNull
| JBool (b : bool)
| JNumber (lexeme : jsstring)
| JString (s : jsstring)
| JArray (elems : list json)
| JObject (members : list (jsstring * json)).

Inductive parsed (A : Type) : Type :=
| Parsed (v : A) (rest : jsstring)
| SyntaxError
| OutOfFuel.

Arguments Parsed {A} v rest.
Arguments SyntaxError {A}.
Arguments OutOfFuel {A}.

(** JSON white space: tab, line feed, carriage return, space. *)
Definition isJsonWs (c : jschar) : bool :=
  ((c =? 9) || (c =? 10) || (c =? 13) || (c =? 32))%N.

Fixpoint skipWs (s : jsstring) : jsstring :=
  match s with
  | c :: s' => if isJsonWs c then skipWs s' else s
  | [] => []
  end.

Definition isDigit (c : jschar) : bool := ((48 <=? c) && (c <=? 57))%N.

Definition hexValue (c : jschar) : option N :=
  (if (48 <=? c) && (c <=? 57) then Some (c - 48)
   else if (97 <=? c) && (c <=? 102) then Some (c - 87)
   else if (65 <=? c) && (c <=? 70) then Some (c - 55)
   else None)%N.

Definition hex4 (a b c d : jschar) : option jschar :=
  match hexValue a, hexValue b, hexValue c, hexValue d with
  | Some x, Some y, Some z, Some w => Some (((x * 16 + y) * 16 + z) * 16 + w)%N
  | _, _, _, _ => None
  end.

(** The character a one-letter escape stands for: quote, backslash,
    slash, [b], [f], [n], [r], [t]. *)
Definition unescape (e : jschar) : option jschar :=
  (if e =? 34 then Some 34 else if e =? 92 then Some 92
   else if e =? 47 then Some 47 else if e =? 98 then Some 8
   else if e =? 102 then Some 12 else if e =? 110 then Some 10
   else if e =? 114 then Some 13 else if e =? 116 then Some 9
   else None)%N.

(** The characters of a JSON string, after its opening quote: up to the
    closing quote, with backslash escapes and no raw control character. *)
Fixpoint parseChars (s : jsstring) : parsed jsstring :=
  match s with
  | [] => SyntaxError
  | c :: rest =>
      if (c =? 34)%N then Parsed [] rest
      else if (c =? 92)%N then
        match rest with
        | [] => SyntaxError
        | e :: rest1 =>
            if (e =? 117)%N then
              match rest1 with
              | h1 :: h2 :: h3 :: h4 :: rest2 =>
                  match hex4 h1 h2 h3 h4, parseChars rest2 with
                  | Some u, Parsed str r => Parsed (u :: str) r
                  | _, _ => SyntaxError
                  end
              | _ => SyntaxError
              end
            else
              match unescape e, parseChars rest1 with
              | Some u, Parsed str r => Parsed (u :: str) r
              | _, _ => SyntaxError
              end
        end
      else if (c <? 32)%N then SyntaxError
      else match parseChars rest with
           | Parsed str r => Parsed (c :: str) r
           | _ => SyntaxError
           end
  end.

Fixpoint spanDigits (s : jsstring) : jsstring * jsstring :=
  match s with
  | c :: s' =>
      if isDigit c then let (ds, r) := spanDigits s' in (c :: ds, r)
      else ([], s)
  | [] => ([], [])
  end.

(** An optional first character that satisfies [p]. *)
Definition takeIf (p : jschar -> bool) (s : jsstring) : jsstring * jsstring :=
  match s with
  | c :: r => if p c then ([c], r) else ([], s)
  | [] => ([], [])
  end.

(** The optional fraction of a number: a dot and at least one digit. *)
Definition parseFraction (s : jsstring) : option (jsstring * jsstring) :=
  match s with
  | c :: r =>
      if (c =? 46)%N then
        let (ds, r') := spanDigits r in
        if truthy ds then Some (c :: ds, r') else None
      else Some ([], s)
  | [] => Some ([], [])
  end.

(** The optional exponent of a number: [e] or [E], an optional sign and at
    least one digit. *)
Definition parseExponent (s : jsstring) : option (jsstring * jsstring) :=
  match s with
  | e :: r =>
      if ((e =? 101) || (e =? 69))%N then
        let (sg, r1) := takeIf (fun c => (c =? 43) || (c =? 45))%N r in
        let (ds, r2) := spanDigits r1 in
        if truthy ds then Some (e :: sg ++ ds, r2) else None
      else Some ([], s)
  | [] => Some ([], [])
  end.

(** A JSON number: an optional minus sign, an integer part without a
    leading zero, an optional fraction and an optional exponent. *)
Definition parseNumber (s : jsstring) : parsed json :=
  let (sign, s1) := takeIf (N.eqb 45) s in
  match s1 with
  | [] => SyntaxError
  | c :: r =>
      if isDigit c then
        let (ip, s2) := if (c =? 48)%N then ([c], r)
                        else let (ds, r') := spanDigits r in (c :: ds, r') in
        match parseFraction s2 with
        | None => SyntaxError
        | Some (fp, s3) =>
            match parseExponent s3 with
            | None => SyntaxError
            | Some (ep, s4) => Parsed (JNumber (sign ++ ip ++ fp ++ ep)) s4
            end
        end
      else SyntaxError
  end.

(** A JSON value, the elements of an array after its first bracket and the
    members of an object after its first brace.  [fuel] bounds the nesting
    and the number of elements; [2 * length + 2] is enough for every input
    ([parseValue_fuel] below). *)
Fixpoint parseValue (fuel : nat) (s : jsstring) {struct fuel} : parsed json :=
  match fuel with
  | O => OutOfFuel
  | S f =>
      match skipWs s with
      | [] => SyntaxError
      | c :: r =>
          if (c =? 123)%N then
            match skipWs r with
            | [] => SyntaxError
            | c' :: r' =>
                if (c' =? 125)%N then Parsed (JObject []) r'
                else parseMembers f (c' :: r') []
            end
          else if (c =? 91)%N then
            match skipWs r with
            | [] => SyntaxError
            | c' :: r' =>
                if (c' =? 93)%N then Parsed (JArray []) r'
                else parseElements f (c' :: r') []
            end
          else if (c =? 34)%N then
            match parseChars r with
            | Parsed str r' => Parsed (JString str) r'
            | _ => SyntaxError
            end
          else
            match stripPrefix (lit "true") (c :: r),
                  stripPrefix (lit "false") (c :: r),
                  stripPrefix (lit "null") (c :: r) with
            | Some r', _, _ => Parsed (JBool true) r'
            | None, Some r', _ => Parsed (JBool false) r'
            | None, None, Some r' => Parsed JNull r'
            | None, None, None =>
                if (c =? 45)%N || isDigit c then parseNumber (c :: r)
                else SyntaxError
            end
      end
  end
with parseElements (fuel : nat) (s : jsstring) (acc : list json)
    {struct fuel} : parsed json :=
  match fuel with
  | O => OutOfFuel
  | S f =>
      match parseValue f s with
      | Parsed v r =>
          match skipWs r with
          | [] => SyntaxError
          | c :: r' =>
              if (c =? 44)%N then parseElements f r' (v :: acc)
              else if (c =? 93)%N then Parsed (JArray (rev (v :: acc))) r'
              else SyntaxError
          end
      | SyntaxError => SyntaxError
      | OutOfFuel => OutOfFuel
      end
  end
with parseMembers (fuel : nat) (s : jsstring) (acc : list (jsstring * json))
    {struct fuel} : parsed json :=
  match fuel with
  | O => OutOfFuel
  | S f =>
      match skipWs s with
      | [] => SyntaxError
      | q :: r =>
          if (q =? 34)%N then
            match parseChars r with
            | Parsed key r1 =>
                match skipWs r1 with
                | [] => SyntaxError
                | c :: r2 =>
                    if (c =? 58)%N then
                      match parseValue f r2 with
                      | Parsed v r3 =>
                          match skipWs r3 with
                          | [] => SyntaxError
                          | d :: r4 =>
                              if (d =? 44)%N
                              then parseMembers f r4 ((key, v) :: acc)
                              else if (d =? 125)%N
                              then Parsed (JObject (rev ((key, v) :: acc))) r4
                              else SyntaxError
                          end
                      | SyntaxError => SyntaxError
                      | OutOfFuel => OutOfFuel
                      end
                    else SyntaxError
                end
            | _ => SyntaxError
            end
          else SyntaxError
      end
  end.

(** What a [try] block around a call observes. *)
Inductive attempt (A : Type) : Type :=
| Returns (v : A)
| Throws.

Arguments Returns {A} v.
Arguments Throws {A}.

(** [JSON.parse(text)]: one value, then only white space. *)
Definition JSON_parse (text : jsstring) : attempt json :=
  match parseValue (2 * length text + 2) text with
  | Parsed v rest =>
      match skipWs rest with
      | [] => Returns v
      | _ :: _ => Throws
      end
  | SyntaxError => Throws
  | OutOfFuel => Throws
  end.

(** [o[key]] on the members of an object: the last member of that name. *)
Fixpoint lookupMember (key : jsstring) (members : list (jsstring * json))
    : option json :=
  match members with
  | [] => None
  | (k, v) :: rest =>
      match lookupMember key rest with
      | Some later => Some later
      | None => if list_eq_dec N.eq_dec k key then Some v else None
      end
  end.

(** [parsed.key] where [key] is [results] or [hits]: [None] is
    [undefined]; reading a property of [null] throws. *)
Definition getProperty (v : json) (key : jsstring) : attempt (option json) :=
  match v with
  | JNull => Throws
  | JObject members => Returns (lookupMember key members)
  | _ => Returns None
  end.

(** [a ?? b]: [b] when [a] is [null] or [undefined] ([None]). *)
Definition coalesce (a : option json) (b : attempt json) : attempt json :=
  match a with
  | None | Some JNull => b
  | Some x => Returns x
  end.

(** How the promise of [runQmdSearch] settles. *)
Inductive SearchOutcome : Type :=
| Resolved (results : json)
| Rejected (message : jsstring).

(** [Array.isArray(parsed) ? parsed : (parsed.results ?? parsed.hits ?? [])] *)
Definition extractResults (v : json) : attempt json :=
  match v with
  | JArray _ => Returns v
  | _ =>
      match getProperty v (lit "results") with
      | Throws => Throws
      | Returns results =>
          coalesce results
            match getProperty v (lit "hits") with
            | Throws => Throws
            | Returns hits => coalesce hits (Returns (JArray []))
            end
      end
  end.

(** The callback [runQmdSearch] passes to [execFile]: [err] is the message
    of the error object when the subprocess failed. *)
Definition runQmdSearch (err : option jsstring) (stdout : jsstring)
    (stderr : option jsstring) : SearchOutcome :=
  match err with
  | Some message =>
      Rejected (if trimmedTruthy stderr then trim (optString stderr) else message)
  | None =>
      match JSON_parse stdout with
      | Returns v =>
          match extractResults v with
          | Returns results => Resolved results
          | Throws =>
              Rejected (lit "Failed to parse qmd output: "
                        ++ slice stdout 0 (Some 200%Z))
          end
      | Throws =>
          Rejected (lit "Failed to parse qmd output: "
                    ++ slice stdout 0 (Some 200%Z))
      end
  end.

(* ------------------------------------------------------------------ *)
(** * Part II : the vocabulary of the properties                        *)
(* ------------------------------------------------------------------ *)

(** Number of line feeds of a string. *)
Fixpoint nlCount (s : jsstring) : nat :=
  match s with
  | [] => 0
  | c :: s' => (if (c =? LF)%N then 1 else 0) + nlCount s'
  end.

(** Lines without line feed, as [split_nl] returns them. *)
Definition noLFLines (lines : list jsstring) : Prop :=
  Forall (fun l => nlCount l = 0) lines.

(** The first [n] and the last [n] elements of a list. *)
Definition firstN {A : Type} (n : Z) (l : list A) : list A := firstn (Z.to_nat n) l.
Definition lastN {A : Type} (n : Z) (l : list A) : list A :=
  skipn (length l - Z.to_nat n) l.

(** A checkbox line: the characters [- [c] ] followed by the text. *)
Definition checkboxLine (c : jschar) (t : jsstring) : jsstring :=
  lit "- [" ++ [c] ++ lit "] " ++ t.

(** A whole-line comment: [<!--], a body without line terminator, [-->]. *)
Definition isCommentLine (line : jsstring) : Prop :=
  exists body, line = lit "<!--" ++ body ++ lit "-->"
               /\ noLineTerminator body = true.

(** The items the format represents: a non-empty text without line
    terminator, and a meta that is empty or a whole-line comment. *)
Definition representable (it : ScratchpadItem) : Prop :=
  text it <> [] /\ noLineTerminator (text it) = true
  /\ (meta it = [] \/ isCommentLine (meta it)).

(** [p] is the start of [s]. *)
Definition isPrefix (p s : jsstring) : Prop := exists w, s = p ++ w.

(** The number a string of decimal digits denotes. *)
Definition decimalValue (s : jsstring) : N :=
  fold_left (fun acc c => (acc * 10 + (c - 48))%N) s 0%N.

(** The longest string of the language: [2^53 - 1] code units. *)
Definition JS_MAX_LENGTH : Z := 2 ^ 53 - 1.

(** A string the language can hold. *)
Definition jsSized (s : jsstring) : Prop := (len s <= JS_MAX_LENGTH)%Z.

(** Characters of a list of lines, one line feed after each. *)
Fixpoint lineCost (lines : list jsstring) : nat :=
  match lines with
  | [] => 0
  | l :: ls => S (length l) + lineCost ls
  end.

(** What a previous line may add to the next item: itself, as meta. *)
Definition metaCredit (prev : option jsstring) : nat :=
  match prev with
  | Some p => if matchComment p then S (length p) else 0
  | None => 0
  end.

(** A file, when present, the language can hold. *)
Definition optSized (s : option jsstring) : Prop :=
  match s with Some s => jsSized s | None => True end.

(** The inputs the program can meet: every string read is one the language
    can hold. *)
Record realistic (st : MemoryStore) (searchResults : option jsstring) : Prop := {
  sized_scratchpad : optSized (scratchpadFile st);
  sized_today : optSized (todayFile st);
  sized_longTerm : optSized (longTermFile st);
  sized_yesterday : optSized (yesterdayFile st);
  sized_search : optSized searchResults
}.

(** Total number of characters of a list of strings. *)
Fixpoint totalLength (parts : list jsstring) : nat :=
  match parts with
  | [] => 0
  | p :: ps => length p + totalLength ps
  end.

(** A store with all five sources. *)
Definition sampleStore : MemoryStore :=
  mkStore (Some (lit "- [x] Ship release" ++ [LF] ++ lit "- [ ] Fix bug"))
          (Some (lit "Worked on the parser"))
          (Some (lit "Remember dark mode"))
          (Some (lit "Set up the repository"))
          (lit "2026-02-15T09:30:00.000Z") (lit "2026-02-14T09:30:00.000Z").

(** Search results for it, as [searchRelevantMemories] formats them. *)
Definition sampleSearch : option jsstring := Some (lit "_notes.md_ dark mode").

(** A line that does not start a checked checkbox. *)
Definition uncheckedStart (line : jsstring) : Prop :=
  stripPrefix (lit "- [x") line = None /\ stripPrefix (lit "- [X") line = None.

(** [hay.includes(needle)] *)
Fixpoint includes (needle hay : jsstring) : bool :=
  match stripPrefix needle hay with
  | Some _ => true
  | None => match hay with
            | [] => false
            | _ :: hay' => includes needle hay'
            end
  end.

(** The content [buildMemoryContext] formats for the scratchpad: the
    re-serialization of the open items. *)
Definition openItemsText (scratchpad : jsstring) : jsstring :=
  serializeScratchpad (filter isOpen (parseScratchpad scratchpad)).

(** The store with its scratchpad file removed. *)
Definition withoutScratchpad (st : MemoryStore) : MemoryStore :=
  mkStore None (todayFile st) (longTermFile st) (yesterdayFile st)
          (todayISO st) (yesterdayISO st).

(** The two records of the repository's noisy-output test, as qmd prints
    them. *)
Definition cleanPayload : jsstring :=
  lit "[" ++ [LF] ++ lit "  "
  ++ qlit "{'docid':'#abc123','score':0.42,'file':'qmd://pi-memory/MEMORY.md','snippet':'Hello'}"
  ++ lit "," ++ [LF] ++ lit "  "
  ++ qlit "{'docid':'#def456','score':0.1,'file':'qmd://pi-memory/daily/2026-02-16.md','snippet':'World'}"
  ++ [LF] ++ lit "]".

(** The escape character that starts an ANSI sequence. *)
Definition ESC : jschar := 27%N.

(** The standard output of that test: two lines of ANSI spinner noise (the
    braille frame U+280B, the check mark U+2714), then the payload. *)
Definition noisyStdout : jsstring :=
  [ESC] ++ lit "[?25l" ++ [10251%N] ++ lit " Gathering information" ++ [LF]
  ++ [ESC] ++ lit "[2K" ++ [ESC] ++ lit "[1A" ++ [ESC] ++ lit "[2K"
  ++ [ESC] ++ lit "[G" ++ [10004%N] ++ lit " downloaded" ++ [LF]
  ++ cleanPayload.

(** What [JSON.parse] makes of the payload. *)
Definition twoRecords : json :=
  JArray
    [JObject [(lit "docid", JString (lit "#abc123"));
              (lit "score", JNumber (lit "0.42"));
              (lit "file", JString (lit "qmd://pi-memory/MEMORY.md"));
              (lit "snippet", JString (lit "Hello"))];
     JObject [(lit "docid", JString (lit "#def456"));
              (lit "score", JNumber (lit "0.1"));
              (lit "file", JString (lit "qmd://pi-memory/daily/2026-02-16.md"));
              (lit "snippet", JString (lit "World"))]].

(* ------------------------------------------------------------------ *)
(** * Part III : the program, continued : tools and handlers           *)
(* ------------------------------------------------------------------ *)

(** The handlers are modelled as functions of what they read (their
    parameters, the files, the environment variables, the arguments
    [execFile] passes to its callbacks) to what they produce (the tool
    result, the file content they write, the qmd state).  Parameters have
    the types their schemas declare. *)

(** ** Utilities *)

(** [a === b] on two strings. *)
Definition strEq (a b : jsstring) : bool :=
  if list_eq_dec N.eq_dec a b then true else false.

Definition shortSessionId (sessionId : jsstring) : jsstring :=
  slice sessionId 0 (Some 8%Z).

(** [s.replace("T", " ")]: the first [T] only. *)
Fixpoint replaceFirstT (s : jsstring) : jsstring :=
  match s with
  | [] => []
  | c :: s' => if (c =? 84)%N then 32%N :: s' else c :: replaceFirstT s'
  end.

(** Whether the pattern of [nowTimestamp] (a dot, at least one digit, [Z],
    the end of the string) matches at the start of [s]. *)
Definition matchFraction (s : jsstring) : bool :=
  match s with
  | c :: r =>
      (c =? 46)%N
      && (let (ds, r') := spanDigits r in
          truthy ds && match r' with
                       | [z] => (z =? 90)%N
                       | _ => false
                       end)
  | [] => false
  end.

(** [s.replace(pattern, "")] for that pattern: the leftmost match goes. *)
Fixpoint dropFraction (s : jsstring) : jsstring :=
  match s with
  | [] => []
  | c :: s' => if matchFraction (c :: s') then [] else c :: dropFraction s'
  end.

(** [nowTimestamp], as a function of what [new Date().toISOString()]
    returns. *)
Definition nowTimestamp (iso : jsstring) : jsstring :=
  dropFraction (replaceFirstT iso).

(** The comment [<!-- ts [sid] -->] the tools stamp their entries with. *)
Definition stamp (ts sid : jsstring) : jsstring :=
  lit "<!-- " ++ ts ++ lit " [" ++ sid ++ lit "] -->".

(** ** Response previews *)

Definition responseOptions (md : TruncateMode) : PreviewOptions :=
  mkOptions (Fin RESPONSE_PREVIEW_MAX_LINES) (Fin RESPONSE_PREVIEW_MAX_CHARS) md.

(** The first line of a preview block. *)
Definition previewMeta (label : jsstring) (r : PreviewResult) : jsstring :=
  label ++ lit " (" ++ numberToString (totalLines r) ++ lit " lines, "
  ++ numberToString (totalChars r) ++ lit " chars)".

(** The note of a truncated preview block. *)
Definition previewNote (r : PreviewResult) : jsstring :=
  [LF] ++ lit "[preview truncated: showing " ++ numberToString (previewLines r)
  ++ lit "/" ++ numberToString (totalLines r) ++ lit " lines, "
  ++ numberToString (previewChars r) ++ lit "/"
  ++ numberToString (totalChars r) ++ lit " chars]".

Definition formatPreviewBlock (label content : jsstring) (md : TruncateMode)
    : jsstring :=
  let result := buildPreview content (responseOptions md) in
  if negb (truthy (preview result)) then label ++ lit ": empty."
  else
    let note := if truncated result then previewNote result else [] in
    previewMeta label result ++ [LF; LF] ++ preview result ++ note.

(** ** qmd state: availability flag and debounced update *)

Inductive UpdateMode : Type := Background | Manual | Off.

(** The module variables [qmdAvailable] and [updateTimer], with the part of
    the event loop they act on: the handles of the timers that are still
    to fire, the next handle [setTimeout] returns, and the number of
    [qmd update] runs started so far. *)
Record QmdState : Type := mkQmd {
  qmdAvailable : bool;
  updateTimer : option nat;
  timers : list nat;
  nextTimer : nat;
  updatesRun : nat
}.

Definition initialQmd : QmdState := mkQmd false None [] 0 0.

Definition clearTimeout (t : nat) (q : QmdState) : QmdState :=
  mkQmd (qmdAvailable q) (updateTimer q) (remove Nat.eq_dec t (timers q))
        (nextTimer q) (updatesRun q).

(** [_clearUpdateTimer], also the body of the [session_shutdown] handler. *)
Definition clearUpdateTimer (q : QmdState) : QmdState :=
  match updateTimer q with
  | Some t =>
      let q1 := clearTimeout t q in
      mkQmd (qmdAvailable q1) None (timers q1) (nextTimer q1) (updatesRun q1)
  | None => q
  end.

(** The callback [scheduleQmdUpdate] hands to [setTimeout], when the timer
    [t] fires; a cleared timer never fires. *)
Definition timerFires (t : nat) (q : QmdState) : QmdState :=
  if existsb (Nat.eqb t) (timers q) then
    mkQmd (qmdAvailable q) None (remove Nat.eq_dec t (timers q))
          (nextTimer q) (S (updatesRun q))
  else q.

Definition setQmdAvailable (value : bool) (q : QmdState) : QmdState :=
  mkQmd value (updateTimer q) (timers q) (nextTimer q) (updatesRun q).

(** [detectQmd]: [err] is what [execFile] passes for [qmd status]. *)
Definition detectQmd (err : option jsstring) : bool :=
  match err with
  | None => true
  | Some _ => false
  end.

(** [setupQmdCollection]: [addErr] is the error of [qmd collection add];
    the two [qmd context add] calls that follow are best effort and their
    errors are ignored. *)
Definition setupQmdCollection (addErr : option jsstring) : bool :=
  match addErr with
  | Some _ => false
  | None => true
  end.

(** The test of one entry in [checkCollection]. *)
Definition entryNamed (name : jsstring) (entry : json) : bool :=
  match entry with
  | JString s => strEq s name
  | JObject members =>
      match lookupMember (lit "name") members with
      | Some (JString s) => strEq s name
      | Some _ => false
      | None => false
      end
  | _ => false
  end.

(** [checkCollection]: [err] and [stdout] are what [execFile] passes for
    [qmd collection list --json]. *)
Definition checkCollection (name : jsstring) (err : option jsstring)
    (stdout : jsstring) : bool :=
  match err with
  | Some _ => false
  | None =>
      match JSON_parse stdout with
      | Returns (JArray collections) => existsb (entryNamed name) collections
      | Returns _ => includes name stdout
      | Throws => includes name stdout
      end
  end.

Definition QMD_REPO_URL : jsstring := lit "https://github.com/tobi/qmd".

Definition qmdInstallInstructions (memoryDir : jsstring) : jsstring :=
  join [LF]
    [lit "memory_search requires qmd.";
     [];
     lit "Install qmd (requires Bun):";
     lit "  bun install -g " ++ QMD_REPO_URL;
     lit "  # ensure ~/.bun/bin is in your PATH";
     [];
     lit "Then set up the collection (one-time):";
     lit "  qmd collection add " ++ memoryDir ++ lit " --name pi-memory";
     lit "  qmd embed"].

(** ** The prompt of the automatic search *)

(** The class of control characters the search query is stripped of. *)
Definition isControl (c : jschar) : bool := ((c <=? 31) || (c =? 127))%N.

(** The local [sanitized] of [searchRelevantMemories]. *)
Definition sanitizePrompt (prompt : jsstring) : jsstring :=
  slice (trim (map (fun c => if isControl c then 32%N else c) prompt))
        0 (Some 200%Z).

(** ** Handoff at compaction *)

(** The local [parts] of the [session_before_compact] handler. *)
Definition handoffParts (scratchpad todayContent : option jsstring)
    : list jsstring :=
  (if trimmedTruthy scratchpad then
     let openItems := filter isOpen (parseScratchpad (optString scratchpad)) in
     if (0 <? length openItems)%nat then
       lit "**Open scratchpad items:**"
       :: map (fun item => lit "- [ ] " ++ text item) openItems
     else []
   else [])
  ++ (if trimmedTruthy todayContent then
        let lines := split_nl (trim (optString todayContent)) in
        let tail := join [LF] (slice lines (-15) None) in
        [lit "**Recent daily log context:**" ++ [LF] ++ tail]
      else []).

(** The local [handoff]. *)
Definition handoffText (ts sid : jsstring) (parts : list jsstring) : jsstring :=
  join [LF]
    ([lit "<!-- HANDOFF " ++ ts ++ lit " [" ++ sid ++ lit "] -->";
      lit "## Session Handoff"] ++ parts).

(** [existing + separator + entry], the way every append is written. *)
Definition appendEntry (existing entry : jsstring) : jsstring :=
  let separator := if truthy (trim existing) then [LF; LF] else [] in
  existing ++ separator ++ entry.

(** ** Tool results *)

(** A tool result: the text of its one content part, the [isError] flag
    (absent means [false]) and the [details]. *)
Record ToolResult (D : Type) : Type := mkResult {
  resultText : jsstring;
  isError : bool;
  details : D
}.

Inductive WriteTarget : Type := LongTerm | Daily.
Inductive WriteMode : Type := Append | Overwrite.

Record WriteDetails : Type := mkWriteDetails {
  wd_path : jsstring;
  wd_target : WriteTarget;
  wd_mode : WriteMode;
  wd_sessionId : jsstring;
  wd_timestamp : jsstring;
  wd_qmdUpdateMode : UpdateMode;
  wd_existingPreview : PreviewResult
}.

Inductive ScratchpadAction : Type :=
| ActAdd | ActDone | ActUndo | ActClearDone | ActList.

Definition actionName (a : ScratchpadAction) : jsstring :=
  match a with
  | ActAdd => lit "add"
  | ActDone => lit "done"
  | ActUndo => lit "undo"
  | ActClearDone => lit "clear_done"
  | ActList => lit "list"
  end.

Inductive ScratchpadDetails : Type :=
| NoDetails
| ListDetails (count open : nat) (pv : PreviewResult)
| ChangeDetails (action : ScratchpadAction) (sessionId timestamp : jsstring)
    (qmdUpdateMode : UpdateMode) (pv : PreviewResult)
| ClearDetails (action : ScratchpadAction) (removed : nat)
    (qmdUpdateMode : UpdateMode) (pv : PreviewResult).

Inductive ReadTarget : Type :=
| ReadLongTerm | ReadScratchpad | ReadDaily | ReadList.

Inductive ReadDetails : Type :=
| NoReadDetails
| FilesDetails (files : list jsstring)
| DailyDetails (path date : jsstring)
| PathDetails (path : jsstring).

Inductive SearchMode : Type := Keyword | Semantic | Deep.

Definition searchModeName (m : SearchMode) : jsstring :=
  match m with
  | Keyword => lit "keyword"
  | Semantic => lit "semantic"
  | Deep => lit "deep"
  end.

Inductive SearchDetails : Type :=
| NoSearchDetails
| CountDetails (searchMode : SearchMode) (query : jsstring) (count : nat).

(** ** memory_read *)

(** Order of two strings by code units, as the default [sort] compares. *)
Fixpoint strLeb (a b : jsstring) : bool :=
  match a, b with
  | [], _ => true
  | _ :: _, [] => false
  | x :: a', y :: b' =>
      if (x <? y)%N then true
      else if (y <? x)%N then false
      else strLeb a' b'
  end.

Fixpoint insertSorted (s : jsstring) (l : list jsstring) : list jsstring :=
  match l with
  | [] => [s]
  | x :: l' => if strLeb s x then s :: l else x :: insertSorted s l'
  end.

(** [files.sort()] on strings. *)
Definition sortStrings (l : list jsstring) : list jsstring :=
  fold_right insertSorted [] l.

(** The local [files] of the [list] target. *)
Definition listedFiles (entries : list jsstring) : list jsstring :=
  rev (sortStrings (filter (endsWith (lit ".md")) entries)).

(** The [execute] of [memory_read].  [entries] is what [readdirSync]
    returns ([None] when it throws); [filePath] and [content] are the path
    and the content of the file the target names ([content] is [None] for
    a file that cannot be read); [todayISO] is what [toISOString] returns
    in [todayStr]. *)
Definition memoryRead (target : ReadTarget) (date : option jsstring)
    (todayISO : jsstring) (entries : option (list jsstring))
    (filePath : jsstring) (content : option jsstring)
    : ToolResult ReadDetails :=
  match target with
  | ReadList =>
      match entries with
      | Some names =>
          let files := listedFiles names in
          if (length files =? 0)%nat then
            mkResult (lit "No daily logs found.") false NoReadDetails
          else
            mkResult (lit "Daily logs:" ++ [LF]
                      ++ join [LF] (map (fun f => lit "- " ++ f) files))
                     false (FilesDetails files)
      | None => mkResult (lit "No daily logs directory.") false NoReadDetails
      end
  | ReadDaily =>
      let d := match date with
               | Some d => d
               | None => slice todayISO 0 (Some 10%Z)
               end in
      if negb (truthy (optString content)) then
        mkResult (lit "No daily log for " ++ d ++ lit ".") false NoReadDetails
      else mkResult (optString content) false (DailyDetails filePath d)
  | ReadScratchpad =>
      if negb (trimmedTruthy content) then
        mkResult (lit "SCRATCHPAD.md is empty or does not exist.") false
                 NoReadDetails
      else mkResult (optString content) false (PathDetails filePath)
  | ReadLongTerm =>
      if negb (truthy (optString content)) then
        mkResult (lit "MEMORY.md is empty or does not exist.") false
                 NoReadDetails
      else mkResult (optString content) false (PathDetails filePath)
  end.

(** ** What depends on the language's case mapping and number printing *)

Section Runtime.

(** [String.prototype.toLowerCase]. *)
Variable toLowerCase : jsstring -> jsstring.

(** Whether the Number a JSON lexeme denotes is zero, and the string
    [String(x)] gives for it. *)
Variable numberIsZero : jsstring -> bool.
Variable numberToStringJS : jsstring -> jsstring.

(** [getQmdUpdateMode]: [envValue] is [process.env.PI_MEMORY_QMD_UPDATE]. *)
Definition getQmdUpdateMode (envValue : option jsstring) : UpdateMode :=
  let m := toLowerCase (match envValue with
                        | Some v => v
                        | None => lit "background"
                        end) in
  if strEq m (lit "manual") then Manual
  else if strEq m (lit "off") then Off
  else if strEq m (lit "background") then Background
  else Background.

(** [ensureQmdAvailableForUpdate]: [detectErr] is the error [execFile]
    passes to the callback of [detectQmd], consulted only when the probe
    runs. *)
Definition ensureQmdAvailableForUpdate (envValue : option jsstring)
    (detectErr : option jsstring) (q : QmdState) : bool * QmdState :=
  if qmdAvailable q then (true, q)
  else
    match getQmdUpdateMode envValue with
    | Background =>
        let q' := setQmdAvailable (detectQmd detectErr) q in
        (qmdAvailable q', q')
    | _ => (false, q)
    end.

Definition scheduleQmdUpdate (envValue : option jsstring) (q : QmdState)
    : QmdState :=
  match getQmdUpdateMode envValue with
  | Background =>
      if negb (qmdAvailable q) then q
      else
        let q1 := match updateTimer q with
                  | Some t => clearTimeout t q
                  | None => q
                  end in
        mkQmd (qmdAvailable q1) (Some (nextTimer q1))
              (nextTimer q1 :: timers q1) (S (nextTimer q1)) (updatesRun q1)
  | _ => q
  end.

(** The two calls that follow every write:
    [await ensureQmdAvailableForUpdate(); scheduleQmdUpdate();]. *)
Definition afterWrite (envValue : option jsstring)
    (detectErr : option jsstring) (q : QmdState) : QmdState :=
  scheduleQmdUpdate envValue
    (snd (ensureQmdAvailableForUpdate envValue detectErr q)).

(** *** session_before_compact *)

(** The handler: the content it writes to today's daily log, if it writes,
    and the qmd state it leaves.  [todayContent] and [existing] are its two
    reads of today's log. *)
Definition sessionBeforeCompact (sessionId nowISO : jsstring)
    (scratchpad todayContent existing : option jsstring)
    (envValue detectErr : option jsstring) (q : QmdState)
    : option jsstring * QmdState :=
  let sid := shortSessionId sessionId in
  let ts := nowTimestamp nowISO in
  let parts := handoffParts scratchpad todayContent in
  if (length parts =? 0)%nat then (None, q)
  else
    let handoff := handoffText ts sid parts in
    (Some (appendEntry (optString existing) handoff),
     afterWrite envValue detectErr q).

(** *** memory_write *)

Record WriteOutcome : Type := mkWriteOutcome {
  wo_result : ToolResult WriteDetails;
  wo_file : jsstring;
  wo_qmd : QmdState
}.

(** The [execute] of [memory_write]: [filePath] is the path of the target
    file and [existingFile] what [readFileSafe] returns for it. *)
Definition memoryWrite (target : WriteTarget) (content : jsstring)
    (writeMode : option WriteMode) (sessionId nowISO : jsstring)
    (filePath : jsstring) (existingFile : option jsstring)
    (envValue detectErr : option jsstring) (q : QmdState) : WriteOutcome :=
  let sid := shortSessionId sessionId in
  let ts := nowTimestamp nowISO in
  let existing := optString existingFile in
  match target with
  | Daily =>
      let existingPreview := buildPreview existing (responseOptions ModeEnd) in
      let existingSnippet :=
        if truthy (preview existingPreview)
        then [LF; LF] ++ formatPreviewBlock (lit "Existing daily log preview")
                           existing ModeEnd
        else [LF; LF] ++ lit "Daily log was empty." in
      let stamped := stamp ts sid ++ [LF] ++ content in
      mkWriteOutcome
        (mkResult (lit "Appended to daily log: " ++ filePath ++ existingSnippet)
                  false
                  (mkWriteDetails filePath Daily Append sid ts
                     (getQmdUpdateMode envValue) existingPreview))
        (appendEntry existing stamped)
        (afterWrite envValue detectErr q)
  | LongTerm =>
      let existingPreview := buildPreview existing (responseOptions ModeMiddle) in
      let existingSnippet :=
        if truthy (preview existingPreview)
        then [LF; LF] ++ formatPreviewBlock (lit "Existing MEMORY.md preview")
                           existing ModeMiddle
        else [LF; LF] ++ lit "MEMORY.md was empty." in
      match writeMode with
      | Some Overwrite =>
          let stamped := lit "<!-- last updated: " ++ ts ++ lit " [" ++ sid
                         ++ lit "] -->" ++ [LF] ++ content in
          mkWriteOutcome
            (mkResult (lit "Overwrote MEMORY.md" ++ existingSnippet) false
                      (mkWriteDetails filePath LongTerm Overwrite sid ts
                         (getQmdUpdateMode envValue) existingPreview))
            stamped
            (afterWrite envValue detectErr q)
      | _ =>
          let stamped := stamp ts sid ++ [LF] ++ content in
          mkWriteOutcome
            (mkResult (lit "Appended to MEMORY.md" ++ existingSnippet) false
                      (mkWriteDetails filePath LongTerm Append sid ts
                         (getQmdUpdateMode envValue) existingPreview))
            (appendEntry existing stamped)
            (afterWrite envValue detectErr q)
      end
  end.

(** *** scratchpad *)

(** The loop of [done] and [undo]: the first item whose flag differs from
    [targetDone] and whose lowered text includes [needle] gets the flag;
    [None] when no item matched. *)
Fixpoint markFirst (targetDone : bool) (needle : jsstring)
    (items : list ScratchpadItem) : option (list ScratchpadItem) :=
  match items with
  | [] => None
  | item :: rest =>
      if negb (Bool.eqb (done item) targetDone)
         && includes needle (toLowerCase (text item))
      then Some (mkItem targetDone (text item) (meta item) :: rest)
      else
        match markFirst targetDone needle rest with
        | Some rest' => Some (item :: rest')
        | None => None
        end
  end.

Record ScratchpadOutcome : Type := mkScratchpadOutcome {
  so_result : ToolResult ScratchpadDetails;
  so_file : option jsstring;
  so_qmd : QmdState
}.

(** A reply that writes nothing. *)
Definition plainReply (message : jsstring) (q : QmdState) : ScratchpadOutcome :=
  mkScratchpadOutcome (mkResult message false NoDetails) None q.

(** The [execute] of [scratchpad]: [itemText] is the optional parameter
    [text], [existingFile] what [readFileSafe] returns for the scratchpad
    file. *)
Definition scratchpadExecute (action : ScratchpadAction)
    (itemText : option jsstring) (sessionId nowISO : jsstring)
    (existingFile : option jsstring)
    (envValue detectErr : option jsstring) (q : QmdState)
    : ScratchpadOutcome :=
  let sid := shortSessionId sessionId in
  let ts := nowTimestamp nowISO in
  let existing := optString existingFile in
  let items := parseScratchpad existing in
  let written (items' : list ScratchpadItem) (message : jsstring)
      (d : PreviewResult -> ScratchpadDetails) :=
    let serialized := serializeScratchpad items' in
    let pv := buildPreview serialized (responseOptions ModeStart) in
    mkScratchpadOutcome
      (mkResult (message ++ [LF; LF]
                 ++ formatPreviewBlock (lit "Scratchpad preview") serialized
                      ModeStart)
                false (d pv))
      (Some serialized)
      (afterWrite envValue detectErr q) in
  match action with
  | ActList =>
      if (length items =? 0)%nat then plainReply (lit "Scratchpad is empty.") q
      else
        let serialized := serializeScratchpad items in
        let pv := buildPreview serialized (responseOptions ModeStart) in
        mkScratchpadOutcome
          (mkResult (formatPreviewBlock (lit "Scratchpad preview") serialized
                       ModeStart)
                    false
                    (ListDetails (length items) (length (filter isOpen items)) pv))
          None q
  | ActAdd =>
      if negb (truthy (optString itemText)) then
        plainReply (lit "Error: 'text' is required for add.") q
      else
        let t := optString itemText in
        written (items ++ [mkItem false t (stamp ts sid)])
                (lit "Added: - [ ] " ++ t)
                (ChangeDetails action sid ts (getQmdUpdateMode envValue))
  | ActDone | ActUndo =>
      if negb (truthy (optString itemText)) then
        plainReply (lit "Error: 'text' is required for " ++ actionName action
                    ++ lit ".") q
      else
        let t := optString itemText in
        let needle := toLowerCase t in
        let targetDone := match action with ActDone => true | _ => false end in
        match markFirst targetDone needle items with
        | None =>
            plainReply (lit "No matching "
                        ++ (if targetDone then lit "open" else lit "done")
                        ++ lit " item found for: " ++ [DQUOTE] ++ t ++ [DQUOTE]) q
        | Some items' =>
            written items' (lit "Updated.")
                    (ChangeDetails action sid ts (getQmdUpdateMode envValue))
        end
  | ActClearDone =>
      let before := length items in
      let items' := filter isOpen items in
      let removed := before - length items' in
      written items'
              (lit "Cleared " ++ numberToString removed ++ lit " done item(s).")
              (ClearDetails action removed (getQmdUpdateMode envValue))
  end.

(** *** Search results *)

(** Truthiness of a JSON value. *)
Definition jsTruthy (v : json) : bool :=
  match v with
  | JNull => false
  | JBool b => b
  | JNumber lexeme => negb (numberIsZero lexeme)
  | JString s => truthy s
  | JArray _ => true
  | JObject _ => true
  end.

(** [String(v)], as a template literal applies it.  An array joins the
    strings of its elements ([null] gives the empty string); an object
    gives [[object Object]], unless it has a member [toString] of its own,
    which is no function: the conversion then throws. *)
Fixpoint jsToString (v : json) : attempt jsstring :=
  match v with
  | JNull => Returns (lit "null")
  | JBool b => Returns (if b then lit "true" else lit "false")
  | JNumber lexeme => Returns (numberToStringJS lexeme)
  | JString s => Returns s
  | JArray elems =>
      match
        (fix elements (l : list json) : attempt (list jsstring) :=
           match l with
           | [] => Returns []
           | e :: l' =>
               match
                 match e with
                 | JNull => Returns []
                 | _ => jsToString e
                 end, elements l'
               with
               | Returns s, Returns ss => Returns (s :: ss)
               | _, _ => Throws
               end
           end) elems
      with
      | Returns strs => Returns (join (lit ",") strs)
      | Throws => Throws
      end
  | JObject members =>
      match lookupMember (lit "toString") members with
      | Some _ => Throws
      | None => Returns (lit "[object Object]")
      end
  end.

(** [results.length === 0] *)
Definition lengthIsZero (results : json) : bool :=
  match results with
  | JArray [] => true
  | JString [] => true
  | JObject members =>
      match lookupMember (lit "length") members with
      | Some (JNumber lexeme) => numberIsZero lexeme
      | _ => false
      end
  | _ => false
  end.

(** [r.content ?? r.chunk ?? ""] *)
Definition resultBody (r : json) : attempt json :=
  match getProperty r (lit "content") with
  | Throws => Throws
  | Returns c =>
      coalesce c
        match getProperty r (lit "chunk") with
        | Throws => Throws
        | Returns k => coalesce k (Returns (JString []))
        end
  end.

(** The callback [searchRelevantMemories] maps over the results: [None]
    is its [null]. *)
Definition snippetOf (r : json) : attempt (option jsstring) :=
  match resultBody r with
  | Returns (JString body) =>
      if negb (truthy (trim body)) then Returns None
      else
        match getProperty r (lit "path") with
        | Throws => Throws
        | Returns p =>
            match
              match p with
              | Some x =>
                  if jsTruthy x then
                    match jsToString x with
                    | Returns ps => Returns (lit "_" ++ ps ++ lit "_")
                    | Throws => Throws
                    end
                  else Returns []
              | None => Returns []
              end
            with
            | Returns filePart => Returns (Some (filePart ++ [LF] ++ trim body))
            | Throws => Throws
            end
        end
  | Returns _ => Throws
  | Throws => Throws
  end.

(** [array.map(f)] for a callback that may throw. *)
Fixpoint mapAttempt (A B : Type) (f : A -> attempt B) (l : list A)
    : attempt (list B) :=
  match l with
  | [] => Returns []
  | x :: l' =>
      match f x with
      | Throws => Throws
      | Returns y =>
          match mapAttempt f l' with
          | Throws => Throws
          | Returns ys => Returns (y :: ys)
          end
      end
  end.

(** [.filter(Boolean)] on snippets: [null] and the empty string go. *)
Fixpoint keepTruthy (l : list (option jsstring)) : list jsstring :=
  match l with
  | [] => []
  | Some s :: l' => if truthy s then s :: keepTruthy l' else keepTruthy l'
  | None :: l' => keepTruthy l'
  end.

(** [searchRelevantMemories]: [available] is the flag [qmdAvailable];
    [collection] holds what [execFile] passes for the collection list;
    [search] holds what it passes for the search, [None] when the timeout
    of three seconds settles the race first. *)
Definition searchRelevantMemories (available : bool) (prompt : jsstring)
    (collection : option jsstring * jsstring)
    (search : option (option jsstring * jsstring * option jsstring))
    : jsstring :=
  if negb available || negb (truthy (trim prompt)) then []
  else
    let sanitized := sanitizePrompt prompt in
    if negb (truthy sanitized) then []
    else if negb (checkCollection (lit "pi-memory") (fst collection)
                    (snd collection)) then []
    else
      match search with
      | None => []
      | Some (err, stdout, stderr) =>
          match runQmdSearch err stdout stderr with
          | Rejected _ => []
          | Resolved results =>
              if negb (jsTruthy results) || lengthIsZero results then []
              else
                match results with
                | JArray elems =>
                    match mapAttempt snippetOf elems with
                    | Throws => []
                    | Returns mapped =>
                        let snippets := keepTruthy mapped in
                        if (length snippets =? 0)%nat then []
                        else join DIVIDER snippets
                    end
                | _ => []
                end
          end
      end.

(** *** before_agent_start *)



(** *** memory_search *)

(** The callback [memory_search] maps over the results, at index [i]. *)
Definition formatResult (i : nat) (r : json) : attempt jsstring :=
  match getProperty r (lit "path"), getProperty r (lit "score"), resultBody r with
  | Returns p, Returns sc, Returns body =>
      match
        match p with
        | Some x =>
            if jsTruthy x then
              match jsToString x with
              | Returns ps => Returns [lit "**File:** " ++ ps]
              | Throws => Throws
              end
            else Returns []
        | None => Returns []
        end,
        match sc with
        | None | Some JNull => Returns []
        | Some x =>
            match jsToString x with
            | Returns ss => Returns [lit "**Score:** " ++ ss]
            | Throws => Throws
            end
        end,
        (if jsTruthy body then
           match jsToString body with
           | Returns bs => Returns [[LF] ++ bs]
           | Throws => Throws
           end
         else Returns [])
      with
      | Returns filePart, Returns scorePart, Returns bodyPart =>
          Returns (join [LF]
                     ([lit "### Result " ++ numberToString (i + 1)]
                      ++ filePart ++ scorePart ++ bodyPart))
      | _, _, _ => Throws
      end
  | _, _, _ => Throws
  end.

(** [results.map((r, i) => ...)] *)
Fixpoint formatResults (i : nat) (results : list json) : attempt (list jsstring) :=
  match results with
  | [] => Returns []
  | r :: rest =>
      match formatResult i r, formatResults (S i) rest with
      | Returns s, Returns ss => Returns (s :: ss)
      | _, _ => Throws
      end
  end.

(** The reply of [memory_search]: a result, or the result of its [catch]
    for a [TypeError], whose message is the engine's. *)
Inductive SearchReply : Type :=
| Reply (r : ToolResult SearchDetails)
| TypeErrorReply.

(** The [execute] of [memory_search]: [detectErr], [collection], [addErr]
    and [search] are what [execFile] passes to the callbacks of
    [detectQmd], [checkCollection], [setupQmdCollection] and
    [runQmdSearch], each consulted only when the call is made. *)
Definition memorySearch (query : jsstring) (searchMode : option SearchMode)
    (memoryDir : jsstring) (detectErr : option jsstring)
    (collection : option jsstring * jsstring) (addErr : option jsstring)
    (search : option jsstring * jsstring * option jsstring)
    (q : QmdState) : SearchReply * QmdState :=
  let q1 := if negb (qmdAvailable q)
            then setQmdAvailable (detectQmd detectErr) q else q in
  if negb (qmdAvailable q1) then
    (Reply (mkResult (qmdInstallInstructions memoryDir) true NoSearchDetails), q1)
  else
    let hasCollection :=
      if checkCollection (lit "pi-memory") (fst collection) (snd collection)
      then true
      else setupQmdCollection addErr in
    if negb hasCollection then
      (Reply (mkResult (lit "Could not set up qmd pi-memory collection. Check that qmd is working and the memory directory exists.")
                true NoSearchDetails), q1)
    else
      let md := match searchMode with Some m => m | None => Keyword end in
      let '(err, stdout, stderr) := search in
      match runQmdSearch err stdout stderr with
      | Rejected message =>
          (Reply (mkResult (lit "memory_search error: " ++ message) true
                    NoSearchDetails), q1)
      | Resolved results =>
          if lengthIsZero results then
            (Reply (mkResult (lit "No results found for " ++ [DQUOTE] ++ query
                              ++ [DQUOTE] ++ lit " (mode: " ++ searchModeName md
                              ++ lit ").")
                      false (CountDetails md query 0)), q1)
          else
            match results with
            | JArray elems =>
                match formatResults 0 elems with
                | Returns formatted =>
                    (Reply (mkResult (join DIVIDER formatted) false
                              (CountDetails md query (length elems))), q1)
                | Throws => (TypeErrorReply, q1)
                end
            | _ => (TypeErrorReply, q1)
            end
      end.

End Runtime.

(* ------------------------------------------------------------------ *)
(** * Part IV : the vocabulary of the properties of the tools          *)
(* ------------------------------------------------------------------ *)

(** [u] is the end of [s]. *)
Definition isSuffix (u s : jsstring) : Prop := exists w, s = w ++ u.

(** A string of white space only. *)
Definition blank (s : jsstring) : bool := forallb isWhiteSpace s.

(** The test of the loop of [done] and [undo] on one item. *)
Definition eligible (toLowerCase : jsstring -> jsstring) (targetDone : bool)
    (needle : jsstring) (it : ScratchpadItem) : bool :=
  negb (Bool.eqb (done it) targetDone) && includes needle (toLowerCase (text it)).

(** The flag [done] and [undo] aim at. *)
Definition targetOf (action : ScratchpadAction) : bool :=
  match action with ActDone => true | _ => false end.

(** An item as the handoff lists it: open and without stamp. *)
Definition stripMeta (it : ScratchpadItem) : ScratchpadItem :=
  mkItem false (text it) [].

(** The arguments of one call of [memory_write] with the target [daily],
    and what the call reads from its environment. *)
Record DailyCall : Type := mkDailyCall {
  dc_content : jsstring;
  dc_mode : option WriteMode;
  dc_sessionId : jsstring;
  dc_nowISO : jsstring;
  dc_envValue : option jsstring;
  dc_detectErr : option jsstring
}.

(** The entry such a call appends: its stamp, a line feed, its content. *)
Definition dailyEntry (c : DailyCall) : jsstring :=
  stamp (nowTimestamp (dc_nowISO c)) (shortSessionId (dc_sessionId c))
  ++ [LF] ++ dc_content c.

(** Calls in a row on one daily log: each reads the file the call before
    it wrote. *)
Fixpoint dailyWrites (toLowerCase : jsstring -> jsstring) (filePath : jsstring)
    (calls : list DailyCall) (file : option jsstring) (q : QmdState)
    : option jsstring * QmdState :=
  match calls with
  | [] => (file, q)
  | c :: rest =>
      let out := memoryWrite toLowerCase Daily (dc_content c) (dc_mode c)
                   (dc_sessionId c) (dc_nowISO c) filePath file
                   (dc_envValue c) (dc_detectErr c) q in
      dailyWrites toLowerCase filePath rest (Some (wo_file out)) (wo_qmd out)
  end.

(** The store after today's log was written. *)
Definition withToday (st : MemoryStore) (file : jsstring) : MemoryStore :=
  mkStore (scratchpadFile st) (Some file) (longTermFile st) (yesterdayFile st)
          (todayISO st) (yesterdayISO st).

(** A result record that has none of the members [keys]. *)
Definition lacks (keys : list jsstring) (r : json) : Prop :=
  exists members,
    r = JObject members
    /\ Forall (fun k => lookupMember k members = None) keys.

(** The heading of the result number [i] in a reply of [memory_search]. *)
Definition resultHeading (i : nat) : jsstring :=
  lit "### Result " ++ numberToString i.

(** What happens to the qmd state, one event at a time: the two calls that
    follow a write, either of them alone, a timer that fires, the timer
    being cleared (at shutdown), the availability flag being set (at
    session start, or when [memory_search] probes again). *)
Inductive QmdEvent : Type :=
| WriteDone (envValue detectErr : option jsstring)
| EnsureCalled (envValue detectErr : option jsstring)
| ScheduleCalled (envValue : option jsstring)
| TimerFired (t : nat)
| TimerCleared
| AvailabilitySet (value : bool).

Definition stepQmd (toLowerCase : jsstring -> jsstring) (e : QmdEvent)
    (q : QmdState) : QmdState :=
  match e with
  | WriteDone envValue detectErr => afterWrite toLowerCase envValue detectErr q
  | EnsureCalled envValue detectErr =>
      snd (ensureQmdAvailableForUpdate toLowerCase envValue detectErr q)
  | ScheduleCalled envValue => scheduleQmdUpdate toLowerCase envValue q
  | TimerFired t => timerFires t q
  | TimerCleared => clearUpdateTimer q
  | AvailabilitySet value => setQmdAvailable value q
  end.

Definition runQmd (toLowerCase : jsstring -> jsstring) (events : list QmdEvent)
    (q : QmdState) : QmdState :=
  fold_left (fun q e => stepQmd toLowerCase e q) events q.

(** The timers the variable [updateTimer] accounts for. *)
Definition pending (q : QmdState) : list nat :=
  match updateTimer q with
  | Some t => [t]
  | None => []
  end.

(** Whether an event calls [scheduleQmdUpdate] in background mode. *)
Definition schedulesInBackground (toLowerCase : jsstring -> jsstring)
    (e : QmdEvent) : bool :=
  match e with
  | WriteDone envValue _ | ScheduleCalled envValue =>
      match getQmdUpdateMode toLowerCase envValue with
      | Background => true
      | _ => false
      end
  | _ => false
  end.


(** The store after the scratchpad file was written. *)
Definition withScratchpad (st : MemoryStore) (file : jsstring) : MemoryStore :=
  mkStore (Some file) (todayFile st) (longTermFile st) (yesterdayFile st)
          (todayISO st) (yesterdayISO st).


(* ------------------------------------------------------------------ *)
(** * Part V : properties of the context assembly engine               *)
(* ------------------------------------------------------------------ *)


Unset Implicit Arguments.

(** ** Lines, joins and slices *)

Lemma nlCount_app (a b : jsstring) : nlCount (a ++ b) = nlCount a + nlCount b.
Proof.
  induction a as [|c a IH]; [reflexivity|].
  cbn [app nlCount]. rewrite IH. lia.
Qed.

Lemma split_nl_not_nil (s : jsstring) : split_nl s <> [].
Proof.
  destruct s as [|c s]; cbn [split_nl]; [discriminate|].
  destruct (c =? LF)%N; [discriminate|].
  destruct (split_nl s); discriminate.
Qed.

Lemma split_nl_length (s : jsstring) : length (split_nl s) = S (nlCount s).
Proof.
  induction s as [|c s IH]; [reflexivity|].
  cbn [split_nl nlCount].
  destruct (c =? LF)%N; cbn [length]; [now rewrite IH|].
  destruct (split_nl s) eqn:E; [now apply split_nl_not_nil in E|].
  cbn [length] in *. lia.
Qed.

Lemma join_cons (sep p : jsstring) (ps : list jsstring) :
  ps <> [] -> join sep (p :: ps) = p ++ sep ++ join sep ps.
Proof. destruct ps; [congruence|reflexivity]. Qed.

Lemma join_split_nl (s : jsstring) : join [LF] (split_nl s) = s.
Proof.
  induction s as [|c s IH]; [reflexivity|].
  cbn [split_nl]. destruct (c =? LF)%N eqn:E.
  - apply N.eqb_eq in E; subst c.
    rewrite join_cons by apply split_nl_not_nil. cbn [app]. now rewrite IH.
  - destruct (split_nl s) as [|l ls] eqn:Es; [now apply split_nl_not_nil in Es|].
    destruct ls as [|l' ls]; cbn [join app] in *; now rewrite <- IH.
Qed.

Lemma split_nl_lines_noLF (s : jsstring) :
  Forall (fun l => nlCount l = 0) (split_nl s).
Proof.
  induction s as [|c s IH]; cbn [split_nl].
  - repeat constructor.
  - destruct (c =? LF)%N eqn:E.
    + constructor; [reflexivity|assumption].
    + destruct (split_nl s) as [|l ls].
      * repeat constructor. cbn [nlCount]. now rewrite E.
      * inversion IH; subst. constructor; [|assumption].
        cbn [nlCount]. now rewrite E.
Qed.

Lemma split_nl_noLF (s : jsstring) : nlCount s = 0 -> split_nl s = [s].
Proof.
  induction s as [|c s IH]; [reflexivity|].
  cbn [split_nl nlCount]. destruct (c =? LF)%N; [discriminate|].
  intros H. now rewrite IH.
Qed.

Lemma split_nl_app (a b : jsstring) :
  nlCount a = 0 -> split_nl (a ++ LF :: b) = a :: split_nl b.
Proof.
  induction a as [|c a IH]; [reflexivity|].
  cbn [split_nl nlCount app]. destruct (c =? LF)%N; [discriminate|].
  intros H. now rewrite IH.
Qed.

Lemma split_nl_join (ls : list jsstring) :
  ls <> [] -> Forall (fun l => nlCount l = 0) ls ->
  split_nl (join [LF] ls) = ls.
Proof.
  induction ls as [|l ls IH]; [congruence|].
  intros _ H. inversion H as [|? ? Hl Hls]; subst.
  destruct ls as [|l' ls].
  - now apply split_nl_noLF.
  - rewrite join_cons by discriminate. cbn [app].
    rewrite split_nl_app by assumption.
    f_equal. apply IH; [discriminate|assumption].
Qed.

Lemma nlCount_join (ls : list jsstring) :
  Forall (fun l => nlCount l = 0) ls ->
  nlCount (join [LF] ls) = pred (length ls).
Proof.
  intros H. destruct ls as [|l ls]; [reflexivity|].
  pose proof (split_nl_length (join [LF] (l :: ls))) as E.
  rewrite split_nl_join in E by (assumption || discriminate).
  cbn [length pred] in *. lia.
Qed.

Lemma nlCount_firstn (n : nat) (s : jsstring) : nlCount (firstn n s) <= nlCount s.
Proof.
  rewrite <- (firstn_skipn n s) at 2. rewrite nlCount_app. lia.
Qed.

Lemma nlCount_skipn (n : nat) (s : jsstring) : nlCount (skipn n s) <= nlCount s.
Proof.
  rewrite <- (firstn_skipn n s) at 2. rewrite nlCount_app. lia.
Qed.

Lemma nlCount_firstn_skipn (h k : nat) (s : jsstring) :
  h <= k -> nlCount (firstn h s) + nlCount (skipn k s) <= nlCount s.
Proof.
  intros Hhk.
  rewrite <- (firstn_skipn k s) at 3. rewrite nlCount_app.
  assert (nlCount (firstn h s) <= nlCount (firstn k s)); [|lia].
  replace h with (Nat.min h k) by lia.
  rewrite <- firstn_firstn. apply nlCount_firstn.
Qed.

Section Slices.
Variable A : Type.
Implicit Types l : list A.

Lemma firstn_to_nat_min l (k : Z) :
  firstn (Z.to_nat (Z.min k (len l))) l = firstn (Z.to_nat k) l.
Proof.
  unfold len. destruct (Z.le_ge_cases k (Z.of_nat (length l))) as [H|H].
  - now rewrite Z.min_l.
  - rewrite Z.min_r by lia. rewrite Nat2Z.id.
    rewrite firstn_all. symmetry. apply firstn_all2. lia.
Qed.

(** [l.slice(0, k)] keeps the first [k] elements. *)
Lemma slice_first l (k : Z) :
  (0 <= k)%Z -> slice l 0 (Some k) = firstn (Z.to_nat k) l.
Proof.
  intros Hk. unfold slice, relIndex.
  replace (0 <? 0)%Z with false by reflexivity.
  destruct (k <? 0)%Z eqn:E; [apply Z.ltb_lt in E; lia|].
  rewrite (Z.min_l 0) by lia. cbn [Z.to_nat skipn].
  rewrite Z.sub_0_r. apply firstn_to_nat_min.
Qed.

(** [l.slice(-k)] keeps the last [k] elements. *)
Lemma slice_last l (k : Z) :
  (0 < k)%Z -> slice l (- k) None = skipn (length l - Z.to_nat k) l.
Proof.
  intros Hk. unfold slice, relIndex.
  destruct (- k <? 0)%Z eqn:E; [|apply Z.ltb_ge in E; lia].
  replace (Z.to_nat (Z.max (Z.of_nat (length l) + - k) 0))
    with (length l - Z.to_nat k) by lia.
  apply firstn_all2. rewrite length_skipn. lia.
Qed.

(** [l.slice(j)] with [0 <= j] drops the first [j] elements. *)
Lemma slice_from l (j : Z) :
  (0 <= j)%Z -> slice l j None = skipn (Z.to_nat j) l.
Proof.
  intros Hj. unfold slice, relIndex.
  destruct (j <? 0)%Z eqn:E; [apply Z.ltb_lt in E; lia|].
  destruct (Z.le_ge_cases j (Z.of_nat (length l))) as [H|H].
  - rewrite Z.min_l by lia. apply firstn_all2. rewrite length_skipn. lia.
  - rewrite Z.min_r by lia. rewrite Nat2Z.id, Z.sub_diag.
    cbn [Z.to_nat firstn]. symmetry. apply skipn_all2. lia.
Qed.
End Slices.

Lemma ceilHalf_floorHalf (k : Z) : (ceilHalf k + floorHalf k = k)%Z.
Proof.
  unfold ceilHalf, floorHalf.
  pose proof (Z.div_mod k 2 ltac:(lia)). pose proof (Z.mod_pos_bound k 2 ltac:(lia)).
  pose proof (Z.div_mod (- k) 2 ltac:(lia)). pose proof (Z.mod_pos_bound (- k) 2 ltac:(lia)).
  lia.
Qed.

Lemma floorHalf_bounds (k : Z) : (0 <= k -> 0 <= floorHalf k <= ceilHalf k)%Z.
Proof.
  unfold ceilHalf, floorHalf. intros Hk.
  pose proof (Z.div_mod k 2 ltac:(lia)). pose proof (Z.mod_pos_bound k 2 ltac:(lia)).
  pose proof (Z.div_mod (- k) 2 ltac:(lia)). pose proof (Z.mod_pos_bound (- k) 2 ltac:(lia)).
  lia.
Qed.

Lemma marker_length : length marker = 19.
Proof. reflexivity. Qed.

Lemma marker_noLF : nlCount marker = 0.
Proof. reflexivity. Qed.

(** ** The truncation primitives *)

(** The closed forms of [truncateLines] once the limit bites. *)
Lemma truncateLines_cases (lines : list jsstring) (m : Z) (md : TruncateMode) :
  (0 < m < len lines)%Z ->
  truncateLines lines (Fin m) md =
    match md with
    | ModeEnd => mkLines (skipn (length lines - Z.to_nat m) lines) true
    | ModeMiddle =>
        if (1 <? m)%Z then
          mkLines (firstn (Z.to_nat (ceilHalf (m - 1))) lines ++ [marker]
                   ++ skipn (length lines - Z.to_nat (floorHalf (m - 1))) lines) true
        else mkLines (firstn (Z.to_nat m) lines) true
    | ModeStart => mkLines (firstn (Z.to_nat m) lines) true
    end.
Proof.
  intros [Hm Hl]. unfold truncateLines.
  destruct (m <=? 0)%Z eqn:E1; [apply Z.leb_le in E1; lia|].
  destruct (len lines <=? m)%Z eqn:E2; [apply Z.leb_le in E2; lia|].
  cbn [orb]. destruct md; cbn [isEnd isMiddle andb].
  - now rewrite slice_first by lia.
  - now rewrite slice_last by lia.
  - destruct (1 <? m)%Z eqn:E3; [|now rewrite slice_first by lia].
    apply Z.ltb_lt in E3.
    pose proof (floorHalf_bounds (m - 1)%Z ltac:(lia)) as Hb.
    rewrite slice_first by lia.
    destruct (0 <? floorHalf (m - 1))%Z eqn:E4.
    + apply Z.ltb_lt in E4. now rewrite slice_last by lia.
    + apply Z.ltb_ge in E4. replace (floorHalf (m - 1)) with 0%Z by lia.
      cbn [Z.to_nat]. rewrite Nat.sub_0_r, skipn_all. reflexivity.
Qed.

(** The closed forms of [truncateText] once the limit bites. *)
Lemma truncateText_cases (text : jsstring) (m : Z) (md : TruncateMode) :
  (0 < m < len text)%Z ->
  truncateText text (Fin m) md =
    match md with
    | ModeEnd => mkText (skipn (length text - Z.to_nat m) text) true
    | ModeMiddle =>
        if (19 <? m)%Z then
          mkText (firstn (Z.to_nat (ceilHalf (m - 19))) text ++ marker
                  ++ skipn (length text - Z.to_nat (floorHalf (m - 19))) text) true
        else mkText (firstn (Z.to_nat m) text) true
    | ModeStart => mkText (firstn (Z.to_nat m) text) true
    end.
Proof.
  intros [Hm Hl]. unfold truncateText.
  destruct (m <=? 0)%Z eqn:E1; [apply Z.leb_le in E1; lia|].
  destruct (len text <=? m)%Z eqn:E2; [apply Z.leb_le in E2; lia|].
  cbn [orb]. destruct md; cbn [isEnd isMiddle andb].
  - now rewrite slice_first by lia.
  - now rewrite slice_last by lia.
  - change (len marker) with 19%Z. cbv zeta.
    destruct (19 <? m)%Z eqn:E3.
    + apply Z.ltb_lt in E3.
      replace (10 <? m)%Z with true by (symmetry; apply Z.ltb_lt; lia).
      replace (0 <? m - 19)%Z with true by (symmetry; apply Z.ltb_lt; lia).
      pose proof (floorHalf_bounds (m - 19)%Z ltac:(lia)) as Hb.
      pose proof (ceilHalf_floorHalf (m - 19)%Z) as Hs.
      unfold len in *.
      rewrite slice_first by lia. rewrite slice_from by lia.
      repeat f_equal. lia.
    + apply Z.ltb_ge in E3.
      replace (0 <? m - 19)%Z with false by (symmetry; apply Z.ltb_ge; lia).
      destruct (10 <? m)%Z; now rewrite slice_first by lia.
Qed.

Lemma truncateLines_pass (lines : list jsstring) (m : Z) (md : TruncateMode) :
  (m <= 0 \/ len lines <= m)%Z ->
  truncateLines lines (Fin m) md = mkLines lines false.
Proof.
  intros H. unfold truncateLines.
  destruct (m <=? 0)%Z eqn:E1; [reflexivity|].
  destruct (len lines <=? m)%Z eqn:E2; [reflexivity|].
  apply Z.leb_gt in E1, E2. lia.
Qed.

Lemma truncateText_pass (text : jsstring) (m : Z) (md : TruncateMode) :
  (m <= 0 \/ len text <= m)%Z ->
  truncateText text (Fin m) md = mkText text false.
Proof.
  intros H. unfold truncateText.
  destruct (m <=? 0)%Z eqn:E1; [reflexivity|].
  destruct (len text <=? m)%Z eqn:E2; [reflexivity|].
  apply Z.leb_gt in E1, E2. lia.
Qed.

Lemma Forall_firstn_skipn {A : Type} (P : A -> Prop) (n : nat) (l : list A) :
  Forall P l -> Forall P (firstn n l) /\ Forall P (skipn n l).
Proof.
  intros H. rewrite <- (firstn_skipn n l) in H. now apply Forall_app in H.
Qed.

(** The line pass under a positive limit: at least one and at most
    [maxLines] lines, still free of line feeds, and the flag tells whether
    the input had more lines than the limit. *)
Lemma truncateLines_spec (lines : list jsstring) (m : Z) (md : TruncateMode) :
  (0 < m)%Z -> lines <> [] -> noLFLines lines ->
  let r := truncateLines lines (Fin m) md in
  (1 <= len (lr_lines r) <= m)%Z /\ noLFLines (lr_lines r)
  /\ lr_truncated r = (m <? len lines)%Z.
Proof.
  intros Hm Hne Hnl r; subst r.
  assert (Hlen : (1 <= len lines)%Z).
  { unfold len. destruct lines; [congruence|cbn [length]; lia]. }
  destruct (Z.le_gt_cases (len lines) m) as [Hle|Hgt].
  - rewrite truncateLines_pass by lia. cbn [lr_lines lr_truncated].
    split; [lia|]. split; [assumption|].
    symmetry. apply Z.ltb_ge. lia.
  - rewrite truncateLines_cases by lia.
    assert (Hflag : true = (m <? len lines)%Z) by (symmetry; apply Z.ltb_lt; lia).
    pose proof (Forall_firstn_skipn (fun l => nlCount l = 0)) as HF.
    unfold len in *.
    destruct md; [| |destruct (1 <? m)%Z eqn:E];
      cbn [lr_lines lr_truncated]; (split; [|split; [|exact Hflag]]).
    + rewrite length_firstn. lia.
    + now apply HF.
    + rewrite length_skipn. lia.
    + now apply HF.
    + apply Z.ltb_lt in E.
      pose proof (floorHalf_bounds (m - 1)%Z ltac:(lia)).
      pose proof (ceilHalf_floorHalf (m - 1)%Z).
      rewrite !length_app, length_firstn, length_skipn. cbn [length]. lia.
    + unfold noLFLines. rewrite !Forall_app. repeat split; try now apply HF.
      constructor; [exact marker_noLF|constructor].
    + rewrite length_firstn. lia.
    + now apply HF.
Qed.

(** The character pass under a positive limit: at most [maxChars]
    characters, no more line feeds than before, and the flag tells whether
    the text was longer than the limit. *)
Lemma truncateText_spec (text : jsstring) (m : Z) (md : TruncateMode) :
  (0 < m)%Z ->
  let r := truncateText text (Fin m) md in
  (len (tr_text r) <= m)%Z /\ nlCount (tr_text r) <= nlCount text
  /\ tr_truncated r = (m <? len text)%Z.
Proof.
  intros Hm r; subst r.
  destruct (Z.le_gt_cases (len text) m) as [Hle|Hgt].
  - rewrite truncateText_pass by lia. cbn [tr_text tr_truncated].
    split; [lia|]. split; [lia|]. symmetry. apply Z.ltb_ge. lia.
  - rewrite truncateText_cases by lia.
    assert (Hflag : true = (m <? len text)%Z) by (symmetry; apply Z.ltb_lt; lia).
    unfold len in *.
    destruct md; [| |destruct (19 <? m)%Z eqn:E];
      cbn [tr_text tr_truncated]; (split; [|split; [|exact Hflag]]).
    + rewrite length_firstn. lia.
    + apply nlCount_firstn.
    + rewrite length_skipn. lia.
    + apply nlCount_skipn.
    + apply Z.ltb_lt in E.
      pose proof (floorHalf_bounds (m - 19)%Z ltac:(lia)).
      pose proof (ceilHalf_floorHalf (m - 19)%Z).
      rewrite !length_app, length_firstn, length_skipn, marker_length. lia.
    + apply Z.ltb_lt in E.
      pose proof (floorHalf_bounds (m - 19)%Z ltac:(lia)).
      pose proof (ceilHalf_floorHalf (m - 19)%Z).
      rewrite !nlCount_app, marker_noLF. cbn [plus].
      apply nlCount_firstn_skipn. lia.
    + rewrite length_firstn. lia.
    + apply nlCount_firstn.
Qed.

(** ** C1 : the budget invariant of [buildPreview] *)

Lemma buildPreview_empty (content : jsstring) (options : PreviewOptions) :
  truthy (normalizeContent content) = false ->
  buildPreview content options = mkPreview [] false 0 0 0 0.
Proof. intros H. unfold buildPreview. now rewrite H. Qed.

Lemma buildPreview_nonempty (content : jsstring) (options : PreviewOptions) :
  truthy (normalizeContent content) = true ->
  buildPreview content options =
    let lineResult := truncateLines (split_nl (normalizeContent content))
                        (maxLines options) (mode options) in
    let charResult := truncateText (lineTruncatedText content options)
                        (maxChars options) (mode options) in
    mkPreview (tr_text charResult)
      (lr_truncated lineResult || tr_truncated charResult)
      (length (split_nl (normalizeContent content)))
      (length (normalizeContent content))
      (if truthy (tr_text charResult)
       then length (split_nl (tr_text charResult)) else 0)
      (length (tr_text charResult)).
Proof. intros H. unfold buildPreview, lineTruncatedText. now rewrite H. Qed.

(** The counts of the preview stay within positive limits. *)
Lemma buildPreview_counts (content : jsstring) (ml mc : Z) (md : TruncateMode) :
  (0 < ml)%Z -> (0 < mc)%Z ->
  let r := buildPreview content (mkOptions (Fin ml) (Fin mc) md) in
  (Z.of_nat (previewChars r) <= mc)%Z /\ (Z.of_nat (previewLines r) <= ml)%Z.
Proof.
  intros Hml Hmc r; subst r.
  destruct (truthy (normalizeContent content)) eqn:Hn.
  - rewrite buildPreview_nonempty by assumption.
    unfold lineTruncatedText. cbn [maxLines maxChars mode].
    cbn zeta. cbn [previewLines previewChars].
    destruct (truncateLines_spec (split_nl (normalizeContent content)) ml md Hml
                (split_nl_not_nil _) (split_nl_lines_noLF _)) as (Hl1 & Hl2 & _).
    cbv zeta in Hl1, Hl2.
    set (lr := truncateLines _ _ _) in *.
    destruct (truncateText_spec (join [LF] (lr_lines lr)) mc md Hmc) as (Ht1 & Ht2 & _).
    cbv zeta in Ht1, Ht2.
    set (tr := truncateText _ _ _) in *.
    rewrite nlCount_join in Ht2 by assumption.
    split; [exact Ht1|].
    destruct (truthy (tr_text tr)); [|lia].
    rewrite split_nl_length. unfold len in *. lia.
  - rewrite buildPreview_empty by assumption.
    cbn [previewLines previewChars]. lia.
Qed.

(** C1.  For every input and every pair of positive integer limits, the
    preview of [buildPreview] has at most [maxChars] characters and at most
    [maxLines] lines, and [truncated] holds exactly when the input has more
    lines than [maxLines] or the text left by the line pass has more than
    [maxChars] characters.  The raw line count is [totalLines]: the number
    of lines of the input once [buildPreview] has trimmed it, and 0 when
    nothing is left. *)
Theorem buildPreview_budget (content : jsstring) (ml mc : Z) (md : TruncateMode) :
  (0 < ml)%Z -> (0 < mc)%Z ->
  let options := mkOptions (Fin ml) (Fin mc) md in
  let r := buildPreview content options in
  (Z.of_nat (previewChars r) <= mc)%Z
  /\ (Z.of_nat (previewLines r) <= ml)%Z
  /\ (truncated r = true <->
      (ml < Z.of_nat (totalLines r))%Z
      \/ (mc < len (lineTruncatedText content options))%Z)
  /\ totalLines r = (if truthy (normalizeContent content)
                     then length (split_nl (normalizeContent content)) else 0)
  /\ previewChars r = length (preview r)
  /\ previewLines r = (if truthy (preview r)
                       then length (split_nl (preview r)) else 0).
Proof.
  intros Hml Hmc options r.
  destruct (buildPreview_counts content ml mc md Hml Hmc) as (Hchars & Hlines).
  cbv zeta in Hchars, Hlines. fold options in Hchars, Hlines. fold r in Hchars, Hlines.
  split; [exact Hchars|]. split; [exact Hlines|]. subst r.
  destruct (truthy (normalizeContent content)) eqn:Hn.
  - rewrite buildPreview_nonempty by assumption.
    unfold lineTruncatedText. cbn [maxLines maxChars mode options].
    cbn zeta. cbn [preview truncated totalLines previewLines previewChars].
    split; [|auto].
    destruct (truncateLines_spec (split_nl (normalizeContent content)) ml md Hml
                (split_nl_not_nil _) (split_nl_lines_noLF _)) as (_ & _ & Hl3).
    cbv zeta in Hl3.
    set (lr := truncateLines _ _ _) in *.
    destruct (truncateText_spec (join [LF] (lr_lines lr)) mc md Hmc) as (_ & _ & Ht3).
    cbv zeta in Ht3.
    rewrite Hl3, Ht3, orb_true_iff, !Z.ltb_lt. unfold len. reflexivity.
  - rewrite buildPreview_empty by assumption.
    cbn [preview truncated totalLines previewLines previewChars length truthy].
    split; [|auto]. split; [discriminate|].
    intros [H|H]; [cbn in H; lia|].
    exfalso. revert H. unfold lineTruncatedText, normalizeContent in *.
    destruct (trim content); [|discriminate].
    cbn [split_nl maxLines mode options].
    rewrite truncateLines_pass by (unfold len; cbn [length]; lia).
    cbn. lia.
Qed.

(** The invariant on an input that both passes shorten. *)
Lemma buildPreview_budget_witness :
  let content := lit "alpha" ++ [LF] ++ lit "beta" ++ [LF] ++ lit "gamma" in
  let options := mkOptions (Fin 2) (Fin 7) ModeStart in
  let r := buildPreview content options in
  preview r = lit "alpha" ++ [LF] ++ lit "b"
  /\ (Z.of_nat (previewChars r) <= 7)%Z
  /\ (Z.of_nat (previewLines r) <= 2)%Z
  /\ (truncated r = true <->
      (2 < Z.of_nat (totalLines r))%Z
      \/ (7 < len (lineTruncatedText content options))%Z).
Proof.
  cbv zeta. split; [reflexivity|].
  destruct (buildPreview_budget
              (lit "alpha" ++ [LF] ++ lit "beta" ++ [LF] ++ lit "gamma") 2 7 ModeStart
              ltac:(lia) ltac:(lia)) as (H1 & H2 & H3 & _).
  auto.
Defined.

(** ** C8 : a limit of zero or less is no limit *)

(** C8.  With [maxLines <= 0] and [maxChars <= 0] the truncation
    primitives return their input unchanged with [truncated = false], in
    every mode: the line pass, the character pass, and the two chained the
    way [buildPreview] chains them (split, line pass, join, character
    pass); [buildPreview] itself then returns its normalised input. *)
Theorem no_limit_is_identity (ml mc : Z) (md : TruncateMode) :
  (ml <= 0)%Z -> (mc <= 0)%Z ->
  (forall lines, truncateLines lines (Fin ml) md = mkLines lines false)
  /\ (forall text, truncateText text (Fin mc) md = mkText text false)
  /\ (forall text,
        let lineResult := truncateLines (split_nl text) (Fin ml) md in
        let charResult := truncateText (join [LF] (lr_lines lineResult)) (Fin mc) md in
        tr_text charResult = text
        /\ lr_truncated lineResult || tr_truncated charResult = false)
  /\ (forall content,
        let r := buildPreview content (mkOptions (Fin ml) (Fin mc) md) in
        preview r = normalizeContent content /\ truncated r = false).
Proof.
  intros Hml Hmc.
  assert (HL : forall lines, truncateLines lines (Fin ml) md = mkLines lines false)
    by (intros; apply truncateLines_pass; lia).
  assert (HT : forall text, truncateText text (Fin mc) md = mkText text false)
    by (intros; apply truncateText_pass; lia).
  split; [exact HL|]. split; [exact HT|]. split.
  - intros text. cbv zeta. rewrite HL. cbn [lr_lines lr_truncated].
    rewrite HT. cbn [tr_text tr_truncated]. now rewrite join_split_nl.
  - intros content. cbv zeta.
    destruct (truthy (normalizeContent content)) eqn:Hn.
    + rewrite buildPreview_nonempty by assumption.
      unfold lineTruncatedText. cbn [maxLines maxChars mode]. cbv zeta.
      cbn [preview truncated]. rewrite HL. cbn [lr_lines lr_truncated].
      rewrite HT. cbn [tr_text tr_truncated]. now rewrite join_split_nl.
    + rewrite buildPreview_empty by assumption. cbn [preview truncated].
      split; [|reflexivity]. destruct (normalizeContent content); [reflexivity|discriminate].
Qed.

(** The pass-through at limits [0] and [-3]. *)
Lemma no_limit_is_identity_witness :
  truncateLines [lit "a"; lit "b"] (Fin 0) ModeMiddle = mkLines [lit "a"; lit "b"] false
  /\ truncateText (lit "some text") (Fin (-3)) ModeMiddle = mkText (lit "some text") false.
Proof.
  destruct (no_limit_is_identity 0 (-3) ModeMiddle ltac:(lia) ltac:(lia))
    as (HL & HT & _).
  split; [apply HL|apply HT].
Defined.

(** ** C9 : the shape of keep-middle truncation *)

Lemma truncateLines_truncated (lines : list jsstring) (m : Z) (md : TruncateMode) :
  lr_truncated (truncateLines lines (Fin m) md) = true -> (0 < m < len lines)%Z.
Proof.
  intros H. destruct (Z.le_gt_cases m 0) as [H0|H0];
    [rewrite truncateLines_pass in H by lia; discriminate|].
  destruct (Z.le_gt_cases (len lines) m) as [H1|H1];
    [rewrite truncateLines_pass in H by lia; discriminate|lia].
Qed.

Lemma truncateText_truncated (text : jsstring) (m : Z) (md : TruncateMode) :
  tr_truncated (truncateText text (Fin m) md) = true -> (0 < m < len text)%Z.
Proof.
  intros H. destruct (Z.le_gt_cases m 0) as [H0|H0];
    [rewrite truncateText_pass in H by lia; discriminate|].
  destruct (Z.le_gt_cases (len text) m) as [H1|H1];
    [rewrite truncateText_pass in H by lia; discriminate|lia].
Qed.

(** C9 as stated fails at line granularity: with [maxLines = 1] the keep
    is [0], so the stated output is the marker line alone, but the guard
    [maxLines > 1] of [truncateLines] sends this case to keep-start and the
    first line is returned, without any marker. *)
Lemma keep_middle_one_line_counterexample :
  let lines := [lit "first"; lit "second"] in
  let keep := (1 - 1)%Z in
  let r := truncateLines lines (Fin 1) ModeMiddle in
  lr_truncated r = true
  /\ lr_lines r = [lit "first"]
  /\ lr_lines r <> firstN (ceilHalf keep) lines ++ [marker] ++ lastN (floorHalf keep) lines.
Proof.
  cbv zeta. split; [reflexivity|]. split; [reflexivity|]. vm_compute. discriminate.
Qed.

(** C9, amended.  Whenever keep-middle truncation shortens its input:
    at line granularity with [maxLines > 1] the output is the first
    [ceil(keep/2)] lines, the marker, and the last [floor(keep/2)] lines for
    [keep = maxLines - 1], while with [maxLines = 1] it is the first line
    alone; at character granularity the output is the first [ceil(keep/2)]
    characters, the marker and the last [floor(keep/2)] characters for
    [keep = maxChars - marker.length], unless [keep <= 0] or
    [maxChars <= 10], where it is the first [maxChars] characters. *)
Theorem keep_middle_shape (lines : list jsstring) (text : jsstring) (ml mc : Z) :
  let lineKeep := (ml - 1)%Z in
  let charKeep := (mc - len marker)%Z in
  (lr_truncated (truncateLines lines (Fin ml) ModeMiddle) = true ->
     ((1 < ml)%Z ->
        lr_lines (truncateLines lines (Fin ml) ModeMiddle) =
          firstN (ceilHalf lineKeep) lines ++ [marker]
          ++ lastN (floorHalf lineKeep) lines)
     /\ (ml = 1%Z ->
        lr_lines (truncateLines lines (Fin ml) ModeMiddle) = firstN 1 lines))
  /\ (tr_truncated (truncateText text (Fin mc) ModeMiddle) = true ->
     ((0 < charKeep)%Z -> (10 < mc)%Z ->
        tr_text (truncateText text (Fin mc) ModeMiddle) =
          firstN (ceilHalf charKeep) text ++ marker
          ++ lastN (floorHalf charKeep) text)
     /\ ((charKeep <= 0)%Z \/ (mc <= 10)%Z ->
        tr_text (truncateText text (Fin mc) ModeMiddle) = firstN mc text)).
Proof.
  cbv zeta. change (len marker) with 19%Z. unfold firstN, lastN. split.
  - intros HL. apply truncateLines_truncated in HL.
    rewrite truncateLines_cases by assumption. split.
    + intros H. apply Z.ltb_lt in H. now rewrite H.
    + intros ->. reflexivity.
  - intros HT. apply truncateText_truncated in HT.
    rewrite truncateText_cases by assumption. split.
    + intros H _.
      replace (19 <? mc)%Z with true by (symmetry; apply Z.ltb_lt; lia).
      reflexivity.
    + intros H.
      replace (19 <? mc)%Z with false by (symmetry; apply Z.ltb_ge; lia).
      reflexivity.
Qed.

(** The amended shape on seven lines cut to four and thirty characters cut
    to twenty-four. *)
Lemma keep_middle_shape_witness :
  let lines := [lit "l1"; lit "l2"; lit "l3"; lit "l4"; lit "l5"; lit "l6"; lit "l7"] in
  let text := lit "abcdefghijklmnopqrstuvwxyz0123" in
  lr_lines (truncateLines lines (Fin 4) ModeMiddle) = [lit "l1"; lit "l2"; marker; lit "l7"]
  /\ tr_text (truncateText text (Fin 24) ModeMiddle) = lit "abc" ++ marker ++ lit "23".
Proof.
  cbv zeta.
  destruct (keep_middle_shape
              [lit "l1"; lit "l2"; lit "l3"; lit "l4"; lit "l5"; lit "l6"; lit "l7"]
              (lit "abcdefghijklmnopqrstuvwxyz0123") 4 24)
    as (HL & HT).
  destruct (HL eq_refl) as (HL1 & _). destruct (HT eq_refl) as (HT1 & _).
  split.
  - rewrite HL1 by lia. reflexivity.
  - rewrite HT1 by (vm_compute; reflexivity). reflexivity.
Defined.

(** ** The scratchpad format *)

Lemma stripPrefix_Some (prefix s rest : jsstring) :
  stripPrefix prefix s = Some rest <-> s = prefix ++ rest.
Proof.
  revert s. induction prefix as [|p prefix IH]; intros s; cbn [stripPrefix app].
  - split; congruence.
  - destruct s as [|c s]; [split; discriminate|].
    destruct (N.eqb_spec p c) as [->|Hne].
    + rewrite IH. split; congruence.
    + split; [discriminate|congruence].
Qed.

Lemma stripPrefix_app (prefix rest : jsstring) :
  stripPrefix prefix (prefix ++ rest) = Some rest.
Proof. now apply stripPrefix_Some. Qed.

(** What the item pattern accepts. *)
Lemma matchItem_Some (line : jsstring) (c : jschar) (t : jsstring) :
  matchItem line = Some (c, t) <->
  line = checkboxLine c t /\ isCheckboxChar c = true
  /\ t <> [] /\ noLineTerminator t = true.
Proof.
  unfold checkboxLine, matchItem. split.
  - destruct (stripPrefix (lit "- [") line) as [[|c' afterBox]|] eqn:E1; try discriminate.
    destruct (isCheckboxChar c') eqn:Ec; [|discriminate].
    destruct (stripPrefix (lit "] ") afterBox) as [rest|] eqn:E2; [|discriminate].
    destruct (truthy rest) eqn:Et; [|discriminate].
    destruct (noLineTerminator rest) eqn:En; [|discriminate].
    cbn [andb]. intros H; injection H as <- <-.
    apply stripPrefix_Some in E1, E2. subst.
    repeat split; try assumption. destruct rest; [discriminate|congruence].
  - intros (-> & Hc & Ht & Hn). rewrite stripPrefix_app. cbn [app].
    rewrite Hc, stripPrefix_app, Hn.
    destruct t; [congruence|reflexivity].
Qed.

Lemma matchItem_checkboxLine (c : jschar) (t : jsstring) :
  isCheckboxChar c = true -> t <> [] -> noLineTerminator t = true ->
  matchItem (checkboxLine c t) = Some (c, t).
Proof. intros. apply matchItem_Some. auto. Qed.

Lemma matchItem_first_char (line : jsstring) (c : jschar) (t : jsstring) :
  matchItem line = Some (c, t) -> exists rest, line = 45%N :: rest.
Proof.
  intros H. apply matchItem_Some in H. destruct H as (-> & _).
  now eexists.
Qed.

Lemma endsWith_iff (suffix s : jsstring) :
  endsWith suffix s = true <-> exists body, s = body ++ suffix.
Proof.
  unfold endsWith. split.
  - destruct (stripPrefix (rev suffix) (rev s)) as [r|] eqn:E; [|discriminate].
    intros _. apply stripPrefix_Some in E. exists (rev r).
    rewrite <- (rev_involutive s), E, rev_app_distr, rev_involutive. reflexivity.
  - intros [body ->]. rewrite rev_app_distr, stripPrefix_app. reflexivity.
Qed.

Lemma noLineTerminator_app (a b : jsstring) :
  noLineTerminator (a ++ b) = noLineTerminator a && noLineTerminator b.
Proof. unfold noLineTerminator. apply forallb_app. Qed.

(** What the comment pattern accepts. *)
Lemma matchComment_iff (line : jsstring) :
  matchComment line = true <-> isCommentLine line.
Proof.
  unfold isCommentLine, matchComment. split.
  - destruct (stripPrefix (lit "<!--") line) as [rest|] eqn:E; [|discriminate].
    apply stripPrefix_Some in E. subst line.
    intros H. apply andb_true_iff in H. destruct H as [He Hn].
    apply endsWith_iff in He. destruct He as [body ->].
    exists body. split; [reflexivity|].
    rewrite noLineTerminator_app in Hn. now apply andb_true_iff in Hn.
  - intros (body & -> & Hn). rewrite stripPrefix_app.
    apply andb_true_iff. split.
    + apply endsWith_iff. now exists body.
    + rewrite noLineTerminator_app, Hn. reflexivity.
Qed.

Lemma matchComment_first_char (line : jsstring) :
  matchComment line = true -> exists rest, line = 60%N :: rest.
Proof.
  intros H. apply matchComment_iff in H. destruct H as (body & -> & _).
  now eexists.
Qed.

Lemma matchComment_not_item (line : jsstring) :
  matchComment line = true -> matchItem line = None.
Proof.
  intros H. apply matchComment_first_char in H. destruct H as [rest ->].
  reflexivity.
Qed.

Lemma matchItem_not_comment (line : jsstring) (c : jschar) (t : jsstring) :
  matchItem line = Some (c, t) -> matchComment line = false.
Proof.
  intros H. apply matchItem_first_char in H. destruct H as [rest ->].
  reflexivity.
Qed.

Lemma noLineTerminator_noLF (s : jsstring) :
  noLineTerminator s = true -> nlCount s = 0.
Proof.
  induction s as [|c s IH]; [reflexivity|].
  cbn [noLineTerminator forallb nlCount]. intros H.
  apply andb_true_iff in H. destruct H as [Hc Hs].
  rewrite (IH Hs). unfold isLineTerminator in Hc.
  change LF with 10%N. destruct (c =? 10)%N; [discriminate|reflexivity].
Qed.

(** Every parsed item comes from a line the item pattern accepted. *)
Lemma parseLines_In (it : ScratchpadItem) (lines : list jsstring) :
  forall prev, In it (parseLines prev lines) ->
  exists line c, In line lines /\ matchItem line = Some (c, text it)
                 /\ done it = isChecked c.
Proof.
  induction lines as [|line rest IH]; intros prev H; [destruct H|].
  cbn [parseLines] in H.
  destruct (matchItem line) as [[c t]|] eqn:E.
  - destruct H as [<-|H].
    + exists line, c. cbn [text done]. auto using in_eq.
    + destruct (IH _ H) as (l & c' & Hin & Hm). exists l, c'. auto using in_cons.
  - destruct (IH _ H) as (l & c' & Hin & Hm). exists l, c'. auto using in_cons.
Qed.

(** A line the item pattern refuses adds nothing, wherever it stands. *)
Lemma parseLines_skip (prev : option jsstring) (line : jsstring) (rest : list jsstring) :
  matchItem line = None ->
  parseLines prev (line :: rest) = parseLines (Some line) rest.
Proof. intros H. cbn [parseLines]. now rewrite H. Qed.

(** ** C10 : an item needs a non-empty text *)

(** C10.  [parseScratchpad] yields an item only for a line that has at
    least one character after the space that follows the checkbox: every
    parsed item has a non-empty text and stems from the line
    [- [c] text]; a line that is exactly [- [ ] ], [- [x] ] or [- [X] ]
    yields no item, alone or among other lines; hence no content parses to
    a list holding an item with an empty text. *)
Theorem parseScratchpad_needs_text :
  (forall content it, In it (parseScratchpad content) ->
     text it <> []
     /\ exists c, isCheckboxChar c = true
                  /\ In (checkboxLine c (text it)) (split_nl content))
  /\ (forall c prev rest,
        parseLines prev (checkboxLine c [] :: rest)
        = parseLines (Some (checkboxLine c [])) rest)
  /\ parseScratchpad (lit "- [ ] ") = []
  /\ parseScratchpad (lit "- [x] ") = []
  /\ parseScratchpad (lit "- [X] ") = []
  /\ (forall content items, parseScratchpad content = items ->
        Forall (fun it => text it <> []) items).
Proof.
  assert (H1 : forall content it, In it (parseScratchpad content) ->
     text it <> []
     /\ exists c, isCheckboxChar c = true
                  /\ In (checkboxLine c (text it)) (split_nl content)).
  { intros content it H. apply parseLines_In in H.
    destruct H as (line & c & Hin & Hm & _).
    apply matchItem_Some in Hm. destruct Hm as (-> & Hc & Ht & _).
    split; [assumption|]. now exists c. }
  split; [exact H1|]. split.
  - intros c prev rest. apply parseLines_skip.
    destruct (matchItem (checkboxLine c [])) as [[c' t]|] eqn:E; [|reflexivity].
    apply matchItem_Some in E. destruct E as (E & _ & Ht & _).
    unfold checkboxLine in E. cbn [app lit] in E.
    exfalso. apply Ht.
    change (lit "- [") with [45; 32; 91]%N in E.
    change (lit "] ") with [93; 32]%N in E. cbn [app] in E.
    injection E as _ E. now destruct t.
  - repeat split; try reflexivity.
    intros content items <-. apply Forall_forall. intros it H.
    now apply (H1 content it).
Qed.

(** An item parsed from a one-line scratchpad: its text is not empty. *)
Lemma parseScratchpad_needs_text_witness :
  text (mkItem false (lit "Fix bug") []) <> []
  /\ parseLines None [checkboxLine 120%N []; lit "- [ ] Fix bug"]
     = [mkItem false (lit "Fix bug") []].
Proof.
  destruct parseScratchpad_needs_text as (H1 & H2 & _).
  split.
  - apply (H1 (lit "- [ ] Fix bug") (mkItem false (lit "Fix bug") [])).
    left. reflexivity.
  - rewrite H2. reflexivity.
Defined.

(** ** C3 : the round trip through the scratchpad format *)

(** C3 as stated fails: an item whose text is empty has a text without
    newline and an empty meta, yet its line [- [ ] ] is not an item for the
    parser, so the round trip loses it. *)
Lemma roundtrip_empty_text_counterexample :
  let items := [mkItem false [] []] in
  Forall (fun it => nlCount (text it) = 0
                    /\ (meta it = [] \/ isCommentLine (meta it))) items
  /\ parseScratchpad (serializeScratchpad items) = []
  /\ parseScratchpad (serializeScratchpad items) <> items.
Proof.
  cbv zeta. split; [|split].
  - constructor; [|constructor]. cbn. auto.
  - reflexivity.
  - vm_compute. discriminate.
Qed.

(** A text with a carriage return (a line terminator that is no line
    feed) is lost the same way. *)
Lemma roundtrip_carriage_return_lost :
  parseScratchpad (serializeScratchpad [mkItem false (lit "a" ++ [CR] ++ lit "b") []]) = [].
Proof. reflexivity. Qed.

Lemma checkbox_of_item (it : ScratchpadItem) :
  lit "- " ++ (if done it then lit "[x]" else lit "[ ]") ++ lit " " ++ text it
  = checkboxLine (if done it then 120%N else 32%N) (text it).
Proof. unfold checkboxLine. destruct (done it); reflexivity. Qed.

Lemma itemLines_noLF (it : ScratchpadItem) :
  representable it -> noLFLines (itemLines it).
Proof.
  intros (Ht & Hn & Hm). unfold itemLines, noLFLines.
  apply Forall_app. split.
  - destruct (truthy (meta it)) eqn:E; [|constructor].
    constructor; [|constructor].
    destruct Hm as [Hm|Hm]; [rewrite Hm in E; discriminate|].
    destruct Hm as (body & -> & Hb).
    rewrite !nlCount_app, (noLineTerminator_noLF _ Hb). reflexivity.
  - constructor; [|constructor]. rewrite checkbox_of_item. unfold checkboxLine.
    rewrite !nlCount_app, (noLineTerminator_noLF _ Hn). destruct (done it); reflexivity.
Qed.

Lemma join_snoc (sep last : jsstring) (parts : list jsstring) :
  parts <> [] -> join sep (parts ++ [last]) = join sep parts ++ sep ++ last.
Proof.
  induction parts as [|p ps IH]; [congruence|]. intros _.
  destruct ps as [|p' ps]; [reflexivity|].
  cbn [app]. rewrite join_cons by (destruct ps; discriminate).
  rewrite (join_cons sep p) by discriminate.
  cbn [app] in IH. rewrite IH by discriminate. now rewrite !app_assoc.
Qed.

(** The lines [parseScratchpad] sees in a serialized scratchpad. *)
Lemma split_nl_serialize (items : list ScratchpadItem) :
  Forall representable items ->
  split_nl (serializeScratchpad items)
  = [lit "# Scratchpad"; []] ++ flat_map itemLines items ++ [[]].
Proof.
  intros H. unfold serializeScratchpad. cbv zeta.
  rewrite <- (app_nil_r [LF]). rewrite <- join_snoc by discriminate.
  rewrite <- app_assoc. apply split_nl_join; [discriminate|].
  unfold noLFLines. repeat (apply Forall_app; split).
  - repeat constructor.
  - induction H as [|it its Hit _ IH]; [constructor|].
    cbn [flat_map]. apply Forall_app. split; [now apply itemLines_noLF|exact IH].
  - repeat constructor.
Qed.

(** One representable item, seen after a line [prev]: its lines parse back
    to the item and leave its checkbox line as the previous line. *)
Lemma parseLines_item (it : ScratchpadItem) (prev : jsstring) (rest : list jsstring) :
  representable it -> matchComment prev = false ->
  exists box, matchComment box = false
    /\ parseLines (Some prev) (itemLines it ++ rest)
       = it :: parseLines (Some box) rest.
Proof.
  intros (Ht & Hn & Hm) Hprev. destruct it as [d t m]. cbn [done text meta] in *.
  exists (checkboxLine (if d then 120%N else 32%N) t).
  assert (Hbox : matchItem (checkboxLine (if d then 120%N else 32%N) t)
                 = Some (if d then 120%N else 32%N, t)).
  { apply matchItem_checkboxLine; try assumption. now destruct d. }
  split; [eapply matchItem_not_comment; eassumption|].
  unfold itemLines. cbn [done text meta].
  destruct (truthy m) eqn:E.
  - destruct Hm as [Hm|Hm]; [rewrite Hm in E; discriminate|].
    apply matchComment_iff in Hm.
    cbn [app]. rewrite parseLines_skip by now apply matchComment_not_item.
    destruct d; cbn [parseLines];
      [change (lit "- " ++ lit "[x]" ++ lit " " ++ t) with (checkboxLine 120%N t)
      |change (lit "- " ++ lit "[ ]" ++ lit " " ++ t) with (checkboxLine 32%N t)];
      rewrite Hbox; cbv beta iota zeta; rewrite Hm; reflexivity.
  - assert (Hmeta : m = []) by (destruct m; [reflexivity|discriminate]).
    subst m. cbn [app].
    destruct d; cbn [parseLines];
      [change (lit "- " ++ lit "[x]" ++ lit " " ++ t) with (checkboxLine 120%N t)
      |change (lit "- " ++ lit "[ ]" ++ lit " " ++ t) with (checkboxLine 32%N t)];
      rewrite Hbox; cbv beta iota zeta; rewrite Hprev; reflexivity.
Qed.

Lemma parseLines_items (items : list ScratchpadItem) :
  Forall representable items ->
  forall prev, matchComment prev = false ->
  parseLines (Some prev) (flat_map itemLines items ++ [[]]) = items.
Proof.
  induction 1 as [|it its Hit _ IH]; intros prev Hprev; [reflexivity|].
  cbn [flat_map]. rewrite <- app_assoc.
  destruct (parseLines_item it prev (flat_map itemLines its ++ [[]]) Hit Hprev)
    as (box & Hbox & ->).
  now rewrite IH.
Qed.

(** C3, amended.  For every list of items whose texts are non-empty and
    contain no line terminator (line feed, carriage return, U+2028,
    U+2029) and whose metas are empty or whole-line comments
    ([<!--], a body without line terminator, [-->]),
    [parseScratchpad (serializeScratchpad items)] is [items]: same length,
    same order, same fields. *)
Theorem scratchpad_roundtrip (items : list ScratchpadItem) :
  Forall representable items ->
  parseScratchpad (serializeScratchpad items) = items.
Proof.
  intros H. unfold parseScratchpad. rewrite split_nl_serialize by assumption.
  cbn [app]. rewrite !parseLines_skip by reflexivity.
  now apply parseLines_items.
Qed.

(** The round trip on the list of the repository's own round-trip test. *)
Lemma scratchpad_roundtrip_witness :
  let items :=
    [mkItem false (lit "Open task") (lit "<!-- ts [sid] -->");
     mkItem true (lit "Done task") (lit "<!-- ts2 [sid2] -->");
     mkItem false (lit "Another open") []] in
  Forall representable items
  /\ parseScratchpad (serializeScratchpad items) = items.
Proof.
  cbv zeta.
  assert (H : Forall representable
            [mkItem false (lit "Open task") (lit "<!-- ts [sid] -->");
             mkItem true (lit "Done task") (lit "<!-- ts2 [sid2] -->");
             mkItem false (lit "Another open") []]).
  { repeat apply Forall_cons; try apply Forall_nil;
      (split; [discriminate|split; [reflexivity|]]).
    - right. apply matchComment_iff. reflexivity.
    - right. apply matchComment_iff. reflexivity.
    - now left. }
  split; [exact H|]. exact (scratchpad_roundtrip _ H).
Defined.

(** ** Trimming *)

Lemma trimStart_suffix (s : jsstring) : exists w, s = w ++ trimStart s.
Proof.
  induction s as [|c s [w IH]]; [now exists []|].
  cbn [trimStart]. destruct (isWhiteSpace c).
  - exists (c :: w). cbn [app]. now rewrite <- IH.
  - now exists [].
Qed.

Lemma trimEnd_prefix (s : jsstring) : isPrefix (trimEnd s) s.
Proof.
  unfold trimEnd, isPrefix. rewrite <- !rev_alt.
  destruct (trimStart_suffix (rev s)) as [w E].
  exists (rev w). rewrite <- rev_app_distr, <- E. now rewrite rev_involutive.
Qed.

Lemma trim_length (s : jsstring) : length (trim s) <= length s.
Proof.
  unfold trim. destruct (trimEnd_prefix (trimStart s)) as [w E].
  destruct (trimStart_suffix s) as [v E'].
  rewrite E' at 2. rewrite length_app. rewrite E at 2. rewrite length_app. lia.
Qed.

(** A string that starts with a character that is no white space keeps
    its start under [trim]. *)
Lemma trim_prefix (c : jschar) (s : jsstring) :
  isWhiteSpace c = false -> isPrefix (trim (c :: s)) (c :: s).
Proof.
  intros H. unfold trim. cbn [trimStart]. rewrite H. apply trimEnd_prefix.
Qed.

Lemma trim_nonempty (c : jschar) (s : jsstring) :
  isWhiteSpace c = false -> truthy (trim (c :: s)) = true.
Proof.
  intros H. unfold trim. cbn [trimStart]. rewrite H.
  unfold trimEnd. rewrite <- !rev_alt. cbn [rev].
  destruct (trimStart (rev s ++ [c])) as [|d r] eqn:E.
  - exfalso. clear -E H. induction (rev s) as [|x xs IH].
    + cbn in E. rewrite H in E. discriminate.
    + cbn [app trimStart] in E. destruct (isWhiteSpace x); [auto|discriminate].
  - cbn [rev]. destruct (rev r); reflexivity.
Qed.

(** ** The preview of any section *)

(** The character budget holds for every line limit, the unbounded one
    included. *)
Lemma buildPreview_chars (content : jsstring) (ml : jsnum) (mc : Z) (md : TruncateMode) :
  (0 < mc)%Z ->
  let r := buildPreview content (mkOptions ml (Fin mc) md) in
  (len (preview r) <= mc)%Z /\ previewChars r = length (preview r)
  /\ totalChars r = length (normalizeContent content).
Proof.
  intros Hmc r; subst r.
  destruct (truthy (normalizeContent content)) eqn:Hn.
  - rewrite buildPreview_nonempty by assumption. cbv zeta.
    cbn [preview previewChars totalChars maxChars maxLines mode].
    destruct (truncateText_spec (lineTruncatedText content (mkOptions ml (Fin mc) md))
                mc md Hmc) as (H1 & _).
    cbv zeta in H1. auto.
  - rewrite buildPreview_empty by assumption.
    cbn [preview previewChars totalChars length]. unfold len. cbn [length].
    split; [lia|]. split; [reflexivity|].
    destruct (normalizeContent content); [reflexivity|discriminate].
Qed.

(** ** The overall pass of [buildMemoryContext] *)

(** The three ways [buildMemoryContext] ends: nothing, the assembled
    context when it fits, or the overall preview with its note. *)
Lemma buildMemoryContext_cases (st : MemoryStore) (searchResults : option jsstring) :
  let sections := contextSections st searchResults in
  let context := assembleContext sections in
  let r := buildPreview context overallOptions in
  (sections = [] /\ buildMemoryContext st searchResults = [])
  \/ (sections <> [] /\ (len context <= CONTEXT_MAX_CHARS)%Z
      /\ buildMemoryContext st searchResults = context)
  \/ (sections <> [] /\ (CONTEXT_MAX_CHARS < len context)%Z
      /\ buildMemoryContext st searchResults
         = preview r ++ (if truncated r then overallNote r else [])).
Proof.
  cbv zeta. unfold buildMemoryContext.
  destruct (contextSections st searchResults) as [|s ss] eqn:E.
  - left. split; reflexivity.
  - right. cbn [length Nat.eqb].
    destruct (CONTEXT_MAX_CHARS <? len (assembleContext (s :: ss)))%Z eqn:L.
    + right. apply Z.ltb_lt in L. repeat split; [discriminate|assumption].
    + left. apply Z.ltb_ge in L. repeat split; [discriminate|assumption].
Qed.

(** ** Decimal printing *)

Lemma decimalValue_snoc (s : jsstring) (c : jschar) :
  decimalValue (s ++ [c]) = (decimalValue s * 10 + (c - 48))%N.
Proof. unfold decimalValue. now rewrite fold_left_app. Qed.

Lemma decimalDigits_value (fuel : nat) :
  forall n, (N.to_nat (N.log2 n) < fuel)%nat ->
  decimalValue (decimalDigits fuel n) = n.
Proof.
  induction fuel as [|fuel IH]; intros n Hf; [lia|].
  cbn [decimalDigits]. destruct (N.ltb_spec n 10) as [Hn|Hn].
  - unfold decimalValue. cbn [fold_left].
    now rewrite N.mul_0_l, N.add_0_l, N.add_comm, N.add_sub.
  - rewrite decimalValue_snoc, IH.
    + rewrite (N.add_comm 48), N.add_sub, N.mul_comm.
      symmetry. apply N.div_mod. lia.
    + assert (Hq : (0 < n / 10)%N) by (apply N.div_str_pos; lia).
      pose proof (N.log2_double (n / 10) Hq) as Hd.
      assert (Hle : (2 * (n / 10) <= n)%N).
      { pose proof (N.Div0.mul_div_le n 10). lia. }
      apply N.log2_le_mono in Hle. lia.
Qed.

(** [numberToString] prints the number: reading the digits back gives it. *)
Lemma numberToString_value (n : nat) :
  decimalValue (numberToString n) = N.of_nat n.
Proof. unfold numberToString. apply decimalDigits_value. lia. Qed.

Lemma decimalDigits_digits (fuel : nat) :
  forall n, Forall (fun c => isDigit c = true) (decimalDigits fuel n).
Proof.
  induction fuel as [|fuel IH]; intros n; [constructor|].
  cbn [decimalDigits]. destruct (N.ltb_spec n 10) as [Hn|Hn].
  - constructor; [|constructor]. unfold isDigit.
    apply andb_true_iff. split; apply N.leb_le; lia.
  - apply Forall_app. split; [apply IH|].
    constructor; [|constructor]. unfold isDigit.
    assert (Hd : (n mod 10 < 10)%N) by (apply N.mod_lt; discriminate).
    revert Hd. generalize (n mod 10)%N. intros d Hd.
    apply andb_true_iff. split; apply N.leb_le; lia.
Qed.

Lemma digits_noLF (s : jsstring) :
  Forall (fun c => isDigit c = true) s -> nlCount s = 0.
Proof.
  induction 1 as [|c s Hc _ IH]; [reflexivity|].
  cbn [nlCount]. rewrite IH. unfold isDigit in Hc.
  apply andb_true_iff in Hc. destruct Hc as [Hc _]. apply N.leb_le in Hc.
  destruct (N.eqb_spec c LF) as [->|]; [|reflexivity].
  unfold LF in Hc. lia.
Qed.

Lemma numberToString_noLF (n : nat) : nlCount (numberToString n) = 0.
Proof. apply digits_noLF, decimalDigits_digits. Qed.

Lemma decimalDigits_length (fuel : nat) :
  forall n k, (n < 10 ^ N.of_nat k)%N -> 1 <= k ->
  length (decimalDigits fuel n) <= k.
Proof.
  induction fuel as [|fuel IH]; intros n k Hn Hk; [cbn [decimalDigits length]; lia|].
  cbn [decimalDigits]. destruct (N.ltb_spec n 10) as [H|H]; [cbn [length]; lia|].
  rewrite length_app. cbn [length].
  destruct k as [|[|k]]; [lia|cbn in Hn; lia|].
  assert (length (decimalDigits fuel (n / 10)) <= S k); [|lia].
  apply IH; [|lia].
  apply N.Div0.div_lt_upper_bound.
  replace (N.of_nat (S (S k))) with (N.succ (N.of_nat (S k))) in Hn by lia.
  now rewrite N.pow_succ_r' in Hn.
Qed.

(** A count below [10 ^ k] prints in at most [k] digits. *)
Lemma numberToString_length (n k : nat) :
  (Z.of_nat n < 10 ^ Z.of_nat k)%Z -> 1 <= k ->
  length (numberToString n) <= k.
Proof.
  intros Hn Hk. unfold numberToString. apply decimalDigits_length; [|assumption].
  apply N2Z.inj_lt. rewrite N2Z.inj_pow, !nat_N_Z. exact Hn.
Qed.

(** ** The size of a section *)

Lemma buildPreview_totals (content : jsstring) (options : PreviewOptions) :
  let r := buildPreview content options in
  totalChars r <= length content /\ totalLines r <= S (length content).
Proof.
  cbv zeta. pose proof (trim_length content) as Ht.
  destruct (truthy (normalizeContent content)) eqn:Hn.
  - rewrite buildPreview_nonempty by assumption. cbv zeta.
    cbn [totalChars totalLines]. unfold normalizeContent. split; [exact Ht|].
    rewrite split_nl_length.
    assert (nlCount (trim content) <= length (trim content)); [|lia].
    generalize (trim content). intros s. induction s as [|c s IH]; [reflexivity|].
    cbn [nlCount length]. destruct (c =? LF)%N; lia.
  - rewrite buildPreview_empty by assumption. cbn [totalChars totalLines]. lia.
Qed.

Lemma sectionNote_length (r : PreviewResult) :
  length (sectionNote r)
  = 39 + length (numberToString (previewLines r))
    + length (numberToString (totalLines r))
    + length (numberToString (previewChars r))
    + length (numberToString (totalChars r)).
Proof.
  unfold sectionNote. rewrite !length_app. cbn [length].
  change (length (lit "[truncated: showing ")) with 20.
  change (length (lit "/")) with 1.
  change (length (lit " lines, ")) with 8.
  change (length (lit " chars]")) with 7. lia.
Qed.

(** A section is its label, a blank line, at most [maxChars] characters
    of preview and a note of at most 78 characters, when the limits have at
    most three and four digits and the content is of a size the language
    can hold (a little more is allowed, for re-serialized content). *)
Lemma formatContextSection_length (label content : jsstring) (md : TruncateMode)
    (ml mc : Z) :
  (0 < ml < 1000)%Z -> (0 < mc < 10000)%Z ->
  (len content <= JS_MAX_LENGTH + 15)%Z ->
  (len (formatContextSection label content md ml mc) <= len label + 2 + mc + 78)%Z.
Proof.
  intros Hml Hmc Hsz. unfold formatContextSection. cbv zeta.
  set (r := buildPreview content _).
  destruct (truthy (preview r)); cbn [negb]; [|unfold len; cbn [length]; lia].
  destruct (buildPreview_counts content ml mc md ltac:(lia) ltac:(lia)) as (Hc & Hl).
  destruct (buildPreview_totals content (mkOptions (Fin ml) (Fin mc) md)) as (Htc & Htl).
  cbv zeta in Hc, Hl, Htc, Htl. fold r in Hc, Hl, Htc, Htl.
  destruct (buildPreview_chars content (Fin ml) mc md ltac:(lia)) as (Hp & _).
  cbv zeta in Hp. fold r in Hp.
  unfold len in *. rewrite !length_app. cbn [length].
  unfold JS_MAX_LENGTH in Hsz.
  assert (Hnote : length (sectionNote r) <= 78).
  { rewrite sectionNote_length.
    pose proof (numberToString_length (previewLines r) 3 ltac:(cbn; lia) ltac:(lia)).
    pose proof (numberToString_length (totalLines r) 16 ltac:(cbn; lia) ltac:(lia)).
    pose proof (numberToString_length (previewChars r) 4 ltac:(cbn; lia) ltac:(lia)).
    pose proof (numberToString_length (totalChars r) 16 ltac:(cbn; lia) ltac:(lia)).
    lia. }
  destruct (truncated r); cbn [length]; lia.
Qed.

(** ** The size of the re-serialized scratchpad *)

Lemma lineCost_app (a b : list jsstring) : lineCost (a ++ b) = lineCost a + lineCost b.
Proof. induction a as [|l a IH]; [reflexivity|]. cbn [app lineCost]. lia. Qed.

Lemma lineCost_join (lines : list jsstring) :
  lines <> [] -> S (length (join [LF] lines)) = lineCost lines.
Proof.
  induction lines as [|l ls IH]; [congruence|]. intros _.
  destruct ls as [|l' ls]; [cbn; lia|].
  rewrite join_cons by discriminate. rewrite !length_app.
  cbn [lineCost length] in *. specialize (IH ltac:(discriminate)). lia.
Qed.

Lemma lineCost_split (s : jsstring) : lineCost (split_nl s) = S (length s).
Proof.
  rewrite <- lineCost_join by apply split_nl_not_nil. now rewrite join_split_nl.
Qed.

Lemma serializeScratchpad_length (items : list ScratchpadItem) :
  length (serializeScratchpad items) = 14 + lineCost (flat_map itemLines items).
Proof.
  unfold serializeScratchpad. cbv zeta. rewrite length_app. cbn [length].
  pose proof (lineCost_join ([lit "# Scratchpad"; []] ++ flat_map itemLines items)
                ltac:(discriminate)) as H.
  rewrite lineCost_app in H. cbn [lineCost] in H.
  change (length (lit "# Scratchpad")) with 12 in H. cbn [length] in H. lia.
Qed.

Lemma parseLines_cost (lines : list jsstring) :
  forall prev,
  lineCost (flat_map itemLines (parseLines prev lines))
  <= metaCredit prev + lineCost lines.
Proof.
  induction lines as [|line rest IH]; intros prev; [cbn; lia|].
  cbn [parseLines lineCost]. specialize (IH (Some line)).
  destruct (matchItem line) as [[c t]|] eqn:E.
  - pose proof (matchItem_not_comment _ _ _ E) as Hc.
    cbn [metaCredit] in IH. rewrite Hc in IH.
    apply matchItem_Some in E. destruct E as (-> & Hbox & _).
    cbn [flat_map]. rewrite lineCost_app.
    assert (lineCost (itemLines (mkItem (isChecked c) t
              match prev with
              | Some p => if matchComment p then p else []
              | None => []
              end))
            <= metaCredit prev + S (length (checkboxLine c t))); [|lia].
    unfold itemLines. cbn [done text meta]. rewrite lineCost_app.
    assert (Hb : lineCost [lit "- " ++ (if isChecked c then lit "[x]" else lit "[ ]")
                           ++ lit " " ++ t]
                 = S (length (checkboxLine c t))).
    { unfold checkboxLine. cbn [lineCost]. rewrite !length_app.
      destruct (isChecked c); cbn [length]; reflexivity || (cbn; lia). }
    rewrite Hb.
    destruct prev as [p|]; cbn [metaCredit]; [|cbn; lia].
    destruct (matchComment p); [|cbn; lia].
    destruct (truthy p); cbn [lineCost]; lia.
  - cbn [metaCredit] in IH. destruct (matchComment line); lia.
Qed.

Lemma lineCost_filter (f : ScratchpadItem -> bool) (items : list ScratchpadItem) :
  lineCost (flat_map itemLines (filter f items))
  <= lineCost (flat_map itemLines items).
Proof.
  induction items as [|it its IH]; [reflexivity|].
  cbn [filter flat_map]. rewrite lineCost_app.
  destruct (f it); [cbn [flat_map]; rewrite lineCost_app|]; lia.
Qed.

(** Re-serializing the open items of a scratchpad adds at most the title
    line and the final line feed to the size of the file. *)
Lemma reserialized_length (content : jsstring) :
  length (serializeScratchpad (filter isOpen (parseScratchpad content)))
  <= length content + 15.
Proof.
  rewrite serializeScratchpad_length.
  pose proof (lineCost_filter isOpen (parseScratchpad content)).
  pose proof (parseLines_cost (split_nl content) None) as H1.
  fold (parseScratchpad content) in H1.
  rewrite lineCost_split in H1. cbn [metaCredit] in H1. lia.
Qed.

(** ** The assembled context fits under the overall cap *)

Lemma totalLength_app (a b : list jsstring) :
  totalLength (a ++ b) = totalLength a + totalLength b.
Proof. induction a as [|p a IH]; [reflexivity|]. cbn [app totalLength]. lia. Qed.

Lemma join_length (sep : jsstring) (parts : list jsstring) :
  length (join sep parts) = totalLength parts + length sep * pred (length parts).
Proof.
  induction parts as [|p ps IH]; [cbn; lia|].
  destruct ps as [|p' ps]; [cbn; lia|].
  rewrite join_cons by discriminate. rewrite !length_app, IH.
  cbn [totalLength length pred]. lia.
Qed.

Lemma pushSection_bound (section : jsstring) (bound : Z) :
  (0 <= bound)%Z -> (len section <= bound)%Z ->
  (Z.of_nat (totalLength (pushSection section)) <= bound)%Z
  /\ length (pushSection section) <= 1.
Proof.
  intros H0 H. unfold pushSection, len in *.
  destruct (truthy section); cbn [totalLength length]; lia.
Qed.

Lemma scratchpadSections_bound (scratchpad : option jsstring) :
  optSized scratchpad ->
  (Z.of_nat (totalLength (scratchpadSections scratchpad)) <= 2114)%Z
  /\ length (scratchpadSections scratchpad) <= 1.
Proof.
  intros Hs. unfold scratchpadSections.
  destruct (trimmedTruthy scratchpad); [|cbn; lia].
  destruct (0 <? _)%nat; [|cbn; lia].
  apply pushSection_bound; [lia|]. etransitivity.
  - apply formatContextSection_length; [split; reflexivity ..|].
    pose proof (reserialized_length (optString scratchpad)) as H.
    destruct scratchpad as [s|]; cbn [optString optSized] in *;
      unfold jsSized, len, JS_MAX_LENGTH in *; cbn [length] in *; lia.
  - change (len SCRATCHPAD_LABEL) with 34%Z. unfold CONTEXT_SCRATCHPAD_MAX_CHARS. lia.
Qed.

Lemma sized_content (s : option jsstring) :
  optSized s -> (len (optString s) <= JS_MAX_LENGTH + 15)%Z.
Proof.
  destruct s as [s|]; cbn [optString optSized]; unfold jsSized, len, JS_MAX_LENGTH.
  - lia.
  - intros _. cbn [length]. lia.
Qed.

(** [s.slice(0, 10)] has at most ten characters. *)
Lemma date_length (iso : jsstring) : length (slice iso 0 (Some 10%Z)) <= 10.
Proof.
  rewrite slice_first by lia. rewrite length_firstn. lia.
Qed.

Lemma todaySections_bound (st : MemoryStore) :
  optSized (todayFile st) ->
  (Z.of_nat (totalLength (todaySections st)) <= 3112)%Z
  /\ length (todaySections st) <= 1.
Proof.
  intros Hs. pose proof (date_length (todayISO st)) as Hd.
  fold (todayStr st) in Hd. unfold todaySections.
  destruct (trimmedTruthy (todayFile st)); [|cbn; lia].
  apply pushSection_bound; [lia|]. etransitivity.
  - apply formatContextSection_length; [split; reflexivity ..|].
    now apply sized_content.
  - unfold todayLabel, len. rewrite !length_app.
    change (length (lit "## Daily log: ")) with 14.
    change (length (lit " (today)")) with 8.
    unfold CONTEXT_DAILY_MAX_CHARS. lia.
Qed.

Lemma searchSections_bound (searchResults : option jsstring) :
  optSized searchResults ->
  (Z.of_nat (totalLength (searchSections searchResults)) <= 2617)%Z
  /\ length (searchSections searchResults) <= 1.
Proof.
  intros Hs. unfold searchSections.
  destruct (trimmedTruthy searchResults); [|cbn; lia].
  apply pushSection_bound; [lia|]. etransitivity.
  - apply formatContextSection_length; [split; reflexivity ..|].
    now apply sized_content.
  - change (len SEARCH_LABEL) with 37%Z. unfold CONTEXT_SEARCH_MAX_CHARS. lia.
Qed.

Lemma longTermSections_bound (longTerm : option jsstring) :
  optSized longTerm ->
  (Z.of_nat (totalLength (longTermSections longTerm)) <= 4104)%Z
  /\ length (longTermSections longTerm) <= 1.
Proof.
  intros Hs. unfold longTermSections.
  destruct (trimmedTruthy longTerm); [|cbn; lia].
  apply pushSection_bound; [lia|]. etransitivity.
  - apply formatContextSection_length; [split; reflexivity ..|].
    now apply sized_content.
  - change (len LONG_TERM_LABEL) with 24%Z. unfold CONTEXT_LONG_TERM_MAX_CHARS. lia.
Qed.

Lemma yesterdaySections_bound (st : MemoryStore) :
  optSized (yesterdayFile st) ->
  (Z.of_nat (totalLength (yesterdaySections st)) <= 3116)%Z
  /\ length (yesterdaySections st) <= 1.
Proof.
  intros Hs. pose proof (date_length (yesterdayISO st)) as Hd.
  fold (yesterdayStr st) in Hd. unfold yesterdaySections.
  destruct (trimmedTruthy (yesterdayFile st)); [|cbn; lia].
  apply pushSection_bound; [lia|]. etransitivity.
  - apply formatContextSection_length; [split; reflexivity ..|].
    now apply sized_content.
  - unfold yesterdayLabel, len. rewrite !length_app.
    change (length (lit "## Daily log: ")) with 14.
    change (length (lit " (yesterday)")) with 12.
    unfold CONTEXT_DAILY_MAX_CHARS. lia.
Qed.

(** On realistic inputs the assembled context has at most 15101
    characters: the five per-section budgets, their labels and notes, the
    heading and four dividers stay under the overall cap. *)
Lemma assembled_fits (st : MemoryStore) (searchResults : option jsstring) :
  realistic st searchResults ->
  (len (assembleContext (contextSections st searchResults)) <= 15101)%Z.
Proof.
  intros [H1 H2 H3 H4 H5].
  destruct (scratchpadSections_bound _ H1) as (A1 & B1).
  destruct (todaySections_bound st H2) as (A2 & B2).
  destruct (searchSections_bound _ H5) as (A3 & B3).
  destruct (longTermSections_bound _ H3) as (A4 & B4).
  destruct (yesterdaySections_bound st H4) as (A5 & B5).
  unfold assembleContext, contextSections, len.
  rewrite length_app, join_length, !totalLength_app, !length_app.
  change (length HEADING) with 10. change (length DIVIDER) with 7. lia.
Qed.

(** On realistic inputs the overall pass never runs: the result is the
    assembled context itself, or nothing when no source gave a section. *)
Lemma buildMemoryContext_realistic (st : MemoryStore) (searchResults : option jsstring) :
  realistic st searchResults ->
  buildMemoryContext st searchResults =
    match contextSections st searchResults with
    | [] => []
    | sections => assembleContext sections
    end.
Proof.
  intros H. apply assembled_fits in H.
  destruct (buildMemoryContext_cases st searchResults)
    as [(E & ->)|[(Hne & _ & ->)|(_ & Hgt & _)]].
  - now rewrite E.
  - destruct (contextSections st searchResults); [congruence|reflexivity].
  - unfold CONTEXT_MAX_CHARS in Hgt. lia.
Qed.

(** ** When a source contributes a section *)

(** A serialized scratchpad starts with the [#] of its title. *)
Lemma serializeScratchpad_start (items : list ScratchpadItem) :
  exists rest, serializeScratchpad items = 35%N :: rest.
Proof. unfold serializeScratchpad. cbv zeta. eexists. reflexivity. Qed.

(** Once the limit bites, the line pass keeps exactly [maxLines] lines and
    the character pass exactly [maxChars] characters. *)
Lemma truncateLines_exact (lines : list jsstring) (m : Z) (md : TruncateMode) :
  (0 < m < len lines)%Z -> len (lr_lines (truncateLines lines (Fin m) md)) = m.
Proof.
  intros H. rewrite truncateLines_cases by assumption. unfold len in *.
  destruct md; [| |destruct (1 <? m)%Z eqn:E]; cbn [lr_lines].
  - rewrite length_firstn. lia.
  - rewrite length_skipn. lia.
  - apply Z.ltb_lt in E.
    pose proof (floorHalf_bounds (m - 1)%Z ltac:(lia)).
    pose proof (ceilHalf_floorHalf (m - 1)%Z).
    rewrite !length_app, length_firstn, length_skipn. cbn [length]. lia.
  - rewrite length_firstn. lia.
Qed.

Lemma truncateText_exact (text : jsstring) (m : Z) (md : TruncateMode) :
  (0 < m < len text)%Z -> len (tr_text (truncateText text (Fin m) md)) = m.
Proof.
  intros H. rewrite truncateText_cases by assumption. unfold len in *.
  destruct md; [| |destruct (19 <? m)%Z eqn:E]; cbn [tr_text].
  - rewrite length_firstn. lia.
  - rewrite length_skipn. lia.
  - apply Z.ltb_lt in E.
    pose proof (floorHalf_bounds (m - 19)%Z ltac:(lia)).
    pose proof (ceilHalf_floorHalf (m - 19)%Z).
    rewrite !length_app, length_firstn, length_skipn, marker_length. lia.
  - rewrite length_firstn. lia.
Qed.

(** A content that is not blank gives a preview that is not empty, when at
    least two lines and one character are allowed. *)
Lemma buildPreview_truthy (content : jsstring) (ml mc : Z) (md : TruncateMode) :
  (2 <= ml)%Z -> (1 <= mc)%Z ->
  truthy (normalizeContent content) = true ->
  truthy (preview (buildPreview content (mkOptions (Fin ml) (Fin mc) md))) = true.
Proof.
  intros Hml Hmc Hn. rewrite buildPreview_nonempty by assumption.
  cbv zeta. cbn [preview maxChars mode]. unfold lineTruncatedText.
  cbn [maxLines mode].
  set (lines := split_nl (normalizeContent content)).
  assert (Htext : (1 <= len (join [LF] (lr_lines (truncateLines lines (Fin ml) md))))%Z).
  { destruct (Z.le_gt_cases (len lines) ml) as [Hle|Hgt].
    - rewrite truncateLines_pass by lia. cbn [lr_lines]. subst lines.
      rewrite join_split_nl. unfold len.
      destruct (normalizeContent content); [discriminate|cbn [length]; lia].
    - pose proof (truncateLines_exact lines ml md ltac:(lia)) as E.
      unfold len in *. rewrite join_length. cbn [length]. lia. }
  set (text := join [LF] _) in *.
  assert (Hout : (1 <= len (tr_text (truncateText text (Fin mc) md)))%Z).
  { destruct (Z.le_gt_cases (len text) mc) as [Hle|Hgt].
    - now rewrite truncateText_pass by lia.
    - rewrite truncateText_exact by lia. exact Hmc. }
  unfold len in Hout. destruct (tr_text _); [cbn [length] in Hout; lia|reflexivity].
Qed.

(** A file that is not blank gives its section. *)
Lemma formatContextSection_truthy (label content : jsstring) (md : TruncateMode)
    (ml mc : Z) :
  (2 <= ml)%Z -> (1 <= mc)%Z ->
  truthy (trim content) = true ->
  pushSection (formatContextSection label content md ml mc)
  = [formatContextSection label content md ml mc].
Proof.
  intros Hml Hmc Hn. unfold pushSection, formatContextSection. cbv zeta.
  rewrite (buildPreview_truthy content ml mc md Hml Hmc Hn). cbn [negb].
  destruct label; reflexivity.
Qed.

Lemma trimmedTruthy_trim (s : option jsstring) :
  trimmedTruthy s = true -> truthy (trim (optString s)) = true.
Proof. destruct s; [trivial|discriminate]. Qed.

(** A log, a memory file or search results contribute their section
    exactly when they are not blank. *)
Lemma plain_section_presence (file : option jsstring) (label : jsstring)
    (md : TruncateMode) (ml mc : Z) :
  (2 <= ml)%Z -> (1 <= mc)%Z ->
  (if trimmedTruthy file
   then pushSection (formatContextSection label (optString file) md ml mc)
   else []) <> []
  <-> trimmedTruthy file = true.
Proof.
  intros Hml Hmc. destruct (trimmedTruthy file) eqn:E.
  - rewrite formatContextSection_truthy by (assumption || now apply trimmedTruthy_trim).
    split; [reflexivity|discriminate].
  - split; [congruence|discriminate].
Qed.

(** The sources that contribute a section: a scratchpad that is not blank
    and has an open item; a log, a memory file or search results that are
    not blank. *)
Lemma section_presence (st : MemoryStore) (searchResults : option jsstring) :
  (scratchpadSections (scratchpadFile st) <> [] <->
     trimmedTruthy (scratchpadFile st) = true
     /\ filter isOpen (parseScratchpad (optString (scratchpadFile st))) <> [])
  /\ (todaySections st <> [] <-> trimmedTruthy (todayFile st) = true)
  /\ (searchSections searchResults <> [] <-> trimmedTruthy searchResults = true)
  /\ (longTermSections (longTermFile st) <> [] <->
        trimmedTruthy (longTermFile st) = true)
  /\ (yesterdaySections st <> [] <-> trimmedTruthy (yesterdayFile st) = true).
Proof.
  split; [|repeat split; apply plain_section_presence; discriminate].
  unfold scratchpadSections.
  destruct (trimmedTruthy (scratchpadFile st)); [|split; [congruence|intros [H _]; discriminate]].
  destruct (filter isOpen _) as [|it its] eqn:E.
  - cbn [length Nat.ltb Nat.leb]. split; [congruence|intros [_ H]; congruence].
  - cbn [length Nat.ltb Nat.leb].
    rewrite formatContextSection_truthy; try discriminate.
    + split; [intros _; split; [reflexivity|discriminate]|discriminate].
    + destruct (serializeScratchpad_start (it :: its)) as [rest ->].
      now apply trim_nonempty.
Qed.

(** ** C5 : the order of the sections *)

Lemma pushSection_cases (section : jsstring) :
  pushSection section <> [] -> pushSection section = [section] /\ truthy section = true.
Proof. unfold pushSection. destruct (truthy section); [auto|congruence]. Qed.

Lemma formatContextSection_shape (label content : jsstring) (md : TruncateMode)
    (ml mc : Z) :
  truthy (formatContextSection label content md ml mc) = true ->
  exists body, formatContextSection label content md ml mc = label ++ [LF; LF] ++ body.
Proof.
  unfold formatContextSection. cbv zeta.
  destruct (truthy (preview _)); cbn [negb]; [|discriminate].
  intros _. eexists. reflexivity.
Qed.

Ltac section_shape H :=
  let E := fresh "E" in let T := fresh "T" in
  match type of H with
  | (if ?c then _ else _) <> [] => destruct c; [|congruence]
  end;
  repeat match type of H with
  | (if ?c then _ else _) <> [] => destruct c; [|congruence]
  end;
  apply pushSection_cases in H; destruct H as [E T];
  apply formatContextSection_shape in T; destruct T as [? T];
  rewrite E, T; clear E T.

(** C5.  On realistic inputs (strings the language can hold), whenever the
    scratchpad, today's log, the search results, the long-term memory and
    yesterday's log each contribute a section, the
    result of [buildMemoryContext] is the single heading followed by the
    five sections in that order, joined by the divider, each section
    starting with its label. *)
Theorem sections_in_priority_order (st : MemoryStore) (searchResults : option jsstring) :
  realistic st searchResults ->
  scratchpadSections (scratchpadFile st) <> [] ->
  todaySections st <> [] ->
  searchSections searchResults <> [] ->
  longTermSections (longTermFile st) <> [] ->
  yesterdaySections st <> [] ->
  exists b1 b2 b3 b4 b5,
    buildMemoryContext st searchResults =
      HEADING
      ++ (SCRATCHPAD_LABEL ++ [LF; LF] ++ b1) ++ DIVIDER
      ++ (todayLabel (todayStr st) ++ [LF; LF] ++ b2) ++ DIVIDER
      ++ (SEARCH_LABEL ++ [LF; LF] ++ b3) ++ DIVIDER
      ++ (LONG_TERM_LABEL ++ [LF; LF] ++ b4) ++ DIVIDER
      ++ (yesterdayLabel (yesterdayStr st) ++ [LF; LF] ++ b5).
Proof.
  intros Hreal H1 H2 H3 H4 H5.
  rewrite (buildMemoryContext_realistic st searchResults Hreal).
  unfold contextSections.
  unfold scratchpadSections in H1 |- *. section_shape H1.
  unfold todaySections in H2 |- *. section_shape H2.
  unfold searchSections in H3 |- *. section_shape H3.
  unfold longTermSections in H4 |- *. section_shape H4.
  unfold yesterdaySections in H5 |- *. section_shape H5.
  cbn [app]. unfold assembleContext.
  do 5 eexists. cbn [join]. reflexivity.
Qed.

Lemma sampleStore_realistic : realistic sampleStore sampleSearch.
Proof.
  constructor; try reflexivity;
    cbn [optSized sampleStore sampleSearch scratchpadFile todayFile longTermFile
           yesterdayFile]; unfold jsSized; vm_compute; discriminate.
Defined.

(** The order of the sections on the sample store. *)
Lemma sections_in_priority_order_witness :
  exists b1 b2 b3 b4 b5,
    buildMemoryContext sampleStore sampleSearch =
      HEADING
      ++ (SCRATCHPAD_LABEL ++ [LF; LF] ++ b1) ++ DIVIDER
      ++ (todayLabel (todayStr sampleStore) ++ [LF; LF] ++ b2) ++ DIVIDER
      ++ (SEARCH_LABEL ++ [LF; LF] ++ b3) ++ DIVIDER
      ++ (LONG_TERM_LABEL ++ [LF; LF] ++ b4) ++ DIVIDER
      ++ (yesterdayLabel (yesterdayStr sampleStore) ++ [LF; LF] ++ b5).
Proof.
  apply (sections_in_priority_order sampleStore sampleSearch sampleStore_realistic);
    vm_compute; discriminate.
Defined.

(** ** C4 : done items stay out of the scratchpad section *)

(** The general form of [split_nl_app]: a line feed between two strings
    separates their lines. *)
Lemma split_nl_app_LF (a b : jsstring) :
  split_nl (a ++ LF :: b) = split_nl a ++ split_nl b.
Proof.
  induction a as [|c a IH]; [reflexivity|].
  cbn [app split_nl]. rewrite IH.
  destruct (c =? LF)%N; [reflexivity|].
  destruct (split_nl a) as [|l ls] eqn:E; [now apply split_nl_not_nil in E|].
  reflexivity.
Qed.

Lemma isPrefix_refl (s : jsstring) : isPrefix s s.
Proof. exists []. now rewrite app_nil_r. Qed.

Lemma isPrefix_firstn (n : nat) (s : jsstring) : isPrefix (firstn n s) s.
Proof. exists (skipn n s). now rewrite firstn_skipn. Qed.

Lemma isPrefix_cons (c : jschar) (a b : jsstring) :
  isPrefix a b -> isPrefix (c :: a) (c :: b).
Proof. intros [w ->]. now exists w. Qed.

(** The lines of a prefix are, one by one, prefixes of the first lines of
    the whole. *)
Lemma split_nl_prefix (p w : jsstring) :
  Forall2 isPrefix (split_nl p) (firstn (length (split_nl p)) (split_nl (p ++ w))).
Proof.
  induction p as [|c p IH].
  - cbn [app split_nl length]. destruct (split_nl w) as [|l ls] eqn:E;
      [now apply split_nl_not_nil in E|].
    cbn [firstn]. constructor; [now exists l|constructor].
  - cbn [app split_nl]. destruct (c =? LF)%N.
    + cbn [length firstn]. constructor; [apply isPrefix_refl|exact IH].
    + destruct (split_nl p) as [|l ls] eqn:E; [now apply split_nl_not_nil in E|].
      destruct (split_nl (p ++ w)) as [|l' ls'] eqn:E'; [now apply split_nl_not_nil in E'|].
      cbn [length firstn] in *. inversion IH; subst.
      constructor; [now apply isPrefix_cons|assumption].
Qed.

Lemma Forall_split_nl_prefix (Q : jsstring -> Prop) (p s : jsstring) :
  (forall a b, isPrefix a b -> Q b -> Q a) ->
  isPrefix p s -> Forall Q (split_nl s) -> Forall Q (split_nl p).
Proof.
  intros Hq [w ->] H.
  pose proof (split_nl_prefix p w) as F.
  apply (Forall_firstn_skipn Q (length (split_nl p))) in H. destruct H as [H _].
  revert F H. generalize (firstn (length (split_nl p)) (split_nl (p ++ w))).
  generalize (split_nl p). intros ls ls' F. induction F as [|a b ls ls' Hab _ IH].
  - constructor.
  - intros H. inversion H; subst. constructor; [eapply Hq; eassumption|auto].
Qed.

Lemma stripPrefix_prefix (pre a b : jsstring) :
  isPrefix a b -> stripPrefix pre b = None -> stripPrefix pre a = None.
Proof.
  intros [w ->] H. destruct (stripPrefix pre a) as [r|] eqn:E; [|reflexivity].
  apply stripPrefix_Some in E. subst a.
  rewrite <- app_assoc, stripPrefix_app in H. discriminate.
Qed.

Lemma uncheckedStart_prefix (a b : jsstring) :
  isPrefix a b -> uncheckedStart b -> uncheckedStart a.
Proof.
  intros Hp [H1 H2]. split; eapply stripPrefix_prefix; eassumption.
Qed.

(** A line that does not start a checked checkbox parses, if at all, to an
    open item. *)
Lemma uncheckedStart_open (line : jsstring) (c : jschar) (t : jsstring) :
  uncheckedStart line -> matchItem line = Some (c, t) -> isChecked c = false.
Proof.
  intros [H1 H2] Hm. apply matchItem_Some in Hm. destruct Hm as (-> & Hc & _).
  unfold checkboxLine in *.
  unfold isCheckboxChar in Hc. unfold isChecked.
  destruct (N.eqb_spec c 120) as [->|_]; [vm_compute in H1; discriminate|].
  destruct (N.eqb_spec c 88) as [->|_]; [vm_compute in H2; discriminate|].
  reflexivity.
Qed.

Lemma uncheckedStart_first (c : jschar) (s : jsstring) :
  c <> 45%N -> uncheckedStart (c :: s).
Proof.
  intros H. split; cbn [stripPrefix lit list_ascii_of_string map];
    change (N_of_ascii "-") with 45%N;
    destruct (N.eqb_spec 45 c); congruence.
Qed.

(** Every item [parseLines] returns is representable. *)
Lemma parseLines_representable (lines : list jsstring) :
  forall prev, Forall representable (parseLines prev lines).
Proof.
  induction lines as [|line rest IH]; intros prev; [constructor|].
  cbn [parseLines]. destruct (matchItem line) as [[c t]|] eqn:E; [|apply IH].
  constructor; [|apply IH].
  apply matchItem_Some in E. destruct E as (_ & _ & Ht & Hn).
  repeat split; cbn [text meta]; try assumption.
  destruct prev as [p|]; [|now left].
  destruct (matchComment p) eqn:Ec; [|now left].
  right. now apply matchComment_iff.
Qed.

Lemma itemLines_unchecked (it : ScratchpadItem) :
  representable it -> done it = false -> Forall uncheckedStart (itemLines it).
Proof.
  intros (_ & _ & Hm) Hd. unfold itemLines. rewrite Hd.
  apply Forall_app. split.
  - destruct (truthy (meta it)) eqn:E; [|constructor].
    constructor; [|constructor].
    destruct Hm as [Hm|Hm]; [rewrite Hm in E; discriminate|].
    apply matchComment_iff, matchComment_first_char in Hm.
    destruct Hm as [rest ->]. now apply uncheckedStart_first.
  - constructor; [|constructor]. split; reflexivity.
Qed.

(** The lines of a serialized list of open items start no checked
    checkbox. *)
Lemma serialize_open_unchecked (items : list ScratchpadItem) :
  Forall representable items -> Forall (fun it => done it = false) items ->
  Forall uncheckedStart (split_nl (serializeScratchpad items)).
Proof.
  intros Hr Hd. rewrite split_nl_serialize by assumption.
  repeat (apply Forall_app; split).
  - repeat constructor.
  - induction Hr as [|it its Hit _ IH]; [constructor|].
    inversion Hd; subst. cbn [flat_map]. apply Forall_app.
    split; [now apply itemLines_unchecked|auto].
  - repeat constructor.
Qed.

(** C4 as stated fails: the text of a done item occurs in the scratchpad
    section as soon as an open item carries the same text. *)
Lemma done_text_in_section_counterexample :
  let scratchpad := lit "- [x] Fix bug" ++ [LF] ++ lit "- [ ] Fix bug" in
  In (mkItem true (lit "Fix bug") []) (parseScratchpad scratchpad)
  /\ exists section,
       scratchpadSections (Some scratchpad) = [section]
       /\ includes (lit "Fix bug") section = true.
Proof.
  cbv zeta. split; [left; reflexivity|].
  eexists. split; vm_compute; reflexivity.
Qed.

Lemma isPrefix_trans (a b c : jsstring) : isPrefix a b -> isPrefix b c -> isPrefix a c.
Proof. intros [w ->] [v ->]. exists (w ++ v). now rewrite app_assoc. Qed.

Lemma isPrefix_app (a b c : jsstring) : isPrefix b c -> isPrefix (a ++ b) (a ++ c).
Proof. intros [w ->]. exists w. now rewrite app_assoc. Qed.

(** The first parts of a list, joined, start the join of all parts. *)
Lemma join_firstn_prefix (sep : jsstring) (parts : list jsstring) :
  forall k, isPrefix (join sep (firstn k parts)) (join sep parts).
Proof.
  induction parts as [|p ps IH]; intros k.
  - rewrite firstn_nil. apply isPrefix_refl.
  - destruct k as [|k]; [now eexists|].
    cbn [firstn]. destruct ps as [|p' ps].
    + rewrite firstn_nil. apply isPrefix_refl.
    + rewrite (join_cons sep p (p' :: ps)) by discriminate.
      destruct k as [|k].
      * cbn [firstn join]. now eexists.
      * rewrite join_cons by (cbn [firstn]; discriminate).
        apply isPrefix_app, isPrefix_app, IH.
Qed.

(** Keep-start previews: the preview is a prefix of the content, when the
    content starts with a character that is no white space. *)
Lemma preview_start_prefix (c : jschar) (s : jsstring) (ml mc : Z) :
  isWhiteSpace c = false -> (0 < ml)%Z -> (0 < mc)%Z ->
  isPrefix (preview (buildPreview (c :: s) (mkOptions (Fin ml) (Fin mc) ModeStart)))
           (c :: s).
Proof.
  intros Hc Hml Hmc.
  rewrite buildPreview_nonempty by (now apply trim_nonempty).
  cbv zeta. cbn [preview]. unfold lineTruncatedText, normalizeContent.
  cbn [maxLines maxChars mode].
  apply isPrefix_trans with (b := trim (c :: s)); [|now apply trim_prefix].
  set (lines := split_nl (trim (c :: s))).
  assert (Hkept : isPrefix (join [LF] (lr_lines (truncateLines lines (Fin ml) ModeStart)))
                           (trim (c :: s))).
  { rewrite <- (join_split_nl (trim (c :: s))). fold lines.
    destruct (Z.le_gt_cases (len lines) ml) as [Hle|Hgt].
    - rewrite truncateLines_pass by lia. apply isPrefix_refl.
    - rewrite truncateLines_cases by lia. apply join_firstn_prefix. }
  eapply isPrefix_trans; [|exact Hkept].
  set (text := join [LF] _).
  destruct (Z.le_gt_cases (len text) mc) as [Hle|Hgt].
  - rewrite truncateText_pass by lia. apply isPrefix_refl.
  - rewrite truncateText_cases by lia. apply isPrefix_firstn.
Qed.

(** The lines of a section: the label, an empty line, the lines of the
    preview and, when truncated, an empty line and the note. *)
Lemma section_lines (label body note : jsstring) :
  nlCount label = 0 ->
  split_nl (label ++ [LF; LF] ++ body ++ [LF; LF] ++ note)
  = [label; []] ++ split_nl body ++ [[]] ++ split_nl note.
Proof.
  intros Hl. cbn [app]. rewrite split_nl_app by assumption.
  change (LF :: body ++ LF :: LF :: note) with ([] ++ LF :: body ++ LF :: LF :: note).
  rewrite split_nl_app by reflexivity.
  rewrite split_nl_app_LF.
  change (LF :: note) with ([] ++ LF :: note).
  rewrite (split_nl_app [] note) by reflexivity. reflexivity.
Qed.

Lemma section_lines_plain (label body : jsstring) :
  nlCount label = 0 ->
  split_nl (label ++ [LF; LF] ++ body ++ []) = [label; []] ++ split_nl body.
Proof.
  intros Hl. rewrite app_nil_r. cbn [app]. rewrite split_nl_app by assumption.
  change (LF :: body) with ([] ++ LF :: body).
  now rewrite split_nl_app by reflexivity.
Qed.

Lemma sectionNote_lines (r : PreviewResult) :
  exists noteText, sectionNote r = [LF; LF] ++ 91%N :: noteText
                   /\ nlCount (91%N :: noteText) = 0.
Proof.
  unfold sectionNote. eexists. split; [reflexivity|].
  change (91%N :: ?x) with ([91%N] ++ x).
  cbn [lit list_ascii_of_string map]. cbn [app].
  repeat (rewrite ?nlCount_app, ?numberToString_noLF; cbn [nlCount app]).
  reflexivity.
Qed.

(** The scratchpad section is its label, a prefix of the re-serialized
    open items and, when truncated, the note. *)
Lemma scratchpad_section_parts (scratchpad : jsstring) :
  let section := formatContextSection SCRATCHPAD_LABEL (openItemsText scratchpad)
                   ModeStart CONTEXT_SCRATCHPAD_MAX_LINES CONTEXT_SCRATCHPAD_MAX_CHARS in
  section = []
  \/ exists shown note,
       section = SCRATCHPAD_LABEL ++ [LF; LF] ++ shown ++ note
       /\ isPrefix shown (openItemsText scratchpad)
       /\ (note = [] \/ exists r, note = sectionNote r).
Proof.
  cbv zeta. unfold formatContextSection. cbv zeta.
  set (r := buildPreview _ _).
  destruct (truthy (preview r)); cbn [negb]; [|now left].
  right. exists (preview r), (if truncated r then sectionNote r else []).
  split; [reflexivity|]. split.
  - subst r. unfold openItemsText.
    destruct (serializeScratchpad_start (filter isOpen (parseScratchpad scratchpad)))
      as [rest ->].
    now apply preview_start_prefix.
  - destruct (truncated r); [right; now exists r|now left].
Qed.

(** The scratchpad section starts no checked checkbox on any line. *)
Lemma scratchpad_section_unchecked (scratchpad : jsstring) :
  Forall uncheckedStart
    (split_nl (formatContextSection SCRATCHPAD_LABEL (openItemsText scratchpad)
                 ModeStart CONTEXT_SCRATCHPAD_MAX_LINES CONTEXT_SCRATCHPAD_MAX_CHARS)).
Proof.
  destruct (scratchpad_section_parts scratchpad) as [->|(shown & note & -> & Hp & Hn)];
    [repeat constructor|].
  assert (Hs : Forall uncheckedStart (split_nl shown)).
  { apply (Forall_split_nl_prefix uncheckedStart _ _ uncheckedStart_prefix Hp).
    unfold openItemsText. apply serialize_open_unchecked.
    - apply Forall_forall. intros it Hin. apply filter_In in Hin.
      pose proof (parseLines_representable (split_nl scratchpad) None) as Hr.
      rewrite Forall_forall in Hr. apply Hr. apply Hin.
    - apply Forall_forall. intros it Hin. apply filter_In in Hin.
      destruct Hin as [_ Ho]. unfold isOpen in Ho. now destruct (done it). }
  destruct Hn as [->|[r ->]].
  - rewrite section_lines_plain by reflexivity.
    apply Forall_app; split; [repeat constructor; reflexivity|assumption].
  - destruct (sectionNote_lines r) as (noteText & -> & Hn).
    rewrite section_lines by reflexivity.
    rewrite (split_nl_noLF _ Hn).
    repeat (apply Forall_app; split); try assumption; repeat constructor;
      try reflexivity.
Qed.

(** C4, amended.  The scratchpad section of [buildMemoryContext] is built
    from the open items alone: it is the label, a prefix of the
    re-serialization of the items that are not done and, when truncated,
    the note.  It lists no done item: every checklist line of the section
    is unchecked, and the line [- [x] text] (or [- [X] text]) of a done
    item is never a line of it; the characters of a done item's text occur
    in it only where that material holds them (an open item with the same
    text, for one).  A scratchpad whose items are all done, or that has no
    item, contributes no section: the result is the one of a store without
    scratchpad file. *)
Theorem scratchpad_section_open_only (st : MemoryStore) (searchResults : option jsstring) :
  (forall section, In section (scratchpadSections (scratchpadFile st)) ->
     (exists shown note,
        section = SCRATCHPAD_LABEL ++ [LF; LF] ++ shown ++ note
        /\ isPrefix shown (openItemsText (optString (scratchpadFile st)))
        /\ (note = [] \/ exists r, note = sectionNote r))
     /\ Forall (fun it => done it = false) (parseScratchpad section)
     /\ (forall it, In it (parseScratchpad (optString (scratchpadFile st))) ->
           done it = true ->
           ~ In (checkboxLine 120%N (text it)) (split_nl section)
           /\ ~ In (checkboxLine 88%N (text it)) (split_nl section)))
  /\ (Forall (fun it => done it = true)
        (parseScratchpad (optString (scratchpadFile st))) ->
      scratchpadSections (scratchpadFile st) = []
      /\ buildMemoryContext st searchResults
         = buildMemoryContext (withoutScratchpad st) searchResults).
Proof.
  split.
  - intros section Hin.
    assert (E : section = formatContextSection SCRATCHPAD_LABEL
                 (openItemsText (optString (scratchpadFile st))) ModeStart
                 CONTEXT_SCRATCHPAD_MAX_LINES CONTEXT_SCRATCHPAD_MAX_CHARS
                /\ truthy section = true).
    { unfold scratchpadSections in Hin.
      destruct (trimmedTruthy (scratchpadFile st)); [|destruct Hin].
      destruct (0 <? _)%nat; [|destruct Hin].
      unfold pushSection in Hin. destruct (truthy _) eqn:T; [|destruct Hin].
      destruct Hin as [<-|[]]. split; [reflexivity|exact T]. }
    destruct E as (E & T).
    pose proof (scratchpad_section_unchecked (optString (scratchpadFile st))) as Hu.
    rewrite <- E in Hu. rewrite Forall_forall in Hu.
    split; [|split].
    + destruct (scratchpad_section_parts (optString (scratchpadFile st))) as [H|H];
        cbv zeta in H; rewrite <- E in H; [|exact H].
      rewrite H in T. discriminate.
    + apply Forall_forall. intros it Hit.
      apply parseLines_In in Hit. destruct Hit as (line & c & Hl & Hm & ->).
      eapply uncheckedStart_open; [apply Hu|]; eassumption.
    + intros it _ _. split; intros Hl; apply Hu in Hl; destruct Hl as [H1 H2];
        [vm_compute in H1|vm_compute in H2]; discriminate.
  - intros Hall.
    assert (E : scratchpadSections (scratchpadFile st) = []).
    { unfold scratchpadSections.
      destruct (trimmedTruthy (scratchpadFile st)); [|reflexivity].
      replace (filter isOpen (parseScratchpad (optString (scratchpadFile st))))
        with (@nil ScratchpadItem); [reflexivity|].
      symmetry. induction Hall as [|it its Hit _ IH]; [reflexivity|].
      cbn [filter]. unfold isOpen at 1. rewrite Hit. exact IH. }
    split; [exact E|].
    unfold buildMemoryContext, contextSections. rewrite E. reflexivity.
Qed.

(** The amended property on the repository's scenario: one open and one done
    item give a section without the done line; a scratchpad with only a
    done item gives no section. *)
Lemma scratchpad_section_open_only_witness :
  Forall (fun it => done it = false)
    (parseScratchpad
       (formatContextSection SCRATCHPAD_LABEL
          (openItemsText (lit "- [x] Ship release" ++ [LF] ++ lit "- [ ] Fix bug"))
          ModeStart CONTEXT_SCRATCHPAD_MAX_LINES CONTEXT_SCRATCHPAD_MAX_CHARS))
  /\ scratchpadSections (Some (lit "- [x] Ship release")) = [].
Proof.
  split.
  - destruct (scratchpad_section_open_only sampleStore None) as [H _].
    apply (H _ (or_introl eq_refl)).
  - destruct (scratchpad_section_open_only
                (mkStore (Some (lit "- [x] Ship release")) None None None
                   (lit "2026-02-15T09:30:00.000Z") (lit "2026-02-14T09:30:00.000Z")) None)
      as [_ H].
    apply H. repeat constructor.
Defined.

(** ** C2 : the overall cap of [buildMemoryContext] *)

(** C2.  Whatever the four files and the search results hold, the string
    [buildMemoryContext] returns has at most [CONTEXT_MAX_CHARS = 16000]
    characters plus the length of the truncation notice of the overall
    pass.  That notice is its fixed template text of 46 characters and the
    decimal digits of the two counts it reports, the first of which has at
    most five digits.  On realistic inputs (strings the language can hold)
    the overall pass never truncates and the result
    stays under the cap itself. *)
Theorem buildMemoryContext_cap (st : MemoryStore) (searchResults : option jsstring) :
  let r := buildPreview (assembleContext (contextSections st searchResults))
             overallOptions in
  CONTEXT_MAX_CHARS = 16000%Z
  /\ (len (buildMemoryContext st searchResults)
      <= CONTEXT_MAX_CHARS + len (overallNote r))%Z
  /\ length (overallNote r)
     = 46 + length (numberToString (previewChars r))
       + length (numberToString (totalChars r))
  /\ length (numberToString (previewChars r)) <= 5
  /\ (realistic st searchResults ->
      (len (buildMemoryContext st searchResults) <= CONTEXT_MAX_CHARS)%Z).
Proof.
  cbv zeta.
  destruct (buildPreview_chars (assembleContext (contextSections st searchResults))
              PosInf CONTEXT_MAX_CHARS ModeStart ltac:(reflexivity)) as (H & Hc & _).
  cbv zeta in H, Hc. fold overallOptions in H, Hc.
  split; [reflexivity|]. split; [|split; [|split]].
  - destruct (buildMemoryContext_cases st searchResults)
      as [(_ & ->)|[(_ & H' & ->)|(_ & _ & ->)]].
    + unfold len, CONTEXT_MAX_CHARS. cbn [length]. lia.
    + unfold len in *. lia.
    + unfold len in *. rewrite length_app.
      destruct (truncated _); cbn [length]; lia.
  - unfold overallNote. rewrite !length_app. cbn [length].
    change (length (lit "[truncated overall context: showing ")) with 36.
    change (length (lit "/")) with 1. change (length (lit " chars]")) with 7. lia.
  - apply numberToString_length; [|lia].
    rewrite Hc. unfold len, CONTEXT_MAX_CHARS in H.
    change (10 ^ Z.of_nat 5)%Z with 100000%Z. lia.
  - intros Hr. rewrite (buildMemoryContext_realistic st searchResults Hr).
    apply assembled_fits in Hr. unfold CONTEXT_MAX_CHARS.
    destruct (contextSections st searchResults); [unfold len; cbn [length]|]; lia.
Qed.

(** The cap on the sample store. *)
Lemma buildMemoryContext_cap_witness :
  (len (buildMemoryContext sampleStore sampleSearch) <= CONTEXT_MAX_CHARS)%Z.
Proof.
  destruct (buildMemoryContext_cap sampleStore sampleSearch) as (_ & _ & _ & _ & H).
  exact (H sampleStore_realistic).
Defined.

(** ** The fuel of the JSON parser *)

Lemma skipWs_le (s : jsstring) : length (skipWs s) <= length s.
Proof.
  induction s as [|c s IH]; [reflexivity|].
  cbn [skipWs]. destruct (isJsonWs c); cbn [length] in *; lia.
Qed.

Lemma skipWs_cons (s : jsstring) (c : jschar) (r : jsstring) :
  skipWs s = c :: r -> length r < length s.
Proof.
  intros H. pose proof (skipWs_le s) as L. rewrite H in L. cbn [length] in L. lia.
Qed.

Lemma parseChars_progress (s : jsstring) :
  forall str r, parseChars s = Parsed str r -> length r < length s.
Proof.
  induction s as [s IH] using (induction_ltof1 _ (@length jschar)).
  unfold ltof in IH. intros str r.
  destruct s as [|c rest]; [discriminate|]. cbn [parseChars].
  destruct (c =? 34)%N.
  { intros H. injection H as _ <-. cbn [length]. lia. }
  destruct (c =? 92)%N.
  - destruct rest as [|e rest1]; [discriminate|].
    destruct (e =? 117)%N.
    + destruct rest1 as [|h1 [|h2 [|h3 [|h4 rest2]]]]; try discriminate.
      destruct (hex4 h1 h2 h3 h4); [|discriminate].
      destruct (parseChars rest2) as [str' r'| |] eqn:E; try discriminate.
      intros H. injection H as _ <-.
      apply IH in E; cbn [length] in *; lia.
    + destruct (unescape e); [|discriminate].
      destruct (parseChars rest1) as [str' r'| |] eqn:E; try discriminate.
      intros H. injection H as _ <-.
      apply IH in E; cbn [length] in *; lia.
  - destruct (c <? 32)%N; [discriminate|].
    destruct (parseChars rest) as [str' r'| |] eqn:E; try discriminate.
    intros H. injection H as _ <-.
    apply IH in E; cbn [length] in *; lia.
Qed.

Lemma spanDigits_le (s : jsstring) :
  forall ds r, spanDigits s = (ds, r) -> length r <= length s.
Proof.
  induction s as [|c s IH]; intros ds r; cbn [spanDigits].
  - intros H. injection H as _ <-. reflexivity.
  - destruct (isDigit c).
    + destruct (spanDigits s) as [ds' r'] eqn:E. intros H. injection H as _ <-.
      specialize (IH _ _ eq_refl). cbn [length]. lia.
    + intros H. injection H as _ <-. reflexivity.
Qed.

Lemma takeIf_le (p : jschar -> bool) (s taken r : jsstring) :
  takeIf p s = (taken, r) -> length r <= length s.
Proof.
  destruct s as [|c s]; cbn [takeIf].
  - intros H. injection H as _ <-. reflexivity.
  - destruct (p c); intros H; injection H as _ <-; cbn [length]; lia.
Qed.

Lemma parseFraction_le (s fp r : jsstring) :
  parseFraction s = Some (fp, r) -> length r <= length s.
Proof.
  destruct s as [|c s]; cbn [parseFraction].
  - intros H. injection H as _ <-. reflexivity.
  - destruct (c =? 46)%N.
    + destruct (spanDigits s) as [ds r'] eqn:E. apply spanDigits_le in E.
      destruct (truthy ds); [|discriminate].
      intros H. injection H as _ <-. cbn [length]. lia.
    + intros H. injection H as _ <-. reflexivity.
Qed.

Lemma parseExponent_le (s ep r : jsstring) :
  parseExponent s = Some (ep, r) -> length r <= length s.
Proof.
  destruct s as [|e s]; cbn [parseExponent].
  - intros H. injection H as _ <-. reflexivity.
  - destruct ((e =? 101) || (e =? 69))%N.
    + destruct (takeIf _ s) as [sg r1] eqn:E1. apply takeIf_le in E1.
      destruct (spanDigits r1) as [ds r2] eqn:E2. apply spanDigits_le in E2.
      destruct (truthy ds); [|discriminate].
      intros H. injection H as _ <-. cbn [length]. lia.
    + intros H. injection H as _ <-. reflexivity.
Qed.

Lemma parseNumber_progress (s : jsstring) (v : json) (r : jsstring) :
  parseNumber s = Parsed v r -> length r < length s.
Proof.
  unfold parseNumber.
  destruct (takeIf (N.eqb 45) s) as [sign s1] eqn:E0. apply takeIf_le in E0.
  destruct s1 as [|c r0]; [discriminate|].
  destruct (isDigit c); [|discriminate].
  assert (H2 : forall ip s2,
             (if (c =? 48)%N then ([c], r0)
              else let (ds, r') := spanDigits r0 in (c :: ds, r')) = (ip, s2) ->
             length s2 <= length r0).
  { intros ip s2. destruct (c =? 48)%N.
    - intros H. injection H as _ <-. reflexivity.
    - destruct (spanDigits r0) as [ds r'] eqn:E. apply spanDigits_le in E.
      intros H. injection H as _ <-. exact E. }
  destruct (if (c =? 48)%N then _ else _) as [ip s2] eqn:E2.
  specialize (H2 ip s2 eq_refl).
  destruct (parseFraction s2) as [[fp s3]|] eqn:E3; [|discriminate].
  apply parseFraction_le in E3.
  destruct (parseExponent s3) as [[ep s4]|] eqn:E4; [|discriminate].
  apply parseExponent_le in E4.
  intros H. injection H as _ <-. cbn [length] in *. lia.
Qed.

Lemma stripPrefix_length (prefix s r : jsstring) :
  stripPrefix prefix s = Some r -> length s = length prefix + length r.
Proof. intros H. apply stripPrefix_Some in H. subst. apply length_app. Qed.

(** Whatever the fuel, a parsed value, element list or member list
    consumes at least one character. *)
Lemma parse_progress (fuel : nat) :
  (forall s v r, parseValue fuel s = Parsed v r -> length r < length s)
  /\ (forall s acc v r, parseElements fuel s acc = Parsed v r -> length r < length s)
  /\ (forall s acc v r, parseMembers fuel s acc = Parsed v r -> length r < length s).
Proof.
  induction fuel as [|f (IHv & IHe & IHm)];
    [repeat split; intros; discriminate|].
  split; [|split].
  - intros s v r. cbn [parseValue].
    destruct (skipWs s) as [|c r0] eqn:E0; [discriminate|].
    apply skipWs_cons in E0.
    destruct (c =? 123)%N.
    { destruct (skipWs r0) as [|c' r'] eqn:E1; [discriminate|].
      apply skipWs_cons in E1.
      destruct (c' =? 125)%N.
      - intros H. injection H as _ <-. lia.
      - intros H. apply IHm in H. cbn [length] in H. lia. }
    destruct (c =? 91)%N.
    { destruct (skipWs r0) as [|c' r'] eqn:E1; [discriminate|].
      apply skipWs_cons in E1.
      destruct (c' =? 93)%N.
      - intros H. injection H as _ <-. lia.
      - intros H. apply IHe in H. cbn [length] in H. lia. }
    destruct (c =? 34)%N.
    { destruct (parseChars r0) as [str r'| |] eqn:E1; try discriminate.
      apply parseChars_progress in E1.
      intros H. injection H as _ <-. lia. }
    destruct (stripPrefix (lit "true") (c :: r0)) as [r'|] eqn:E1.
    { apply stripPrefix_length in E1. cbn [length] in E1.
      intros H. injection H as _ <-. change (length (lit "true")) with 4 in E1. lia. }
    destruct (stripPrefix (lit "false") (c :: r0)) as [r'|] eqn:E2.
    { apply stripPrefix_length in E2. cbn [length] in E2.
      intros H. injection H as _ <-. change (length (lit "false")) with 5 in E2. lia. }
    destruct (stripPrefix (lit "null") (c :: r0)) as [r'|] eqn:E3.
    { apply stripPrefix_length in E3. cbn [length] in E3.
      intros H. injection H as _ <-. change (length (lit "null")) with 4 in E3. lia. }
    destruct ((c =? 45)%N || isDigit c); [|discriminate].
    intros H. apply parseNumber_progress in H. cbn [length] in H. lia.
  - intros s acc v r. cbn [parseElements].
    destruct (parseValue f s) as [v0 r0| |] eqn:E0; try discriminate.
    apply IHv in E0.
    destruct (skipWs r0) as [|c r'] eqn:E1; [discriminate|].
    apply skipWs_cons in E1.
    destruct (c =? 44)%N.
    + intros H. apply IHe in H. lia.
    + destruct (c =? 93)%N; [|discriminate].
      intros H. injection H as _ <-. lia.
  - intros s acc v r. cbn [parseMembers].
    destruct (skipWs s) as [|q r0] eqn:E0; [discriminate|].
    apply skipWs_cons in E0.
    destruct (q =? 34)%N; [|discriminate].
    destruct (parseChars r0) as [key r1| |] eqn:E1; try discriminate.
    apply parseChars_progress in E1.
    destruct (skipWs r1) as [|c r2] eqn:E2; [discriminate|].
    apply skipWs_cons in E2.
    destruct (c =? 58)%N; [|discriminate].
    destruct (parseValue f r2) as [v0 r3| |] eqn:E3; try discriminate.
    apply IHv in E3.
    destruct (skipWs r3) as [|d r4] eqn:E4; [discriminate|].
    apply skipWs_cons in E4.
    destruct (d =? 44)%N.
    + intros H. apply IHm in H. lia.
    + destruct (d =? 125)%N; [|discriminate].
      intros H. injection H as _ <-. lia.
Qed.

(** Fuel above twice the length of the input is never used up. *)
Lemma parse_fuel (fuel : nat) :
  (forall s, 2 * length s < fuel -> parseValue fuel s <> OutOfFuel)
  /\ (forall s acc, 2 * length s + 1 < fuel -> parseElements fuel s acc <> OutOfFuel)
  /\ (forall s acc, 2 * length s + 1 < fuel -> parseMembers fuel s acc <> OutOfFuel).
Proof.
  induction fuel as [|f (IHv & IHe & IHm)]; [repeat split; intros; lia|].
  destruct (parse_progress f) as (Pv & _ & _).
  split; [|split].
  - intros s Hf. cbn [parseValue].
    destruct (skipWs s) as [|c r0] eqn:E0; [discriminate|].
    apply skipWs_cons in E0.
    destruct (c =? 123)%N.
    { destruct (skipWs r0) as [|c' r'] eqn:E1; [discriminate|].
      apply skipWs_cons in E1.
      destruct (c' =? 125)%N; [discriminate|].
      apply IHm. cbn [length]. lia. }
    destruct (c =? 91)%N.
    { destruct (skipWs r0) as [|c' r'] eqn:E1; [discriminate|].
      apply skipWs_cons in E1.
      destruct (c' =? 93)%N; [discriminate|].
      apply IHe. cbn [length]. lia. }
    destruct (c =? 34)%N.
    { destruct (parseChars r0); discriminate. }
    destruct (stripPrefix (lit "true") (c :: r0)); [discriminate|].
    destruct (stripPrefix (lit "false") (c :: r0)); [discriminate|].
    destruct (stripPrefix (lit "null") (c :: r0)); [discriminate|].
    destruct ((c =? 45)%N || isDigit c); [|discriminate].
    unfold parseNumber.
    destruct (takeIf (N.eqb 45) (c :: r0)) as [sign s1].
    destruct s1 as [|c1 r1]; [discriminate|].
    destruct (isDigit c1); [|discriminate].
    destruct (if (c1 =? 48)%N then _ else _) as [ip s2].
    destruct (parseFraction s2) as [[fp s3]|]; [|discriminate].
    destruct (parseExponent s3) as [[ep s4]|]; discriminate.
  - intros s acc Hf. cbn [parseElements].
    destruct (parseValue f s) as [v0 r0| |] eqn:E0.
    + apply Pv in E0.
      destruct (skipWs r0) as [|c r'] eqn:E1; [discriminate|].
      apply skipWs_cons in E1.
      destruct (c =? 44)%N; [apply IHe; lia|].
      destruct (c =? 93)%N; discriminate.
    + discriminate.
    + exfalso. revert E0. apply IHv. lia.
  - intros s acc Hf. cbn [parseMembers].
    destruct (skipWs s) as [|q r0] eqn:E0; [discriminate|].
    apply skipWs_cons in E0.
    destruct (q =? 34)%N; [|discriminate].
    destruct (parseChars r0) as [key r1| |] eqn:E1; try discriminate.
    apply parseChars_progress in E1.
    destruct (skipWs r1) as [|c r2] eqn:E2; [discriminate|].
    apply skipWs_cons in E2.
    destruct (c =? 58)%N; [|discriminate].
    destruct (parseValue f r2) as [v0 r3| |] eqn:E3.
    + apply Pv in E3.
      destruct (skipWs r3) as [|d r4] eqn:E4; [discriminate|].
      apply skipWs_cons in E4.
      destruct (d =? 44)%N; [apply IHm; lia|].
      destruct (d =? 125)%N; discriminate.
    + discriminate.
    + exfalso. revert E3. apply IHv. lia.
Qed.

(** [JSON_parse] gives the parser enough fuel: when it throws, the text is
    no JSON value, or something other than white space follows the value. *)
Lemma parseValue_fuel (text : jsstring) :
  parseValue (2 * length text + 2) text <> OutOfFuel.
Proof. apply parse_fuel. lia. Qed.

Lemma JSON_parse_Throws (text : jsstring) :
  JSON_parse text = Throws <->
  parseValue (2 * length text + 2) text = SyntaxError
  \/ exists v rest,
       parseValue (2 * length text + 2) text = Parsed v rest
       /\ skipWs rest <> [].
Proof.
  unfold JSON_parse. pose proof (parseValue_fuel text) as F.
  destruct (parseValue (2 * length text + 2) text) as [v r| |]; [| |congruence].
  - destruct (skipWs r) as [|c rest] eqn:E.
    + split; [discriminate|].
      intros [H|(v' & r' & H & Hr)]; [discriminate|].
      injection H as _ <-. congruence.
    + split; [intros _|reflexivity]. right.
      exists v, r. split; [reflexivity|]. rewrite E. discriminate.
  - split; [intros _; now left|reflexivity].
Qed.

(** ** C6 and C7 : what [runQmdSearch] does with noise and with the
    no-results sentence *)

(** No JSON text starts with an escape character: the parser reports a
    syntax error at once, with any fuel, whatever follows. *)
Lemma parseValue_escape (fuel : nat) (rest : jsstring) :
  parseValue (S fuel) (ESC :: rest) = SyntaxError.
Proof. reflexivity. Qed.

Lemma JSON_parse_escape (rest : jsstring) : JSON_parse (ESC :: rest) = Throws.
Proof.
  unfold JSON_parse.
  replace (2 * length (ESC :: rest) + 2) with (S (2 * length rest + 3))
    by (cbn [length]; lia).
  now rewrite parseValue_escape.
Qed.

(** C6, evaluated.  [runQmdSearch] hands the standard output to
    [JSON.parse] as it is: on the noisy output of the repository's own test
    the promise is rejected with the parse failure, where the specification
    (and that test) expect the two records; so it is for every output that
    starts with an ANSI escape, whatever payload follows.  The payload
    alone does resolve to the two records. *)
Theorem runQmdSearch_noisy_output_rejected :
  (forall stderr,
     runQmdSearch None noisyStdout stderr
     = Rejected (lit "Failed to parse qmd output: " ++ slice noisyStdout 0 (Some 200%Z)))
  /\ (forall rest stderr,
        runQmdSearch None (ESC :: rest) stderr
        = Rejected (lit "Failed to parse qmd output: "
                    ++ slice (ESC :: rest) 0 (Some 200%Z)))
  /\ (forall stderr, runQmdSearch None cleanPayload stderr = Resolved twoRecords).
Proof.
  assert (H : forall rest stderr,
        runQmdSearch None (ESC :: rest) stderr
        = Rejected (lit "Failed to parse qmd output: "
                    ++ slice (ESC :: rest) 0 (Some 200%Z))).
  { intros rest stderr. unfold runQmdSearch. now rewrite JSON_parse_escape. }
  split; [|split; [exact H|]].
  - intros stderr. apply H.
  - intros stderr. vm_compute. reflexivity.
Qed.

(** C7, evaluated.  On the standard output [No results found.] the parser
    reports a syntax error at the first character, with any fuel, and the
    promise of [runQmdSearch] is rejected with a parse failure, where the
    specification (and the repository's own test) expect an empty list of
    results. *)
Theorem runQmdSearch_no_results_rejected (stderr : option jsstring) :
  (forall fuel, parseValue (S fuel) (lit "No results found.") = SyntaxError)
  /\ JSON_parse (lit "No results found.") = Throws
  /\ runQmdSearch None (lit "No results found.") stderr
     = Rejected (lit "Failed to parse qmd output: No results found.").
Proof. split; [reflexivity|split; vm_compute; reflexivity]. Qed.

(** ** Scenarios of the specification and of the repository's tests *)

(** Empty store: no file, no search results, empty result. *)
Example scenario_empty_store :
  buildMemoryContext (mkStore None None None None
                        (lit "2026-02-15T09:30:00.000Z")
                        (lit "2026-02-14T09:30:00.000Z"))
    None = [].
Proof. reflexivity. Qed.

(** Only the long-term file, holding one entry: its label and its text
    under the heading, and nothing else. *)
Example scenario_single_long_term :
  buildMemoryContext
    (mkStore None None (Some (lit "Remember dark mode")) None
             (lit "2026-02-15T09:30:00.000Z") (lit "2026-02-14T09:30:00.000Z")) None
  = lit "# Memory" ++ [LF; LF] ++ lit "## MEMORY.md (long-term)" ++ [LF; LF]
    ++ lit "Remember dark mode".
Proof. vm_compute. reflexivity. Qed.

(** Mixed scratchpad: the open item is in the result, the done one is not. *)
Example scenario_mixed_scratchpad :
  includes (lit "Fix bug") (buildMemoryContext sampleStore sampleSearch) = true
  /\ includes (lit "Ship release") (buildMemoryContext sampleStore sampleSearch) = false.
Proof. split; vm_compute; reflexivity. Qed.

(** Search results that are only white space give no section. *)
Example scenario_blank_search : searchSections (Some (lit "   ")) = [].
Proof. reflexivity. Qed.

(** The parser on the lines of the repository's parsing tests. *)
Example scenario_parse :
  parseScratchpad (lit "- [x] Done task" ++ [LF] ++ lit "- [X] Also done" ++ [LF])
  = [mkItem true (lit "Done task") []; mkItem true (lit "Also done") []]
  /\ parseScratchpad (lit "<!-- 2026-02-15 10:00:00 [abc12345] -->" ++ [LF]
                      ++ lit "- [ ] Task with meta" ++ [LF])
     = [mkItem false (lit "Task with meta") (lit "<!-- 2026-02-15 10:00:00 [abc12345] -->")]
  /\ parseScratchpad (lit "# Scratchpad" ++ [LF; LF] ++ lit "Some text" ++ [LF]
                      ++ lit "- [ ] Real item" ++ [LF] ++ lit "- Not a checkbox" ++ [LF])
     = [mkItem false (lit "Real item") []]
  /\ parseScratchpad (lit "some random line" ++ [LF] ++ lit "- [ ] Task" ++ [LF])
     = [mkItem false (lit "Task") []].
Proof. repeat split; reflexivity. Qed.

(** The serializer on the lists of the repository's serializing tests. *)
Example scenario_serialize :
  serializeScratchpad [] = lit "# Scratchpad" ++ [LF; LF]
  /\ serializeScratchpad [mkItem false (lit "Fix bug") []]
     = lit "# Scratchpad" ++ [LF; LF] ++ lit "- [ ] Fix bug" ++ [LF]
  /\ serializeScratchpad [mkItem true (lit "Done task") []]
     = lit "# Scratchpad" ++ [LF; LF] ++ lit "- [x] Done task" ++ [LF].
Proof. repeat split; reflexivity. Qed.

(** A long-term file of 20000 letters: the section is cut in the middle to
    4000 characters and carries its note. *)
Example scenario_long_memory :
  let st := mkStore None None (Some (repeat 77%N (N.to_nat 20000))) None
              (lit "2026-02-15T09:30:00.000Z") (lit "2026-02-14T09:30:00.000Z") in
  len (buildMemoryContext st None) = 4086%Z
  /\ includes marker (buildMemoryContext st None) = true
  /\ includes (lit "[truncated: showing 1/1 lines, 4000/20000 chars]")
       (buildMemoryContext st None) = true.
Proof. cbv zeta. split; [|split]; vm_compute; reflexivity. Qed.

(** The shapes of output [runQmdSearch] accepts: an array, an object with
    [results] or [hits], and the fallback to the empty list. *)
Example scenario_result_shapes :
  runQmdSearch None (qlit "{'results': [{'snippet': 'Token: XYZ'}]}") None
  = Resolved (JArray [JObject [(lit "snippet", JString (lit "Token: XYZ"))]])
  /\ runQmdSearch None (qlit "{'results': null, 'hits': [2]}") None
     = Resolved (JArray [JNumber (lit "2")])
  /\ runQmdSearch None (qlit "{'count': 0}") None = Resolved (JArray [])
  /\ runQmdSearch None (qlit "null") None
     = Rejected (lit "Failed to parse qmd output: null")
  /\ runQmdSearch (Some (lit "Command failed")) [] (Some (lit " no index " ++ [LF]))
     = Rejected (lit "no index").
Proof. repeat split; vm_compute; reflexivity. Qed.

(* ------------------------------------------------------------------ *)
(** * Part VI : further properties of the engine and of the tools      *)
(* ------------------------------------------------------------------ *)

(** ** White space and [trim] *)

Lemma trimStart_blank (s : jsstring) : trimStart s = [] <-> blank s = true.
Proof.
  induction s as [|c s IH]; [now split|].
  cbn [trimStart blank forallb]. destruct (isWhiteSpace c); cbn [andb].
  - exact IH.
  - split; discriminate.
Qed.

Lemma blank_app (a b : jsstring) : blank (a ++ b) = blank a && blank b.
Proof. apply forallb_app. Qed.

Lemma blank_rev (s : jsstring) : blank (rev s) = blank s.
Proof.
  induction s as [|c s IH]; [reflexivity|].
  cbn [rev]. rewrite blank_app, IH. cbn [blank forallb].
  rewrite andb_true_r. apply andb_comm.
Qed.

Lemma trimEnd_blank (s : jsstring) : trimEnd s = [] <-> blank s = true.
Proof.
  unfold trimEnd. rewrite <- !rev_alt. rewrite <- (blank_rev s).
  rewrite <- trimStart_blank. split; intros H.
  - apply (f_equal (@rev jschar)) in H. now rewrite rev_involutive in H.
  - now rewrite H.
Qed.

Lemma trimStart_app (a b : jsstring) :
  blank a = false -> trimStart (a ++ b) = trimStart a ++ b.
Proof.
  induction a as [|c a IH]; [discriminate|].
  cbn [app trimStart blank forallb]. destruct (isWhiteSpace c); cbn [andb]; auto.
Qed.

Lemma trimEnd_app (a b : jsstring) :
  blank b = false -> trimEnd (a ++ b) = a ++ trimEnd b.
Proof.
  intros H. unfold trimEnd. rewrite <- !rev_alt. rewrite rev_app_distr.
  rewrite trimStart_app by (now rewrite blank_rev).
  now rewrite rev_app_distr, rev_involutive.
Qed.

Lemma blank_trimStart (s : jsstring) : blank (trimStart s) = blank s.
Proof.
  induction s as [|c s IH]; [reflexivity|].
  cbn [trimStart blank forallb]. destruct (isWhiteSpace c) eqn:E; cbn [andb].
  - exact IH.
  - cbn [blank forallb]. now rewrite E.
Qed.

(** [s.trim()] is truthy exactly when [s] is not blank. *)
Lemma trim_truthy (s : jsstring) : truthy (trim s) = negb (blank s).
Proof.
  unfold trim. destruct (blank s) eqn:E; cbn [negb].
  - apply trimStart_blank in E. now rewrite E.
  - destruct (trimEnd (trimStart s)) eqn:E2; [|reflexivity].
    apply trimEnd_blank in E2. rewrite blank_trimStart in E2. congruence.
Qed.

Lemma trimmedTruthy_blank (s : option jsstring) :
  trimmedTruthy s = negb (blank (optString s)) && match s with Some _ => true | None => false end.
Proof.
  destruct s as [s|]; cbn [trimmedTruthy optString]; [|reflexivity].
  now rewrite trim_truthy, andb_true_r.
Qed.

(** [trim] of two parts that both hold a visible character. *)
Lemma trim_app (a b : jsstring) :
  blank a = false -> blank b = false ->
  trim (a ++ b) = trimStart a ++ trimEnd b.
Proof.
  intros Ha Hb. unfold trim. rewrite trimStart_app by assumption.
  now apply trimEnd_app.
Qed.

Lemma nlCount_trim (s : jsstring) : nlCount (trim s) <= nlCount s.
Proof.
  unfold trim. destruct (trimEnd_prefix (trimStart s)) as [w E].
  destruct (trimStart_suffix s) as [v E'].
  rewrite E' at 2. rewrite nlCount_app. rewrite E at 2. rewrite nlCount_app. lia.
Qed.

(** ** Ends of strings *)

Lemma isSuffix_refl (s : jsstring) : isSuffix s s.
Proof. now exists []. Qed.

Lemma isSuffix_trans (a b c : jsstring) : isSuffix a b -> isSuffix b c -> isSuffix a c.
Proof. intros [w ->] [v ->]. exists (v ++ w). now rewrite app_assoc. Qed.

Lemma isSuffix_skipn (n : nat) (s : jsstring) : isSuffix (skipn n s) s.
Proof. exists (firstn n s). now rewrite firstn_skipn. Qed.

(** Of two ends of one string, the shorter is an end of the longer. *)
Lemma suffix_compare (a b u v : jsstring) :
  a ++ u = b ++ v -> length u <= length v -> isSuffix u v.
Proof.
  revert b. induction a as [|x a IH]; intros b E Hl.
  - cbn [app] in E. subst u. rewrite length_app in Hl.
    destruct b; [apply isSuffix_refl|cbn [length] in Hl; lia].
  - destruct b as [|y b].
    + cbn [app] in E. subst v. now exists (x :: a).
    + cbn [app] in E. injection E as _ E. now apply (IH b).
Qed.

Lemma join_skipn_suffix (sep : jsstring) (parts : list jsstring) :
  forall k, isSuffix (join sep (skipn k parts)) (join sep parts).
Proof.
  induction parts as [|p ps IH]; intros k.
  - rewrite skipn_nil. apply isSuffix_refl.
  - destruct k as [|k]; [apply isSuffix_refl|]. cbn [skipn].
    destruct ps as [|p' ps'].
    + rewrite skipn_nil. exists p. cbn [join]. now rewrite app_nil_r.
    + rewrite join_cons by discriminate. destruct (IH k) as [w E].
      exists (p ++ sep ++ w). rewrite E. now rewrite <- !app_assoc.
Qed.

(** The lines cut off at the start and the lines kept, with the line feed
    between them. *)
Lemma join_firstn_skipn (lines : list jsstring) (k : nat) :
  0 < k < length lines ->
  join [LF] lines = (join [LF] (firstn k lines) ++ [LF]) ++ join [LF] (skipn k lines).
Proof.
  revert k. induction lines as [|l ls IH]; intros k Hk; [cbn [length] in Hk; lia|].
  destruct k as [|k]; [lia|]. cbn [length] in Hk. cbn [firstn skipn].
  destruct ls as [|l' ls']; [cbn [length] in Hk; lia|].
  rewrite join_cons by discriminate.
  destruct k as [|k].
  - cbn [firstn skipn join]. now rewrite <- app_assoc.
  - rewrite (join_cons [LF] l) by (cbn [firstn]; discriminate).
    rewrite (IH (S k)) by (cbn [length] in *; lia).
    now rewrite <- !app_assoc.
Qed.

(** A string that ends a text of lines and has fewer line feeds than the
    last [m] lines together is an end of those lines. *)
Lemma suffix_of_last_lines (lines : list jsstring) (k : nat) (u : jsstring) :
  noLFLines lines -> 0 < k < length lines ->
  isSuffix u (join [LF] lines) -> nlCount u < length lines - k ->
  isSuffix u (join [LF] (skipn k lines)).
Proof.
  intros Hno Hk [a Hu] Hn.
  rewrite (join_firstn_skipn lines k Hk) in Hu.
  set (P := join [LF] (firstn k lines)) in *.
  set (text := join [LF] (skipn k lines)) in *.
  destruct (Nat.le_gt_cases (length u) (length text)) as [Hle|Hgt].
  - symmetry in Hu. exact (suffix_compare _ _ _ _ Hu Hle).
  - exfalso.
    destruct (suffix_compare _ _ _ _ Hu ltac:(lia)) as [c Hc].
    assert (Hne : c <> []).
    { intros ->. cbn [app] in Hc. subst u. lia. }
    subst u. rewrite app_assoc in Hu. apply app_inv_tail in Hu.
    destruct (exists_last Hne) as (c' & x & ->).
    rewrite app_assoc in Hu. apply app_inj_tail in Hu. destruct Hu as [_ <-].
    rewrite !nlCount_app in Hn. cbn [nlCount] in Hn.
    replace (LF =? LF)%N with true in Hn by reflexivity.
    subst text. rewrite nlCount_join in Hn
      by (apply (Forall_firstn_skipn _ k lines Hno)).
    rewrite length_skipn in Hn. lia.
Qed.

(** ** What a preview keeps *)

Lemma truncateLines_start_prefix (lines : list jsstring) (ml : Z) :
  isPrefix (join [LF] (lr_lines (truncateLines lines (Fin ml) ModeStart)))
           (join [LF] lines).
Proof.
  destruct (Z.le_gt_cases ml 0) as [H0|H0];
    [rewrite truncateLines_pass by lia; apply isPrefix_refl|].
  destruct (Z.le_gt_cases (len lines) ml) as [Hle|Hgt].
  - rewrite truncateLines_pass by lia. apply isPrefix_refl.
  - rewrite truncateLines_cases by lia. apply join_firstn_prefix.
Qed.

Lemma truncateText_start_prefix (text : jsstring) (mc : Z) :
  isPrefix (tr_text (truncateText text (Fin mc) ModeStart)) text.
Proof.
  destruct (Z.le_gt_cases mc 0) as [H0|H0];
    [rewrite truncateText_pass by lia; apply isPrefix_refl|].
  destruct (Z.le_gt_cases (len text) mc) as [Hle|Hgt].
  - rewrite truncateText_pass by lia. apply isPrefix_refl.
  - rewrite truncateText_cases by lia. apply isPrefix_firstn.
Qed.

Lemma truncateLines_end_suffix (lines : list jsstring) (ml : Z) :
  isSuffix (join [LF] (lr_lines (truncateLines lines (Fin ml) ModeEnd)))
           (join [LF] lines).
Proof.
  destruct (Z.le_gt_cases ml 0) as [H0|H0];
    [rewrite truncateLines_pass by lia; apply isSuffix_refl|].
  destruct (Z.le_gt_cases (len lines) ml) as [Hle|Hgt].
  - rewrite truncateLines_pass by lia. apply isSuffix_refl.
  - rewrite truncateLines_cases by lia. apply join_skipn_suffix.
Qed.

Lemma truncateText_end_suffix (text : jsstring) (mc : Z) :
  isSuffix (tr_text (truncateText text (Fin mc) ModeEnd)) text.
Proof.
  destruct (Z.le_gt_cases mc 0) as [H0|H0];
    [rewrite truncateText_pass by lia; apply isSuffix_refl|].
  destruct (Z.le_gt_cases (len text) mc) as [Hle|Hgt].
  - rewrite truncateText_pass by lia. apply isSuffix_refl.
  - rewrite truncateText_cases by lia. apply isSuffix_skipn.
Qed.

(** X1.  Whatever the limits, keep-start truncation returns a start of the
    trimmed content and keep-end truncation returns an end of it: the two
    modes never insert, reorder or alter a character. *)
Theorem preview_keeps_one_end (content : jsstring) (ml mc : Z) :
  isPrefix (preview (buildPreview content (mkOptions (Fin ml) (Fin mc) ModeStart)))
           (trim content)
  /\ isSuffix (preview (buildPreview content (mkOptions (Fin ml) (Fin mc) ModeEnd)))
              (trim content).
Proof.
  destruct (truthy (normalizeContent content)) eqn:Hn.
  - rewrite !buildPreview_nonempty by assumption. cbv zeta. cbn [preview].
    unfold lineTruncatedText, normalizeContent. cbn [maxLines maxChars mode].
    split.
    + eapply isPrefix_trans; [apply truncateText_start_prefix|].
      rewrite <- (join_split_nl (trim content)) at 2.
      apply truncateLines_start_prefix.
    + eapply isSuffix_trans; [apply truncateText_end_suffix|].
      rewrite <- (join_split_nl (trim content)) at 2.
      apply truncateLines_end_suffix.
  - rewrite !buildPreview_empty by assumption. cbn [preview]. split.
    + now exists (trim content).
    + exists (trim content). now rewrite app_nil_r.
Qed.

(** The end of the content that fits the limits of a keep-end preview is
    an end of that preview. *)
Lemma end_preview_keeps (content u : jsstring) (ml mc : Z) :
  (0 < ml)%Z -> (0 < mc)%Z ->
  isSuffix u (trim content) -> (len u <= mc)%Z -> (Z.of_nat (nlCount u) < ml)%Z ->
  isSuffix u (preview (buildPreview content (mkOptions (Fin ml) (Fin mc) ModeEnd))).
Proof.
  intros Hml Hmc Hu Hlen Hnl.
  destruct (truthy (normalizeContent content)) eqn:Hn.
  - rewrite buildPreview_nonempty by assumption. cbv zeta. cbn [preview].
    unfold lineTruncatedText, normalizeContent. cbn [maxLines maxChars mode].
    set (lines := split_nl (trim content)).
    assert (Htext : isSuffix u (join [LF] (lr_lines (truncateLines lines (Fin ml) ModeEnd)))).
    { destruct (Z.le_gt_cases (len lines) ml) as [Hle|Hgt].
      - rewrite truncateLines_pass by lia. cbn [lr_lines]. subst lines.
        now rewrite join_split_nl.
      - rewrite truncateLines_cases by lia. cbn [lr_lines].
        unfold len in Hgt.
        apply suffix_of_last_lines.
        + apply split_nl_lines_noLF.
        + lia.
        + subst lines. now rewrite join_split_nl.
        + lia. }
    set (text := join [LF] _) in *.
    destruct (Z.le_gt_cases (len text) mc) as [Hle|Hgt].
    + now rewrite truncateText_pass by lia.
    + rewrite truncateText_cases by lia. cbn [tr_text].
      destruct Htext as [a Ha].
      rewrite <- (firstn_skipn (length text - Z.to_nat mc) text) in Ha.
      apply (suffix_compare _ _ _ _ (eq_sym Ha)).
      rewrite length_skipn. unfold len in *. lia.
  - rewrite buildPreview_empty by assumption. cbn [preview].
    unfold normalizeContent in Hn. destruct (trim content); [exact Hu|discriminate].
Qed.

(** X2.  A preview previewed again under the same options is never
    truncated a second time: the second pass returns the first preview,
    trimmed. *)
Theorem preview_of_preview (content : jsstring) (ml mc : Z) (md : TruncateMode) :
  let options := mkOptions (Fin ml) (Fin mc) md in
  let first := buildPreview content options in
  let second := buildPreview (preview first) options in
  truncated second = false /\ preview second = trim (preview first).
Proof.
  cbv zeta. set (options := mkOptions (Fin ml) (Fin mc) md).
  set (p := preview (buildPreview content options)).
  assert (HB : (mc <= 0 \/ len p <= mc)%Z).
  { destruct (Z.le_gt_cases mc 0) as [H0|H0]; [now left|right].
    subst p options. apply (buildPreview_chars content (Fin ml) mc md). lia. }
  assert (HA : (ml <= 0 \/ Z.of_nat (nlCount p) < ml)%Z).
  { destruct (Z.le_gt_cases ml 0) as [H0|H0]; [now left|right].
    subst p options.
    destruct (truthy (normalizeContent content)) eqn:Hn.
    - rewrite buildPreview_nonempty by assumption. cbv zeta. cbn [preview].
      unfold lineTruncatedText. cbn [maxLines maxChars mode].
      destruct (truncateLines_spec (split_nl (normalizeContent content)) ml md
                  ltac:(lia) (split_nl_not_nil _) (split_nl_lines_noLF _))
        as (Hl & Hno & _).
      cbv zeta in Hl, Hno. set (lr := truncateLines _ _ _) in *.
      assert (Ht : (Z.of_nat (nlCount (join [LF] (lr_lines lr))) < ml)%Z).
      { rewrite nlCount_join by exact Hno. unfold len in Hl. lia. }
      destruct (Z.le_gt_cases mc 0) as [Hc|Hc].
      + now rewrite truncateText_pass by lia.
      + destruct (truncateText_spec (join [LF] (lr_lines lr)) mc md ltac:(lia))
          as (_ & Hnl & _).
        cbv zeta in Hnl. lia.
    - rewrite buildPreview_empty by assumption. cbn [preview nlCount]. lia. }
  pose proof (nlCount_trim p) as Hn1. pose proof (trim_length p) as Hn2.
  destruct (truthy (normalizeContent p)) eqn:Hp.
  - rewrite buildPreview_nonempty by assumption. cbv zeta.
    cbn [truncated preview]. unfold lineTruncatedText, normalizeContent.
    subst options. cbn [maxLines maxChars mode].
    rewrite truncateLines_pass
      by (unfold len; rewrite split_nl_length; lia).
    cbn [lr_lines lr_truncated]. rewrite join_split_nl.
    rewrite truncateText_pass by (unfold len in *; lia).
    now cbn [tr_text tr_truncated orb].
  - rewrite buildPreview_empty by assumption. cbn [truncated preview].
    split; [reflexivity|]. unfold normalizeContent in Hp.
    now destruct (trim p).
Qed.

(** ** The scratchpad format as a normal form *)

(** Items the format represents re-parse to themselves. *)
Lemma serialize_parse (items : list ScratchpadItem) :
  Forall representable items ->
  parseScratchpad (serializeScratchpad items) = items.
Proof.
  intros H. unfold parseScratchpad. rewrite split_nl_serialize by assumption.
  cbn [app]. rewrite !parseLines_skip by reflexivity.
  now apply parseLines_items.
Qed.

Lemma parseScratchpad_representable (content : jsstring) :
  Forall representable (parseScratchpad content).
Proof. apply parseLines_representable. Qed.

(** X3.  Serializing what was parsed gives a normal form of a scratchpad
    file: it parses to the same items, it is left unchanged by a further
    parse and serialize, and it holds nothing but the title, an empty line
    and the lines of the items, so every other line of the file is gone. *)
Theorem scratchpad_normal_form (content : jsstring) :
  let file := serializeScratchpad (parseScratchpad content) in
  parseScratchpad file = parseScratchpad content
  /\ serializeScratchpad (parseScratchpad file) = file
  /\ split_nl file
     = [lit "# Scratchpad"; []]
       ++ flat_map itemLines (parseScratchpad content) ++ [[]].
Proof.
  cbv zeta. pose proof (parseScratchpad_representable content) as H.
  split; [now apply serialize_parse|].
  split; [now rewrite serialize_parse|].
  now apply split_nl_serialize.
Qed.

(** ** The context as a whole *)

Lemma context_nonempty (st : MemoryStore) (searchResults : option jsstring) :
  contextSections st searchResults <> [] ->
  truthy (buildMemoryContext st searchResults) = true.
Proof.
  intros Hs.
  destruct (buildMemoryContext_cases st searchResults) as [[H _]|[(_ & _ & E)|(_ & Hgt & E)]];
    cbv zeta in *; [contradiction| |]; rewrite E.
  - reflexivity.
  - set (context := assembleContext _) in *.
    assert (Hn : truthy (normalizeContent context) = true).
    { subst context. unfold assembleContext, HEADING, normalizeContent.
      cbn [lit map list_ascii_of_string app]. now apply trim_nonempty. }
    assert (Hp : truthy (preview (buildPreview context overallOptions)) = true).
    { rewrite buildPreview_nonempty by assumption. cbv zeta. cbn [preview].
      unfold lineTruncatedText, overallOptions. cbn [maxLines maxChars mode truncateLines lr_lines].
      rewrite join_split_nl.
      set (text := normalizeContent context) in *.
      destruct (Z.le_gt_cases (len text) CONTEXT_MAX_CHARS) as [Hle|Hgt'].
      - now rewrite truncateText_pass by lia.
      - pose proof (truncateText_exact text CONTEXT_MAX_CHARS ModeStart) as Hx.
        unfold CONTEXT_MAX_CHARS in *.
        specialize (Hx ltac:(lia)).
        destruct (tr_text _); [unfold len in Hx; cbn [length] in Hx; lia|reflexivity]. }
    destruct (preview _); [discriminate|reflexivity].
Qed.

(** X4.  [buildMemoryContext] returns the empty string exactly when no
    source has anything to show: the scratchpad is blank or has no open
    item, and today's log, the search results, the long-term memory and
    yesterday's log are each missing or blank. *)
Theorem context_empty_iff (st : MemoryStore) (searchResults : option jsstring) :
  buildMemoryContext st searchResults = [] <->
    (trimmedTruthy (scratchpadFile st) = false
     \/ filter isOpen (parseScratchpad (optString (scratchpadFile st))) = [])
    /\ trimmedTruthy (todayFile st) = false
    /\ trimmedTruthy searchResults = false
    /\ trimmedTruthy (longTermFile st) = false
    /\ trimmedTruthy (yesterdayFile st) = false.
Proof.
  destruct (section_presence st searchResults) as (P1 & P2 & P3 & P4 & P5).
  split.
  - intros E.
    assert (Hs : contextSections st searchResults = []).
    { destruct (contextSections st searchResults) eqn:Es; [reflexivity|].
      pose proof (context_nonempty st searchResults) as Hn.
      rewrite Es in Hn. specialize (Hn ltac:(discriminate)).
      rewrite E in Hn. discriminate. }
    unfold contextSections in Hs.
    apply app_eq_nil in Hs. destruct Hs as [H1 Hs].
    apply app_eq_nil in Hs. destruct Hs as [H2 Hs].
    apply app_eq_nil in Hs. destruct Hs as [H3 Hs].
    apply app_eq_nil in Hs. destruct Hs as [H4 H5].
    repeat split.
    + destruct (trimmedTruthy (scratchpadFile st)) eqn:T; [right|now left].
      destruct (filter isOpen _) eqn:F; [reflexivity|].
      exfalso. apply (proj2 P1); [split; [reflexivity|discriminate]|exact H1].
    + destruct (trimmedTruthy (todayFile st)); [|reflexivity].
      exfalso. now apply (proj2 P2).
    + destruct (trimmedTruthy searchResults); [|reflexivity].
      exfalso. now apply (proj2 P3).
    + destruct (trimmedTruthy (longTermFile st)); [|reflexivity].
      exfalso. now apply (proj2 P4).
    + destruct (trimmedTruthy (yesterdayFile st)); [|reflexivity].
      exfalso. now apply (proj2 P5).
  - intros (H1 & H2 & H3 & H4 & H5).
    assert (Hs : contextSections st searchResults = []).
    { unfold contextSections.
      assert (E1 : scratchpadSections (scratchpadFile st) = []).
      { destruct (scratchpadSections (scratchpadFile st)) eqn:E; [reflexivity|].
        destruct (proj1 P1 ltac:(discriminate)) as [T F].
        destruct H1; congruence. }
      assert (E2 : todaySections st = []).
      { destruct (todaySections st) eqn:E; [reflexivity|].
        pose proof (proj1 P2 ltac:(discriminate)). congruence. }
      assert (E3 : searchSections searchResults = []).
      { destruct (searchSections searchResults) eqn:E; [reflexivity|].
        pose proof (proj1 P3 ltac:(discriminate)). congruence. }
      assert (E4 : longTermSections (longTermFile st) = []).
      { destruct (longTermSections (longTermFile st)) eqn:E; [reflexivity|].
        pose proof (proj1 P4 ltac:(discriminate)). congruence. }
      assert (E5 : yesterdaySections st = []).
      { destruct (yesterdaySections st) eqn:E; [reflexivity|].
        pose proof (proj1 P5 ltac:(discriminate)). congruence. }
      now rewrite E1, E2, E3, E4, E5. }
    unfold buildMemoryContext. cbv zeta. now rewrite Hs.
Qed.

(** X5.  On inputs the language can hold, every source stays within a
    budget of its own (2114, 3112, 2617, 4104 and 3116 characters, labels
    and notes included), the assembled context has at most 15101
    characters, and so the overall truncation pass never runs: the result
    is the heading and the sections joined by the divider, nothing cut. *)
Theorem overall_pass_never_runs (st : MemoryStore) (searchResults : option jsstring) :
  realistic st searchResults ->
  (Z.of_nat (totalLength (scratchpadSections (scratchpadFile st))) <= 2114)%Z
  /\ (Z.of_nat (totalLength (todaySections st)) <= 3112)%Z
  /\ (Z.of_nat (totalLength (searchSections searchResults)) <= 2617)%Z
  /\ (Z.of_nat (totalLength (longTermSections (longTermFile st))) <= 4104)%Z
  /\ (Z.of_nat (totalLength (yesterdaySections st)) <= 3116)%Z
  /\ (len (assembleContext (contextSections st searchResults)) <= 15101)%Z
  /\ (contextSections st searchResults <> [] ->
      buildMemoryContext st searchResults
      = HEADING ++ join DIVIDER (contextSections st searchResults)).
Proof.
  intros R. pose proof R as [H1 H2 H3 H4 H5].
  split; [apply (scratchpadSections_bound _ H1)|].
  split; [apply (todaySections_bound st H2)|].
  split; [apply (searchSections_bound _ H5)|].
  split; [apply (longTermSections_bound _ H3)|].
  split; [apply (yesterdaySections_bound st H4)|].
  split; [now apply assembled_fits|].
  intros Hne. rewrite (buildMemoryContext_realistic st searchResults R).
  destruct (contextSections st searchResults); [contradiction|reflexivity].
Qed.

Lemma overall_pass_never_runs_witness :
  realistic sampleStore sampleSearch
  /\ buildMemoryContext sampleStore sampleSearch
     = HEADING ++ join DIVIDER (contextSections sampleStore sampleSearch).
Proof.
  split; [exact sampleStore_realistic|].
  apply (overall_pass_never_runs sampleStore sampleSearch sampleStore_realistic).
  vm_compute. discriminate.
Defined.

(** ** How [runQmdSearch] settles *)

Lemma extractResults_Returns (v : json) :
  (exists results, extractResults v = Returns results) <-> v <> JNull.
Proof.
  split.
  - intros [r E] ->. discriminate.
  - intros Hv. destruct v as [|b|lx|s|elems|members]; [contradiction| | | | |];
      unfold extractResults, getProperty; cbn [coalesce]; eauto.
    destruct (lookupMember (lit "results") members) as [[]|];
      cbn [coalesce]; eauto;
      destruct (lookupMember (lit "hits") members) as [[]|]; cbn [coalesce]; eauto.
Qed.

(** X6.  When the subprocess succeeds, [runQmdSearch] resolves exactly
    when its output is JSON other than [null]; an array is resolved as it
    is.  Every rejection then quotes at most the first 200 characters of
    the output after a fixed prefix.  When the subprocess fails, the
    promise is rejected with the trimmed standard error, or with the
    message of the error when the standard error is missing or blank. *)
Theorem runQmdSearch_outcomes (stdout : jsstring) (stderr : option jsstring) :
  ((exists results, runQmdSearch None stdout stderr = Resolved results)
   <-> exists v, JSON_parse stdout = Returns v /\ v <> JNull)
  /\ (forall elems, JSON_parse stdout = Returns (JArray elems) ->
        runQmdSearch None stdout stderr = Resolved (JArray elems))
  /\ (forall message, runQmdSearch None stdout stderr = Rejected message ->
        message = lit "Failed to parse qmd output: " ++ firstn 200 stdout
        /\ length message <= 228)
  /\ (forall e, runQmdSearch (Some e) stdout stderr
                = Rejected (if trimmedTruthy stderr
                            then trim (optString stderr) else e)).
Proof.
  unfold runQmdSearch. rewrite slice_first by lia.
  change (Z.to_nat 200) with 200.
  assert (Hlen : length (lit "Failed to parse qmd output: " ++ firstn 200 stdout) <= 228).
  { rewrite length_app, length_firstn.
    change (length (lit "Failed to parse qmd output: ")) with 28. lia. }
  split; [|split; [|split]].
  - destruct (JSON_parse stdout) as [v|].
    + split.
      * intros [r E]. exists v. split; [reflexivity|].
        apply extractResults_Returns.
        destruct (extractResults v) as [x|]; [now exists x|discriminate].
      * intros (v' & E & Hv). injection E as <-.
        apply extractResults_Returns in Hv. destruct Hv as [r ->]. now exists r.
    + split; [intros [r E]; discriminate|intros (v & E & _); discriminate].
  - intros elems ->. reflexivity.
  - intros message E.
    destruct (JSON_parse stdout) as [v|]; [destruct (extractResults v)|];
      try discriminate; injection E as <-; now split.
  - reflexivity.
Qed.

(** ** Time stamps and session ids *)

Lemma noLineTerminator_prefix (p s : jsstring) :
  isPrefix p s -> noLineTerminator s = true -> noLineTerminator p = true.
Proof.
  intros [w ->] H. rewrite noLineTerminator_app in H.
  now apply andb_true_iff in H.
Qed.

Lemma slice_prefix (s : jsstring) (k : Z) : (0 <= k)%Z -> isPrefix (slice s 0 (Some k)) s.
Proof. intros Hk. rewrite slice_first by assumption. apply isPrefix_firstn. Qed.

Lemma dropFraction_prefix (s : jsstring) : isPrefix (dropFraction s) s.
Proof.
  induction s as [|c s IH]; [apply isPrefix_refl|].
  cbn [dropFraction]. destruct (matchFraction (c :: s)).
  - now exists (c :: s).
  - now apply isPrefix_cons.
Qed.

Lemma replaceFirstT_noLineTerminator (s : jsstring) :
  noLineTerminator (replaceFirstT s) = noLineTerminator s.
Proof.
  induction s as [|c s IH]; [reflexivity|].
  cbn [replaceFirstT]. destruct (c =? 84)%N eqn:E.
  - apply N.eqb_eq in E. subst c. reflexivity.
  - unfold noLineTerminator in *. cbn [forallb]. now rewrite IH.
Qed.

Lemma nowTimestamp_noLineTerminator (iso : jsstring) :
  noLineTerminator iso = true -> noLineTerminator (nowTimestamp iso) = true.
Proof.
  intros H. unfold nowTimestamp.
  apply (noLineTerminator_prefix _ _ (dropFraction_prefix _)).
  now rewrite replaceFirstT_noLineTerminator.
Qed.

Lemma shortSessionId_noLineTerminator (sessionId : jsstring) :
  noLineTerminator sessionId = true ->
  noLineTerminator (shortSessionId sessionId) = true.
Proof.
  intros H. unfold shortSessionId.
  apply (noLineTerminator_prefix _ sessionId); [|exact H].
  apply slice_prefix. lia.
Qed.

(** A stamp without line terminator is a whole-line comment, the shape
    [parseScratchpad] takes for the meta of the next item. *)
Lemma stamp_comment (ts sid : jsstring) :
  noLineTerminator ts = true -> noLineTerminator sid = true ->
  isCommentLine (stamp ts sid).
Proof.
  intros Hts Hsid. exists (lit " " ++ ts ++ lit " [" ++ sid ++ lit "] ").
  split.
  - unfold stamp. cbn [lit map list_ascii_of_string app].
    repeat (rewrite <- ?app_assoc; cbn [app]). reflexivity.
  - rewrite !noLineTerminator_app, Hts, Hsid. reflexivity.
Qed.

Lemma spanDigits_app_stop (a : jsstring) (c : jschar) (b : jsstring) :
  isDigit c = false ->
  exists ds r, spanDigits (a ++ c :: b) = (ds, r) /\ length b < length r.
Proof.
  intros Hc. induction a as [|x a (ds & r & E & Hl)].
  - cbn [app spanDigits]. rewrite Hc. exists [], (c :: b). split; [reflexivity|].
    cbn [length]. lia.
  - cbn [app spanDigits]. destruct (isDigit x).
    + rewrite E. now exists (x :: ds), r.
    + exists [], (x :: a ++ c :: b). split; [reflexivity|].
      cbn [length]. rewrite length_app. cbn [length]. lia.
Qed.

Lemma spanDigits_all (ds : jsstring) (rest : jsstring) :
  Forall (fun c => isDigit c = true) ds ->
  match rest with [] => True | c :: _ => isDigit c = false end ->
  spanDigits (ds ++ rest) = (ds, rest).
Proof.
  intros Hds Hrest. induction Hds as [|d ds Hd _ IH].
  - cbn [app]. destruct rest as [|c r]; [reflexivity|].
    cbn [spanDigits]. now rewrite Hrest.
  - cbn [app spanDigits]. now rewrite Hd, IH.
Qed.

(** No match of the fraction pattern starts before the last dot. *)
Lemma matchFraction_early (a : jsstring) (ms : jsstring) :
  a <> [] -> matchFraction (a ++ 46%N :: ms ++ [90%N]) = false.
Proof.
  intros Ha. destruct a as [|c a]; [contradiction|].
  cbn [app matchFraction]. destruct (c =? 46)%N; [|reflexivity]. cbn [andb].
  destruct (spanDigits_app_stop a 46%N (ms ++ [90%N]) eq_refl) as (ds & r & E & Hl).
  unfold jsstring, jschar in *. rewrite E.
  destruct r as [|z [|z' r]]; try (now rewrite andb_false_r).
  cbn [length] in Hl. rewrite length_app in Hl. cbn [length] in Hl. lia.
Qed.

Lemma dropFraction_app (a ms : jsstring) :
  ms <> [] -> Forall (fun c => isDigit c = true) ms ->
  dropFraction (a ++ 46%N :: ms ++ [90%N]) = a.
Proof.
  intros Hne Hms. induction a as [|c a IH].
  - cbn [app dropFraction matchFraction].
    rewrite (spanDigits_all ms [90%N] Hms eq_refl).
    destruct ms; [contradiction|reflexivity].
  - cbn [app dropFraction].
    change (c :: a ++ 46%N :: ms ++ [90%N]) with ((c :: a) ++ 46%N :: ms ++ [90%N]).
    rewrite matchFraction_early by discriminate. cbn [app]. now rewrite IH.
Qed.

Lemma replaceFirstT_app (d t : jsstring) :
  Forall (fun c => c <> 84%N) d ->
  replaceFirstT (d ++ 84%N :: t) = d ++ 32%N :: t.
Proof.
  intros Hd. induction Hd as [|c d Hc _ IH]; [reflexivity|].
  cbn [app replaceFirstT]. apply N.eqb_neq in Hc. now rewrite Hc, IH.
Qed.

(** X7.  On an instant as [toISOString] prints it (a date without [T], a
    [T], a time of day, a dot, digits and a final [Z]) [nowTimestamp]
    returns the date, a space and the time of day: the [T] is replaced and
    the fraction of a second is dropped with its [Z], whatever the time
    of day holds. *)
Theorem nowTimestamp_shape (date time fraction : jsstring) :
  Forall (fun c => c <> 84%N) date ->
  fraction <> [] -> Forall (fun c => isDigit c = true) fraction ->
  nowTimestamp (date ++ lit "T" ++ time ++ lit "." ++ fraction ++ lit "Z")
  = date ++ lit " " ++ time.
Proof.
  intros Hd Hne Hf. unfold nowTimestamp.
  change (lit "T" ++ time ++ lit "." ++ fraction ++ lit "Z")
    with (84%N :: time ++ 46%N :: fraction ++ [90%N]).
  rewrite replaceFirstT_app by assumption.
  change (date ++ 32%N :: time ++ 46%N :: fraction ++ [90%N])
    with (date ++ (32%N :: time) ++ 46%N :: fraction ++ [90%N]).
  rewrite app_assoc. now rewrite dropFraction_app.
Qed.

Lemma nowTimestamp_shape_witness :
  nowTimestamp (lit "2026-02-15T14:30:00.123Z") = lit "2026-02-15 14:30:00".
Proof.
  apply (nowTimestamp_shape (lit "2026-02-15") (lit "14:30:00") (lit "123")).
  - repeat constructor; discriminate.
  - discriminate.
  - repeat constructor.
Defined.

(** ** Response previews *)

Lemma previewNote_length (r : PreviewResult) :
  length (previewNote r)
  = 46 + length (numberToString (previewLines r))
    + length (numberToString (totalLines r))
    + length (numberToString (previewChars r))
    + length (numberToString (totalChars r)).
Proof.
  unfold previewNote. rewrite !length_app.
  change (length [LF]) with 1.
  change (length (lit "[preview truncated: showing ")) with 28.
  change (length (lit "/")) with 1.
  change (length (lit " lines, ")) with 8.
  change (length (lit " chars]")) with 7. lia.
Qed.

Lemma previewMeta_length (label : jsstring) (r : PreviewResult) :
  length (previewMeta label r)
  = length label + 17 + length (numberToString (totalLines r))
    + length (numberToString (totalChars r)).
Proof.
  unfold previewMeta. rewrite !length_app.
  change (length (lit " (")) with 2.
  change (length (lit " lines, ")) with 8.
  change (length (lit " chars)")) with 7. lia.
Qed.

(** A preview block is the label and at most 4140 characters, for every
    content of fewer than [10^17 - 1] characters. *)
Lemma formatPreviewBlock_length (label content : jsstring) (md : TruncateMode) :
  (len content < 10 ^ 17 - 1)%Z ->
  (len (formatPreviewBlock label content md) <= len label + 4140)%Z.
Proof.
  intros Hsz. unfold formatPreviewBlock, responseOptions. cbv zeta.
  set (r := buildPreview content _).
  destruct (truthy (preview r)); cbn [negb].
  2:{ unfold len. rewrite length_app. change (length (lit ": empty.")) with 8. lia. }
  destruct (buildPreview_counts content RESPONSE_PREVIEW_MAX_LINES
              RESPONSE_PREVIEW_MAX_CHARS md ltac:(reflexivity) ltac:(reflexivity))
    as (Hc & Hl).
  destruct (buildPreview_totals content
              (mkOptions (Fin RESPONSE_PREVIEW_MAX_LINES)
                 (Fin RESPONSE_PREVIEW_MAX_CHARS) md)) as (Htc & Htl).
  destruct (buildPreview_chars content (Fin RESPONSE_PREVIEW_MAX_LINES)
              RESPONSE_PREVIEW_MAX_CHARS md ltac:(reflexivity)) as (Hp & _).
  cbv zeta in Hc, Hl, Htc, Htl, Hp. fold r in Hc, Hl, Htc, Htl, Hp.
  unfold RESPONSE_PREVIEW_MAX_LINES, RESPONSE_PREVIEW_MAX_CHARS in *.
  unfold len in *. rewrite !length_app. rewrite previewMeta_length.
  change (length [LF; LF]) with 2.
  assert (Hnote : length (previewNote r) <= 87).
  { rewrite previewNote_length.
    pose proof (numberToString_length (previewLines r) 3 ltac:(cbn; lia) ltac:(lia)).
    pose proof (numberToString_length (totalLines r) 17 ltac:(cbn; lia) ltac:(lia)).
    pose proof (numberToString_length (previewChars r) 4 ltac:(cbn; lia) ltac:(lia)).
    pose proof (numberToString_length (totalChars r) 17 ltac:(cbn; lia) ltac:(lia)).
    lia. }
  pose proof (numberToString_length (totalLines r) 17 ltac:(cbn; lia) ltac:(lia)).
  pose proof (numberToString_length (totalChars r) 17 ltac:(cbn; lia) ltac:(lia)).
  destruct (truncated r); cbn [length]; lia.
Qed.

(** X8.  A preview block never grows with its content: for a blank
    content it is the label and [: empty.]; otherwise it is the line with
    the totals, an empty line, at most 4000 characters and 120 lines of
    the content and, when something was cut, the note; in all at most the
    label and 4140 characters. *)
Theorem formatPreviewBlock_capped (label content : jsstring) (md : TruncateMode) :
  jsSized content ->
  let r := buildPreview content (responseOptions md) in
  (len (formatPreviewBlock label content md) <= len label + 4140)%Z
  /\ (blank content = true ->
      formatPreviewBlock label content md = label ++ lit ": empty.")
  /\ (blank content = false ->
      formatPreviewBlock label content md
      = previewMeta label r ++ [LF; LF] ++ preview r
        ++ (if truncated r then previewNote r else [])
      /\ (len (preview r) <= 4000)%Z
      /\ (Z.of_nat (previewLines r) <= 120)%Z).
Proof.
  intros Hsz. cbv zeta. split; [|split].
  - apply formatPreviewBlock_length. unfold jsSized, JS_MAX_LENGTH in Hsz. lia.
  - intros Hb. unfold formatPreviewBlock. cbv zeta.
    rewrite buildPreview_empty; [reflexivity|].
    unfold normalizeContent. now rewrite trim_truthy, Hb.
  - intros Hb.
    pose proof (buildPreview_truthy content RESPONSE_PREVIEW_MAX_LINES
                  RESPONSE_PREVIEW_MAX_CHARS md ltac:(unfold RESPONSE_PREVIEW_MAX_LINES; lia)
                  ltac:(unfold RESPONSE_PREVIEW_MAX_CHARS; lia)) as Ht.
    unfold normalizeContent in Ht. rewrite trim_truthy, Hb in Ht.
    specialize (Ht eq_refl).
    destruct (buildPreview_counts content RESPONSE_PREVIEW_MAX_LINES
                RESPONSE_PREVIEW_MAX_CHARS md ltac:(reflexivity) ltac:(reflexivity))
      as (Hc & Hl).
    destruct (buildPreview_chars content (Fin RESPONSE_PREVIEW_MAX_LINES)
                RESPONSE_PREVIEW_MAX_CHARS md ltac:(reflexivity)) as (Hp & _).
    cbv zeta in Hc, Hl, Hp.
    unfold formatPreviewBlock, responseOptions in *. cbv zeta.
    rewrite Ht. cbn [negb]. split; [reflexivity|].
    split; [exact Hp|exact Hl].
Qed.

Lemma formatPreviewBlock_capped_witness :
  formatPreviewBlock (lit "Scratchpad preview") (lit "  ") ModeStart
  = lit "Scratchpad preview: empty.".
Proof.
  apply (formatPreviewBlock_capped (lit "Scratchpad preview") (lit "  ") ModeStart).
  - unfold jsSized, JS_MAX_LENGTH. vm_compute. discriminate.
  - reflexivity.
Defined.

(** ** The scratchpad tool *)

Lemma representable_flag (b : bool) (it : ScratchpadItem) :
  representable it -> representable (mkItem b (text it) (meta it)).
Proof. intros H. exact H. Qed.

Lemma markFirst_None (lower : jsstring -> jsstring) (target : bool)
    (needle : jsstring) (items : list ScratchpadItem) :
  markFirst lower target needle items = None
  <-> Forall (fun it => eligible lower target needle it = false) items.
Proof.
  induction items as [|it items IH]; [now split|].
  cbn [markFirst]. fold (eligible lower target needle it).
  destruct (eligible lower target needle it) eqn:E.
  - split; [discriminate|]. intros H. inversion H; congruence.
  - destruct (markFirst lower target needle items).
    + split; [discriminate|]. intros H. inversion H as [|? ? _ H']. subst.
      now apply IH in H'.
    + split; [|reflexivity]. intros _. constructor; [exact E|]. now apply IH.
Qed.

Lemma markFirst_app (lower : jsstring -> jsstring) (target : bool)
    (needle : jsstring) (l1 : list ScratchpadItem) (it : ScratchpadItem)
    (l2 : list ScratchpadItem) :
  Forall (fun i => eligible lower target needle i = false) l1 ->
  eligible lower target needle it = true ->
  markFirst lower target needle (l1 ++ it :: l2)
  = Some (l1 ++ mkItem target (text it) (meta it) :: l2).
Proof.
  intros H1 Hit. induction H1 as [|i l1 Hi _ IH].
  - cbn [app markFirst]. fold (eligible lower target needle it). now rewrite Hit.
  - cbn [app markFirst]. fold (eligible lower target needle i). now rewrite Hi, IH.
Qed.

Lemma markFirst_Some (lower : jsstring -> jsstring) (target : bool)
    (needle : jsstring) (items items' : list ScratchpadItem) :
  markFirst lower target needle items = Some items' ->
  exists l1 it l2,
    items = l1 ++ it :: l2
    /\ Forall (fun i => eligible lower target needle i = false) l1
    /\ eligible lower target needle it = true
    /\ items' = l1 ++ mkItem target (text it) (meta it) :: l2.
Proof.
  revert items'. induction items as [|i items IH]; intros items' H; [discriminate|].
  cbn [markFirst] in H. fold (eligible lower target needle i) in H.
  destruct (eligible lower target needle i) eqn:E.
  - injection H as <-. exists [], i, items. now repeat split.
  - destruct (markFirst lower target needle items) as [rest|]; [|discriminate].
    injection H as <-.
    destruct (IH rest eq_refl) as (l1 & it & l2 & -> & H1 & Hit & ->).
    exists (i :: l1), it, l2. repeat split; auto.
Qed.

(** What the file written by [add] parses to. *)
Lemma scratchpad_add_parse (toLowerCase : jsstring -> jsstring)
    (t sessionId nowISO : jsstring)
    (existingFile envValue detectErr : option jsstring) (q : QmdState) :
  t <> [] -> noLineTerminator t = true ->
  noLineTerminator sessionId = true -> noLineTerminator nowISO = true ->
  exists file,
    so_file (scratchpadExecute toLowerCase ActAdd (Some t) sessionId nowISO
               existingFile envValue detectErr q) = Some file
    /\ parseScratchpad file
       = parseScratchpad (optString existingFile)
         ++ [mkItem false t (stamp (nowTimestamp nowISO) (shortSessionId sessionId))].
Proof.
  intros Ht Hnt Hs Hn. unfold scratchpadExecute. cbv zeta. cbn [optString].
  destruct t as [|c t']; [contradiction|]. cbn [truthy negb so_file].
  eexists. split; [reflexivity|].
  apply serialize_parse. apply Forall_app. split.
  - apply parseScratchpad_representable.
  - constructor; [|constructor]. split; [discriminate|]. split; [exact Hnt|].
    right. cbn [meta]. apply stamp_comment.
    + now apply nowTimestamp_noLineTerminator.
    + now apply shortSessionId_noLineTerminator.
Qed.

(** X9.  Adding an item with a text of one line appends it and nothing
    else: the file the tool writes parses to the items the file held
    before, in their order, followed by the new item, open, with its text
    and with the stamp of the call as meta. *)
Theorem scratchpad_add_roundtrip (toLowerCase : jsstring -> jsstring)
    (t sessionId nowISO : jsstring)
    (existingFile envValue detectErr : option jsstring) (q : QmdState) :
  t <> [] -> noLineTerminator t = true ->
  noLineTerminator sessionId = true -> noLineTerminator nowISO = true ->
  exists file,
    so_file (scratchpadExecute toLowerCase ActAdd (Some t) sessionId nowISO
               existingFile envValue detectErr q) = Some file
    /\ parseScratchpad file
       = parseScratchpad (optString existingFile)
         ++ [mkItem false t (stamp (nowTimestamp nowISO) (shortSessionId sessionId))].
Proof.
  intros Ht Hnt Hs Hn.
  exact (scratchpad_add_parse toLowerCase t sessionId nowISO existingFile envValue
           detectErr q Ht Hnt Hs Hn).
Qed.

Lemma scratchpad_add_roundtrip_witness :
  exists file,
    so_file (scratchpadExecute (fun s => s) ActAdd (Some (lit "Review PR"))
               (lit "a1b2c3d4e5f6") (lit "2026-02-15T14:30:00.123Z")
               (Some (lit "notes" ++ [LF] ++ lit "- [x] Ship release" ++ [LF]))
               None None initialQmd) = Some file
    /\ parseScratchpad file
       = [mkItem true (lit "Ship release") [];
          mkItem false (lit "Review PR") (lit "<!-- 2026-02-15 14:30:00 [a1b2c3d4] -->")].
Proof.
  destruct (scratchpad_add_roundtrip (fun s => s) (lit "Review PR")
              (lit "a1b2c3d4e5f6") (lit "2026-02-15T14:30:00.123Z")
              (Some (lit "notes" ++ [LF] ++ lit "- [x] Ship release" ++ [LF]))
              None None initialQmd ltac:(discriminate) eq_refl eq_refl eq_refl)
    as (file & E & P).
  exists file. split; [exact E|]. rewrite P. vm_compute. reflexivity.
Defined.

(** X10.  [done] and [undo] change one flag and nothing else.  Either no
    item with the other flag has a lowered text that includes the lowered
    parameter, and then nothing is written and the qmd state is left as it
    was; or the first such item, and only it, gets the flag, the file is
    written, and it parses to the list with that one flag changed, all
    texts, stamps and positions kept. *)
Theorem scratchpad_mark_first (toLowerCase : jsstring -> jsstring)
    (action : ScratchpadAction) (t sessionId nowISO : jsstring)
    (existingFile envValue detectErr : option jsstring) (q : QmdState) :
  action = ActDone \/ action = ActUndo -> t <> [] ->
  let items := parseScratchpad (optString existingFile) in
  let out := scratchpadExecute toLowerCase action (Some t) sessionId nowISO
               existingFile envValue detectErr q in
  let qualifies := eligible toLowerCase (targetOf action) (toLowerCase t) in
  (Forall (fun it => qualifies it = false) items
   /\ so_file out = None /\ so_qmd out = q)
  \/ (exists l1 it l2 file,
        items = l1 ++ it :: l2
        /\ Forall (fun i => qualifies i = false) l1
        /\ qualifies it = true
        /\ so_file out = Some file
        /\ parseScratchpad file
           = l1 ++ mkItem (targetOf action) (text it) (meta it) :: l2).
Proof.
  intros Ha Ht. cbv zeta.
  assert (E : scratchpadExecute toLowerCase action (Some t) sessionId nowISO
                existingFile envValue detectErr q
              = match markFirst toLowerCase (targetOf action) (toLowerCase t)
                        (parseScratchpad (optString existingFile)) with
                | None =>
                    plainReply (lit "No matching "
                                ++ (if targetOf action then lit "open" else lit "done")
                                ++ lit " item found for: " ++ [DQUOTE] ++ t ++ [DQUOTE]) q
                | Some items' =>
                    mkScratchpadOutcome
                      (mkResult (lit "Updated." ++ [LF; LF]
                                 ++ formatPreviewBlock (lit "Scratchpad preview")
                                      (serializeScratchpad items') ModeStart)
                                false
                                (ChangeDetails action (shortSessionId sessionId)
                                   (nowTimestamp nowISO)
                                   (getQmdUpdateMode toLowerCase envValue)
                                   (buildPreview (serializeScratchpad items')
                                      (responseOptions ModeStart))))
                      (Some (serializeScratchpad items'))
                      (afterWrite toLowerCase envValue detectErr q)
                end).
  { destruct t as [|c t']; [contradiction|].
    destruct Ha as [-> | ->]; reflexivity. }
  rewrite E. clear E.
  destruct (markFirst _ _ _ _) as [items'|] eqn:M.
  - right. destruct (markFirst_Some _ _ _ _ _ M) as (l1 & it & l2 & Ei & H1 & Hit & ->).
    exists l1, it, l2. eexists. cbn [so_file].
    repeat split; [exact Ei|exact H1|exact Hit|].
    apply serialize_parse.
    pose proof (parseScratchpad_representable (optString existingFile)) as R.
    rewrite Ei in R. apply Forall_app in R. destruct R as [R1 R2].
    inversion R2 as [|? ? Rit R3]. subst.
    apply Forall_app. split; [exact R1|]. constructor; [exact Rit|exact R3].
  - left. apply markFirst_None in M. now repeat split.
Qed.

Lemma scratchpad_mark_first_witness :
  exists file,
    so_file (scratchpadExecute (fun s => s) ActDone (Some (lit "bug"))
               (lit "a1b2c3d4e5f6") (lit "2026-02-15T14:30:00.123Z")
               (Some (lit "- [x] old bug" ++ [LF] ++ lit "- [ ] fix bug" ++ [LF]
                      ++ lit "- [ ] other bug"))
               None None initialQmd) = Some file
    /\ parseScratchpad file
       = [mkItem true (lit "old bug") []; mkItem true (lit "fix bug") [];
          mkItem false (lit "other bug") []].
Proof.
  destruct (scratchpad_mark_first (fun s => s) ActDone (lit "bug")
              (lit "a1b2c3d4e5f6") (lit "2026-02-15T14:30:00.123Z")
              (Some (lit "- [x] old bug" ++ [LF] ++ lit "- [ ] fix bug" ++ [LF]
                     ++ lit "- [ ] other bug"))
              None None initialQmd (or_introl eq_refl) ltac:(discriminate))
    as [(_ & E & _)|(l1 & it & l2 & file & _ & _ & _ & E & _)].
  - vm_compute in E. discriminate.
  - exists file. split; [exact E|].
    vm_compute in E. injection E as <-. vm_compute. reflexivity.
Defined.

Lemma filter_isOpen_length (items : list ScratchpadItem) :
  length items - length (filter isOpen items) = length (filter done items).
Proof.
  pose proof (filter_length done items) as H.
  change (filter (fun x => negb (done x)) items) with (filter isOpen items) in H.
  lia.
Qed.

Lemma filter_idem {A : Type} (f : A -> bool) (l : list A) :
  filter f (filter f l) = filter f l.
Proof.
  induction l as [|x l IH]; [reflexivity|].
  cbn [filter]. destruct (f x) eqn:E; [|exact IH].
  cbn [filter]. now rewrite E, IH.
Qed.

Lemma Forall_filter {A : Type} (P : A -> Prop) (f : A -> bool) (l : list A) :
  Forall P l -> Forall P (filter f l).
Proof.
  intros H. induction H as [|x l Hx _ IH]; [constructor|].
  cbn [filter]. destruct (f x); [now constructor|exact IH].
Qed.

(** X11.  [clear_done] removes the done items and nothing else: the file
    it writes parses to exactly the open items of the old file, in their
    order and with their stamps; the count it reports is the number of
    done items; run again on its own output it writes the same file. *)
Theorem scratchpad_clear_done (toLowerCase : jsstring -> jsstring)
    (itemText : option jsstring) (sessionId nowISO : jsstring)
    (existingFile envValue detectErr : option jsstring) (q : QmdState) :
  let items := parseScratchpad (optString existingFile) in
  let out := scratchpadExecute toLowerCase ActClearDone itemText sessionId nowISO
               existingFile envValue detectErr q in
  exists file,
    so_file out = Some file
    /\ parseScratchpad file = filter isOpen items
    /\ (exists updateMode pv,
          details (so_result out)
          = ClearDetails ActClearDone (length (filter done items)) updateMode pv)
    /\ (forall itemText' sessionId' nowISO' envValue' detectErr' q',
          so_file (scratchpadExecute toLowerCase ActClearDone itemText' sessionId'
                     nowISO' (Some file) envValue' detectErr' q') = Some file).
Proof.
  cbv zeta. unfold scratchpadExecute. cbv zeta. cbn [so_file so_result details].
  pose proof (parseScratchpad_representable (optString existingFile)) as R.
  eexists. split; [reflexivity|].
  assert (P : parseScratchpad
                (serializeScratchpad
                   (filter isOpen (parseScratchpad (optString existingFile))))
              = filter isOpen (parseScratchpad (optString existingFile))).
  { apply serialize_parse. now apply Forall_filter. }
  split; [exact P|]. split.
  - rewrite filter_isOpen_length. eauto.
  - intros. cbn [optString]. now rewrite P, filter_idem.
Qed.


(** X13.  [done] followed by [undo] with the same text restores the list,
    provided no item that was already done matches the text: the file
    written by [undo] parses to the items of the file [done] started
    from. *)
Theorem scratchpad_done_then_undo (toLowerCase : jsstring -> jsstring)
    (t sessionId nowISO sessionId' nowISO' : jsstring)
    (existingFile envValue detectErr envValue' detectErr' : option jsstring)
    (q q' : QmdState) (file : jsstring) :
  t <> [] ->
  Forall (fun it => done it = true ->
                    includes (toLowerCase t) (toLowerCase (text it)) = false)
         (parseScratchpad (optString existingFile)) ->
  so_file (scratchpadExecute toLowerCase ActDone (Some t) sessionId nowISO
             existingFile envValue detectErr q) = Some file ->
  exists file',
    so_file (scratchpadExecute toLowerCase ActUndo (Some t) sessionId' nowISO'
               (Some file) envValue' detectErr' q') = Some file'
    /\ parseScratchpad file' = parseScratchpad (optString existingFile).
Proof.
  intros Ht Hdone Hfile.
  destruct t as [|c t']; [contradiction|]. set (t := c :: t') in *.
  unfold scratchpadExecute in *. cbv zeta in *. cbn [optString truthy negb] in *.
  fold t in Hfile |- *.
  set (items := parseScratchpad (optString existingFile)) in *.
  pose proof (parseScratchpad_representable (optString existingFile)) as R.
  fold items in R.
  destruct (markFirst toLowerCase true (toLowerCase t) items) as [items1|] eqn:M;
    [|discriminate].
  cbn [so_file] in Hfile. injection Hfile as <-.
  destruct (markFirst_Some _ _ _ _ _ M) as (l1 & it & l2 & Ei & H1 & Hit & ->).
  assert (R1 : Forall representable (l1 ++ mkItem true (text it) (meta it) :: l2)).
  { rewrite Ei in R. apply Forall_app in R. destruct R as [Ra Rb].
    inversion Rb; subst. apply Forall_app. split; [exact Ra|]. now constructor. }
  rewrite (serialize_parse _ R1).
  unfold eligible in Hit. apply andb_true_iff in Hit. destruct Hit as [Hd Hin].
  assert (Hopen : done it = false) by (destruct (done it); [discriminate|reflexivity]).
  rewrite (markFirst_app toLowerCase false (toLowerCase t) l1
             (mkItem true (text it) (meta it)) l2).
  - cbn [so_file text meta]. eexists. split; [reflexivity|].
    rewrite serialize_parse.
    + rewrite Ei. destruct it as [d tx mt]. cbn [done text meta] in *.
      now subst d.
    + rewrite Ei in R. apply Forall_app in R. destruct R as [Ra Rb].
      inversion Rb; subst. apply Forall_app. split; [exact Ra|]. now constructor.
  - rewrite Ei in Hdone. apply Forall_app in Hdone. destruct Hdone as [Hd1 _].
    clear -Hd1. induction Hd1 as [|i l Hi _ IH]; constructor; [|exact IH].
    unfold eligible. destruct (done i); [|reflexivity].
    now rewrite (Hi eq_refl).
  - unfold eligible. cbn [done text]. exact Hin.
Qed.

Lemma scratchpad_done_then_undo_witness :
  exists file',
    so_file (scratchpadExecute (fun s => s) ActUndo (Some (lit "bug"))
               (lit "s2") (lit "2026-02-15T15:00:00.000Z")
               (so_file (scratchpadExecute (fun s => s) ActDone (Some (lit "bug"))
                           (lit "s1") (lit "2026-02-15T14:30:00.000Z")
                           (Some (lit "- [x] ship" ++ [LF] ++ lit "- [ ] fix bug"))
                           None None initialQmd))
               None None initialQmd) = Some file'
    /\ parseScratchpad file'
       = [mkItem true (lit "ship") []; mkItem false (lit "fix bug") []].
Proof.
  destruct (scratchpad_done_then_undo (fun s => s) (lit "bug")
              (lit "s1") (lit "2026-02-15T14:30:00.000Z")
              (lit "s2") (lit "2026-02-15T15:00:00.000Z")
              (Some (lit "- [x] ship" ++ [LF] ++ lit "- [ ] fix bug"))
              None None None None initialQmd initialQmd
              (serializeScratchpad
                 [mkItem true (lit "ship") []; mkItem true (lit "fix bug") []])
              ltac:(discriminate)
              ltac:(vm_compute; repeat constructor; intros; try reflexivity; discriminate)
              ltac:(vm_compute; reflexivity))
    as (file' & E & P).
  exists file'. split.
  - rewrite <- E. vm_compute. reflexivity.
  - rewrite P. vm_compute. reflexivity.
Defined.

(** ** memory_write *)

Lemma appendEntry_eq (existing entry : jsstring) :
  appendEntry existing entry
  = existing ++ (if blank existing then [] else [LF; LF]) ++ entry.
Proof.
  unfold appendEntry. cbv zeta. rewrite trim_truthy.
  now destruct (blank existing).
Qed.

Lemma stamp_visible (ts sid rest : jsstring) : blank (stamp ts sid ++ rest) = false.
Proof. reflexivity. Qed.

Lemma appendEntry_visible (existing entry : jsstring) :
  blank entry = false -> blank (appendEntry existing entry) = false.
Proof.
  intros H. rewrite appendEntry_eq, !blank_app, H.
  now rewrite !andb_false_r.
Qed.

Lemma memoryWrite_daily_file (toLowerCase : jsstring -> jsstring)
    (content : jsstring) (writeMode : option WriteMode)
    (sessionId nowISO filePath : jsstring)
    (existingFile envValue detectErr : option jsstring) (q : QmdState) :
  wo_file (memoryWrite toLowerCase Daily content writeMode sessionId nowISO
             filePath existingFile envValue detectErr q)
  = appendEntry (optString existingFile)
      (stamp (nowTimestamp nowISO) (shortSessionId sessionId) ++ [LF] ++ content).
Proof. reflexivity. Qed.

(** X14.  The daily log is append-only and is the sequence of its entries:
    after any number of [memory_write] calls with the target [daily],
    whatever mode each call passes, the file is the file found at the
    start, then the entries of the calls in order (each its stamp, a line
    feed and its content), one empty line between them; the separator
    after the initial file is missing only when that file was blank. *)
Theorem daily_log_is_its_entries (toLowerCase : jsstring -> jsstring)
    (filePath : jsstring) (calls : list DailyCall)
    (existingFile : option jsstring) (q : QmdState) :
  calls <> [] ->
  fst (dailyWrites toLowerCase filePath calls existingFile q)
  = Some (optString existingFile
          ++ (if blank (optString existingFile) then [] else [LF; LF])
          ++ join [LF; LF] (map dailyEntry calls)).
Proof.
  revert existingFile q. induction calls as [|c calls IH]; intros existingFile q Hne;
    [contradiction|].
  cbn [dailyWrites]. cbv zeta. rewrite memoryWrite_daily_file.
  fold (dailyEntry c).
  destruct calls as [|c' calls'].
  - cbn [dailyWrites fst map join]. now rewrite appendEntry_eq.
  - rewrite IH by discriminate. cbn [optString].
    assert (Hv : blank (appendEntry (optString existingFile) (dailyEntry c)) = false).
    { apply appendEntry_visible. apply stamp_visible. }
    rewrite Hv. rewrite appendEntry_eq. cbn [map].
    rewrite (join_cons [LF; LF] (dailyEntry c)) by discriminate.
    now rewrite <- !app_assoc.
Qed.

Lemma daily_log_is_its_entries_witness :
  fst (dailyWrites (fun s => s) (lit "/m/daily/2026-02-15.md")
         [mkDailyCall (lit "first note") None (lit "a1b2c3d4e5")
            (lit "2026-02-15T09:00:00.000Z") None None;
          mkDailyCall (lit "second note") (Some Overwrite) (lit "a1b2c3d4e5")
            (lit "2026-02-15T09:05:00.000Z") None None]
         None initialQmd)
  = Some (lit "<!-- 2026-02-15 09:00:00 [a1b2c3d4] -->" ++ [LF] ++ lit "first note"
          ++ [LF; LF]
          ++ lit "<!-- 2026-02-15 09:05:00 [a1b2c3d4] -->" ++ [LF] ++ lit "second note").
Proof.
  rewrite (daily_log_is_its_entries (fun s => s) (lit "/m/daily/2026-02-15.md")
             [mkDailyCall (lit "first note") None (lit "a1b2c3d4e5")
                (lit "2026-02-15T09:00:00.000Z") None None;
              mkDailyCall (lit "second note") (Some Overwrite) (lit "a1b2c3d4e5")
                (lit "2026-02-15T09:05:00.000Z") None None]
             None initialQmd ltac:(discriminate)).
  vm_compute. reflexivity.
Defined.

Lemma optSized_small (s : option jsstring) :
  optSized s -> (len (optString s) < 10 ^ 17 - 1)%Z.
Proof.
  destruct s as [s|]; cbn [optSized optString].
  - unfold jsSized, JS_MAX_LENGTH. lia.
  - intros _. unfold len. cbn [length]. lia.
Qed.

(** X15.  The reply of [memory_write] is capped: whatever the size of the
    file and of the content, its text is at most the path of the file and
    4191 characters; it never echoes the content written. *)
Theorem memoryWrite_reply_capped (toLowerCase : jsstring -> jsstring)
    (target : WriteTarget) (content : jsstring) (writeMode : option WriteMode)
    (sessionId nowISO filePath : jsstring)
    (existingFile envValue detectErr : option jsstring) (q : QmdState) :
  optSized existingFile ->
  (len (resultText (wo_result (memoryWrite toLowerCase target content writeMode
                                 sessionId nowISO filePath existingFile envValue
                                 detectErr q)))
   <= len filePath + 4191)%Z.
Proof.
  intros Hs. apply optSized_small in Hs.
  pose proof (formatPreviewBlock_length (lit "Existing daily log preview")
                (optString existingFile) ModeEnd Hs) as Hd.
  pose proof (formatPreviewBlock_length (lit "Existing MEMORY.md preview")
                (optString existingFile) ModeMiddle Hs) as Hm.
  change (len (lit "Existing daily log preview")) with 26%Z in Hd.
  change (len (lit "Existing MEMORY.md preview")) with 26%Z in Hm.
  unfold memoryWrite. cbv zeta.
  destruct target; [destruct writeMode as [[|]|]|];
    cbn [wo_result resultText];
    match goal with
    | |- context [truthy ?p] => destruct (truthy p)
    end;
    unfold len in *; rewrite !length_app;
    change (length (lit "Appended to daily log: ")) with 23;
    change (length (lit "Appended to MEMORY.md")) with 21;
    change (length (lit "Overwrote MEMORY.md")) with 19;
    change (length (lit "Daily log was empty.")) with 20;
    change (length (lit "MEMORY.md was empty.")) with 20;
    change (length [LF; LF]) with 2; lia.
Qed.

Lemma memoryWrite_reply_capped_witness :
  (len (resultText (wo_result (memoryWrite (fun s => s) Daily (lit "note") None
                                 (lit "a1b2c3d4e5") (lit "2026-02-15T09:00:00.000Z")
                                 (lit "/m/daily/2026-02-15.md")
                                 (Some (lit "older entry")) None None initialQmd)))
   <= len (lit "/m/daily/2026-02-15.md") + 4191)%Z.
Proof.
  apply (memoryWrite_reply_capped (fun s => s) Daily (lit "note") None
           (lit "a1b2c3d4e5") (lit "2026-02-15T09:00:00.000Z")
           (lit "/m/daily/2026-02-15.md") (Some (lit "older entry")) None None
           initialQmd).
  cbn [optSized]. unfold jsSized, JS_MAX_LENGTH. vm_compute. discriminate.
Defined.

(** A section in the middle of the joined sections. *)
Lemma join_middle (sep x : jsstring) (a b : list jsstring) :
  exists before after, join sep (a ++ x :: b) = before ++ x ++ after.
Proof.
  induction a as [|y a (before & after & IH)].
  - cbn [app]. destruct b as [|z b].
    + exists [], []. cbn [join app]. now rewrite app_nil_r.
    + exists [], (sep ++ join sep (z :: b)). now rewrite join_cons by discriminate.
  - cbn [app]. rewrite join_cons by (destruct a; discriminate).
    rewrite IH. exists (y ++ sep ++ before), after. now rewrite <- !app_assoc.
Qed.

(** X16.  What [memory_write] appends to today's log is in the memory
    context of the next turn: when the content, without its trailing white
    space, has at most 3000 characters and fewer than 120 line feeds, the
    context built from the store with the file just written contains it,
    whatever the log held before and whatever the other sources hold. *)
Theorem daily_write_reaches_context (toLowerCase : jsstring -> jsstring)
    (content : jsstring) (writeMode : option WriteMode)
    (sessionId nowISO filePath : jsstring)
    (existingFile envValue detectErr : option jsstring) (q : QmdState)
    (st : MemoryStore) (searchResults : option jsstring) :
  let file := wo_file (memoryWrite toLowerCase Daily content writeMode sessionId
                         nowISO filePath existingFile envValue detectErr q) in
  blank content = false ->
  (len (trimEnd content) <= CONTEXT_DAILY_MAX_CHARS)%Z ->
  (Z.of_nat (nlCount (trimEnd content)) < CONTEXT_DAILY_MAX_LINES)%Z ->
  realistic (withToday st file) searchResults ->
  exists before after,
    buildMemoryContext (withToday st file) searchResults
    = before ++ trimEnd content ++ after.
Proof.
  cbv zeta. rewrite memoryWrite_daily_file. intros Hb Hc Hl R.
  set (file := appendEntry _ _) in *.
  set (pre := optString existingFile
              ++ (if blank (optString existingFile) then [] else [LF; LF])
              ++ stamp (nowTimestamp nowISO) (shortSessionId sessionId) ++ [LF]).
  assert (Ef : file = pre ++ content).
  { subst file pre. rewrite appendEntry_eq. now rewrite <- !app_assoc. }
  assert (Hpre : blank pre = false).
  { subst pre. rewrite 2!blank_app.
    rewrite (stamp_visible (nowTimestamp nowISO) (shortSessionId sessionId) [LF]).
    now rewrite !andb_false_r. }
  assert (Hsuf : isSuffix (trimEnd content) (trim file)).
  { rewrite Ef, trim_app by assumption. now exists (trimStart pre). }
  assert (Hu : trimEnd content <> []).
  { intros E. apply trimEnd_blank in E. congruence. }
  pose proof (end_preview_keeps file (trimEnd content) CONTEXT_DAILY_MAX_LINES
                CONTEXT_DAILY_MAX_CHARS ltac:(reflexivity) ltac:(reflexivity)
                Hsuf Hc Hl) as [w Hw].
  assert (Hsec : exists a b,
             todaySections (withToday st file) = [a ++ trimEnd content ++ b]).
  { unfold todaySections. cbn [withToday todayFile optString].
    assert (Ht : trimmedTruthy (Some file) = true).
    { cbn [trimmedTruthy]. rewrite trim_truthy, Ef, blank_app, Hpre. reflexivity. }
    rewrite Ht. unfold formatContextSection. cbv zeta. rewrite Hw.
    assert (Hp : truthy (w ++ trimEnd content) = true).
    { destruct w; [|reflexivity]. cbn [app]. now destruct (trimEnd content). }
    rewrite Hp. cbn [negb].
    set (label := todayLabel _).
    set (note := if truncated _ then sectionNote _ else []).
    assert (Hp' : truthy (label ++ [LF; LF] ++ (w ++ trimEnd content) ++ note) = true).
    { subst label. reflexivity. }
    unfold pushSection. rewrite Hp'.
    exists (label ++ [LF; LF] ++ w), note. now rewrite <- !app_assoc. }
  destruct Hsec as (a & b & Hsec).
  rewrite (buildMemoryContext_realistic _ _ R).
  unfold contextSections. rewrite Hsec.
  set (s1 := scratchpadSections _). set (rest := searchSections _ ++ _).
  assert (Hm : forall l : list jsstring, l <> [] ->
               match l with
               | [] => []
               | j :: l' => assembleContext (j :: l')
               end = assembleContext l).
  { intros [|j l'] Hne; [contradiction|reflexivity]. }
  rewrite Hm by (destruct s1; discriminate).
  unfold assembleContext.
  destruct (join_middle DIVIDER (a ++ trimEnd content ++ b) s1 rest)
    as (before & after & J).
  change (s1 ++ [a ++ trimEnd content ++ b] ++ rest)
    with (s1 ++ (a ++ trimEnd content ++ b) :: rest).
  unfold jsstring, jschar in *. rewrite J.
  exists (HEADING ++ before ++ a), (b ++ after).
  now rewrite <- !app_assoc.
Qed.

Lemma daily_write_reaches_context_witness :
  exists before after,
    buildMemoryContext
      (withToday sampleStore
         (wo_file (memoryWrite (fun s => s) Daily (lit "Chose SQLite" ++ [LF]) None
                     (lit "a1b2c3d4e5") (lit "2026-02-15T09:00:00.000Z")
                     (lit "/m/daily/2026-02-15.md") (todayFile sampleStore)
                     None None initialQmd)))
      sampleSearch
    = before ++ lit "Chose SQLite" ++ after.
Proof.
  destruct (daily_write_reaches_context (fun s => s) (lit "Chose SQLite" ++ [LF]) None
              (lit "a1b2c3d4e5") (lit "2026-02-15T09:00:00.000Z")
              (lit "/m/daily/2026-02-15.md") (todayFile sampleStore)
              None None initialQmd sampleStore sampleSearch)
    as (before & after & E).
  - reflexivity.
  - vm_compute. discriminate.
  - vm_compute. reflexivity.
  - constructor; try reflexivity;
      cbn [optSized withToday sampleStore sampleSearch scratchpadFile todayFile
             longTermFile yesterdayFile]; unfold jsSized; vm_compute; discriminate.
  - exists before, after. exact E.
Defined.

(** ** The handoff at compaction *)

Lemma in_join (sep : jsstring) (c : jschar) (line : jsstring) (lines : list jsstring) :
  In line lines -> In c line -> In c (join sep lines).
Proof.
  intros Hl Hc. induction lines as [|l ls IH]; [contradiction|].
  destruct ls as [|l' ls'].
  - destruct Hl as [->|[]]. exact Hc.
  - rewrite join_cons by discriminate. apply in_or_app.
    destruct Hl as [->|Hl]; [now left|].
    right. apply in_or_app. right. now apply IH.
Qed.

(** A blank file holds no item. *)
Lemma parseScratchpad_blank (s : jsstring) : blank s = true -> parseScratchpad s = [].
Proof.
  intros Hb. destruct (parseScratchpad s) as [|it items] eqn:E; [reflexivity|].
  exfalso. unfold parseScratchpad in E.
  destruct (parseLines_In it (split_nl s) None ltac:(rewrite E; now left))
    as (line & c & Hl & Hm & _).
  destruct (matchItem_first_char _ _ _ Hm) as [rest ->].
  pose proof (in_join [LF] 45%N _ _ Hl ltac:(now left)) as Hin.
  rewrite join_split_nl in Hin.
  unfold blank in Hb. rewrite forallb_forall in Hb.
  specialize (Hb _ Hin). discriminate.
Qed.

Lemma trimmedTruthy_false_blank (s : option jsstring) :
  trimmedTruthy s = false -> blank (optString s) = true.
Proof.
  destruct s as [s|]; cbn [trimmedTruthy optString]; [|reflexivity].
  rewrite trim_truthy. now destruct (blank s).
Qed.

(** Lines without line feed, then a last part that may hold some. *)
Lemma split_nl_join_last (ls : list jsstring) (x : jsstring) :
  noLFLines ls -> split_nl (join [LF] (ls ++ [x])) = ls ++ split_nl x.
Proof.
  intros H. induction H as [|l ls Hl _ IH]; [reflexivity|].
  cbn [app]. rewrite join_cons by (destruct ls; discriminate).
  cbn [app]. rewrite split_nl_app by exact Hl. now rewrite IH.
Qed.

Lemma slice_last15 (lines : list jsstring) :
  slice lines (-15) None = skipn (length lines - 15) lines.
Proof. exact (slice_last _ lines 15 eq_refl). Qed.

(** The last 15 lines of a text, joined and split again. *)
Lemma tail_lines (s : jsstring) :
  split_nl (join [LF] (slice (split_nl s) (-15) None))
  = slice (split_nl s) (-15) None.
Proof.
  rewrite slice_last15. pose proof (split_nl_length s) as Hlen.
  apply split_nl_join.
  - intros E. apply (f_equal (@length jsstring)) in E.
    rewrite length_skipn in E. cbn [length] in E. lia.
  - apply (Forall_firstn_skipn _ _ _ (split_nl_lines_noLF _)).
Qed.

(** The lines the handoff lists parse to the items they were made of, open
    and without stamp. *)
Lemma parse_open_lines (items : list ScratchpadItem) :
  Forall representable items ->
  forall (prev : jsstring) (rest : list jsstring),
  matchComment prev = false ->
  exists prev', matchComment prev' = false
    /\ parseLines (Some prev)
         (map (fun item => lit "- [ ] " ++ text item) items ++ rest)
       = map stripMeta items ++ parseLines (Some prev') rest.
Proof.
  intros H. induction H as [|it items (Hne & Hnt & _) _ IH]; intros prev rest Hp.
  - exists prev. now split.
  - cbn [map app parseLines].
    change (lit "- [ ] " ++ text it) with (checkboxLine 32%N (text it)).
    rewrite matchItem_checkboxLine by (assumption || reflexivity).
    rewrite Hp.
    destruct (IH (checkboxLine 32%N (text it)) rest) as (prev' & Hp' & E).
    { apply (matchItem_not_comment _ 32%N (text it)).
      now apply matchItem_checkboxLine. }
    exists prev'. split; [exact Hp'|]. now rewrite E.
Qed.

Lemma open_lines_noLF (items : list ScratchpadItem) :
  Forall representable items ->
  noLFLines (map (fun item => lit "- [ ] " ++ text item) items).
Proof.
  intros H. induction H as [|it items (_ & Hnt & _) _ IH]; [constructor|].
  cbn [map]. constructor; [|exact IH].
  rewrite nlCount_app. now rewrite (noLineTerminator_noLF _ Hnt).
Qed.

(** The text of a handoff, read as a checklist. *)
Lemma handoff_parse (h1 h2 title recentTitle : jsstring)
    (items : list ScratchpadItem) (tailLines : list jsstring) (withRecent : bool) :
  nlCount h1 = 0 -> nlCount h2 = 0 -> nlCount title = 0 -> nlCount recentTitle = 0 ->
  matchItem h1 = None -> matchItem h2 = None -> matchItem title = None ->
  matchItem recentTitle = None -> matchComment title = false ->
  Forall representable items ->
  split_nl (join [LF] tailLines) = tailLines ->
  parseScratchpad
    (join [LF]
       ([h1; h2]
        ++ (if (0 <? length items)%nat
            then title :: map (fun item => lit "- [ ] " ++ text item) items
            else [])
        ++ (if withRecent
            then [recentTitle ++ [LF] ++ join [LF] tailLines]
            else [])))
  = map stripMeta items
    ++ (if withRecent then parseLines (Some recentTitle) tailLines else []).
Proof.
  intros N1 N2 N3 N4 M1 M2 M3 M4 C3 R Htail. unfold parseScratchpad.
  set (openLines := map (fun item => lit "- [ ] " ++ text item) items).
  assert (Hopen : noLFLines openLines) by now apply open_lines_noLF.
  destruct (parse_open_lines items R title
              (if withRecent then recentTitle :: tailLines else []) C3)
    as (prev' & _ & P).
  fold openLines in P.
  assert (Hhead : noLFLines ([h1; h2]
                             ++ (if (0 <? length items)%nat
                                 then title :: openLines else []))).
  { apply Forall_app. split; [repeat constructor; assumption|].
    destruct (0 <? length items)%nat; [now constructor|constructor]. }
  assert (Hskip : forall rest,
             parseLines None
               (([h1; h2] ++ (if (0 <? length items)%nat
                              then title :: openLines else [])) ++ rest)
             = match items with
               | [] => parseLines (Some h2) rest
               | _ :: _ => parseLines (Some title) (openLines ++ rest)
               end).
  { intros rest. subst openLines. destruct items as [|it items'].
    - cbn [length Nat.ltb Nat.leb app map].
      now rewrite (parseLines_skip None h1), (parseLines_skip (Some h1) h2).
    - cbn [length Nat.ltb Nat.leb app].
      now rewrite (parseLines_skip None h1), (parseLines_skip (Some h1) h2),
        (parseLines_skip (Some h2) title). }
  destruct withRecent.
  - rewrite app_assoc. rewrite split_nl_join_last by exact Hhead.
    change (recentTitle ++ [LF] ++ join [LF] tailLines)
      with (recentTitle ++ LF :: join [LF] tailLines).
    rewrite (split_nl_app recentTitle) by exact N4. rewrite Htail.
    rewrite Hskip. destruct items as [|it items'].
    + cbn [map app]. now rewrite parseLines_skip.
    + rewrite P. now rewrite parseLines_skip.
  - rewrite app_nil_r.
    rewrite split_nl_join; [|destruct (0 <? length items)%nat; discriminate|exact Hhead].
    rewrite <- (app_nil_r (_ ++ _)). rewrite Hskip.
    destruct items as [|it items'].
    + reflexivity.
    + rewrite P. reflexivity.
Qed.

(** X17.  The handoff written at compaction lists the open scratchpad
    items and only them.  Nothing is written exactly when there is no open
    item and today's log is blank.  Otherwise the old log stays as it was
    and the handoff follows it; read as a checklist, the handoff holds the
    open items of the scratchpad in their order, unchecked and without
    stamp, followed only by what the last 15 lines of today's log
    hold. *)
Theorem handoff_lists_open_items (toLowerCase : jsstring -> jsstring)
    (sessionId nowISO : jsstring)
    (scratchpad todayContent existing envValue detectErr : option jsstring)
    (q : QmdState) :
  let openItems := filter isOpen (parseScratchpad (optString scratchpad)) in
  let out := sessionBeforeCompact toLowerCase sessionId nowISO scratchpad
               todayContent existing envValue detectErr q in
  (fst out = None <-> openItems = [] /\ trimmedTruthy todayContent = false)
  /\ (fst out = None -> snd out = q)
  /\ (noLineTerminator sessionId = true -> noLineTerminator nowISO = true ->
      forall file, fst out = Some file ->
      exists handoff,
        file = optString existing
               ++ (if blank (optString existing) then [] else [LF; LF])
               ++ handoff
        /\ parseScratchpad handoff
           = map stripMeta openItems
             ++ (if trimmedTruthy todayContent
                 then parseLines (Some (lit "**Recent daily log context:**"))
                        (slice (split_nl (trim (optString todayContent)))
                           (-15) None)
                 else [])).
Proof.
  cbv zeta. set (openItems := filter isOpen (parseScratchpad (optString scratchpad))).
  assert (Hparts : handoffParts scratchpad todayContent
                   = (if (0 <? length openItems)%nat
                      then lit "**Open scratchpad items:**"
                           :: map (fun item => lit "- [ ] " ++ text item) openItems
                      else [])
                     ++ (if trimmedTruthy todayContent
                         then [lit "**Recent daily log context:**" ++ [LF]
                               ++ join [LF]
                                    (slice (split_nl (trim (optString todayContent)))
                                       (-15) None)]
                         else [])).
  { unfold handoffParts. cbv zeta. fold openItems.
    destruct (trimmedTruthy scratchpad) eqn:T; [reflexivity|].
    subst openItems.
    now rewrite (parseScratchpad_blank _ (trimmedTruthy_false_blank _ T)). }
  assert (Ropen : Forall representable openItems).
  { subst openItems. apply Forall_filter, parseScratchpad_representable. }
  assert (Hnone : handoffParts scratchpad todayContent = []
                  <-> openItems = [] /\ trimmedTruthy todayContent = false).
  { rewrite Hparts. destruct openItems as [|it items];
      destruct (trimmedTruthy todayContent); cbn [length Nat.ltb Nat.leb app];
      split; try discriminate; try (intros [? ?]; discriminate); now auto. }
  unfold sessionBeforeCompact. cbv zeta.
  destruct (handoffParts scratchpad todayContent) as [|p ps] eqn:Ep.
  - cbn [length Nat.eqb fst snd].
    split; [split; [intros _; now apply Hnone|reflexivity]|].
    split; [reflexivity|]. intros _ _ file E. discriminate.
  - cbn [length Nat.eqb fst snd].
    split; [split; [discriminate|intros H; apply Hnone in H; discriminate]|].
    split; [discriminate|].
    intros Hs Hn file E. injection E as <-.
    eexists. split; [apply appendEntry_eq|].
    rewrite Hparts. unfold handoffText.
    apply handoff_parse; try reflexivity; try exact Ropen.
    + rewrite !nlCount_app.
      rewrite (noLineTerminator_noLF _ (nowTimestamp_noLineTerminator _ Hn)).
      rewrite (noLineTerminator_noLF _ (shortSessionId_noLineTerminator _ Hs)).
      reflexivity.
    + apply tail_lines.
Qed.

(** ** The query of the automatic search *)

Lemma Forall_trim (P : jschar -> Prop) (s : jsstring) :
  Forall P s -> Forall P (trim s).
Proof.
  intros H. unfold trim.
  destruct (trimStart_suffix s) as [w E]. rewrite E in H.
  apply Forall_app in H. destruct H as [_ H].
  destruct (trimEnd_prefix (trimStart s)) as [v E']. rewrite E' in H.
  apply Forall_app in H. now destruct H.
Qed.

Lemma trimStart_head (s : jsstring) (c : jschar) (r : jsstring) :
  trimStart s = c :: r -> isWhiteSpace c = false.
Proof.
  induction s as [|x s IH]; [discriminate|].
  cbn [trimStart]. destruct (isWhiteSpace x) eqn:E; [exact IH|].
  intros H. injection H as <- _. exact E.
Qed.

Lemma trim_head (s : jsstring) (c : jschar) (r : jsstring) :
  trim s = c :: r -> isWhiteSpace c = false.
Proof.
  unfold trim. intros H.
  destruct (trimEnd_prefix (trimStart s)) as [w E]. rewrite H in E.
  cbn [app] in E. exact (trimStart_head _ _ _ E).
Qed.

(** X18.  The query sent to qmd for the automatic search is clean and
    short: it has at most 200 code units, holds no control character (no
    line feed, no tab, no escape), does not start with white space, and is
    empty exactly when the prompt holds nothing but white space and
    control characters. *)
Theorem sanitizePrompt_clean (prompt : jsstring) :
  let sanitized := sanitizePrompt prompt in
  length sanitized <= 200
  /\ Forall (fun c => isControl c = false) sanitized
  /\ (forall c rest, sanitized = c :: rest -> isWhiteSpace c = false)
  /\ (sanitized = []
      <-> Forall (fun c => isWhiteSpace c = true \/ isControl c = true) prompt).
Proof.
  cbv zeta. unfold sanitizePrompt. rewrite slice_first by lia.
  change (Z.to_nat 200) with 200.
  set (spaced := map (fun c => if isControl c then 32%N else c) prompt).
  split; [rewrite length_firstn; lia|]. split; [|split].
  - apply (Forall_firstn_skipn _ 200). apply Forall_trim. subst spaced.
    induction prompt as [|c p IH]; [constructor|]. cbn [map].
    constructor; [|exact IH]. destruct (isControl c) eqn:E; [reflexivity|exact E].
  - intros c rest H. destruct (trim spaced) as [|x xs] eqn:E; [discriminate|].
    cbn [firstn] in H. injection H as <- _. exact (trim_head _ _ _ E).
  - assert (Hb : blank spaced = true
                 <-> Forall (fun c => isWhiteSpace c = true \/ isControl c = true) prompt).
    { subst spaced. induction prompt as [|c p IH]; [split; [constructor|reflexivity]|].
      cbn [map blank forallb]. fold (blank (map (fun c => if isControl c then 32%N else c) p)).
      rewrite andb_true_iff, IH. split.
      - intros [H1 H2]. constructor; [|exact H2].
        destruct (isControl c); [now right|now left].
      - intros H. inversion H as [|? ? [Hc|Hc] H2]; subst; split; try exact H2.
        + destruct (isControl c); [reflexivity|exact Hc].
        + now rewrite Hc. }
    rewrite <- Hb. pose proof (trim_truthy spaced) as Ht.
    destruct (trim spaced) as [|x xs]; cbn [truthy firstn] in *.
    + destruct (blank spaced); [now split|discriminate].
    + destruct (blank spaced); [discriminate|]. split; discriminate.
Qed.

(** ** What the search results need *)

Lemma snippetOf_lacking (numberIsZero : jsstring -> bool)
    (numberToStringJS : jsstring -> jsstring) (r : json) :
  lacks [lit "content"; lit "chunk"] r ->
  snippetOf numberIsZero numberToStringJS r = Returns None.
Proof.
  intros (members & -> & H).
  inversion H as [|? ? Hc H']. inversion H' as [|? ? Hk _]. subst.
  unfold snippetOf, resultBody, getProperty. rewrite Hc, Hk. reflexivity.
Qed.

Lemma mapAttempt_lacking (numberIsZero : jsstring -> bool)
    (numberToStringJS : jsstring -> jsstring) (elems : list json) :
  Forall (lacks [lit "content"; lit "chunk"]) elems ->
  exists mapped,
    mapAttempt (snippetOf numberIsZero numberToStringJS) elems = Returns mapped
    /\ keepTruthy mapped = [].
Proof.
  intros H. induction H as [|r elems Hr _ (mapped & E & K)].
  - now exists [].
  - exists (None :: mapped). cbn [mapAttempt].
    rewrite (snippetOf_lacking _ _ _ Hr), E. now split.
Qed.

(** X19.  The automatic search injects nothing for result records that
    have neither a [content] nor a [chunk] member: when qmd answers with
    an array of such records (its records with [docid], [score], [file]
    and [snippet] are of that kind), [searchRelevantMemories] returns the
    empty string, whatever the prompt and the other inputs. *)
Theorem search_needs_content (numberIsZero : jsstring -> bool)
    (numberToStringJS : jsstring -> jsstring) (available : bool)
    (prompt : jsstring) (collection : option jsstring * jsstring)
    (err : option jsstring) (stdout : jsstring) (stderr : option jsstring)
    (elems : list json) :
  runQmdSearch err stdout stderr = Resolved (JArray elems) ->
  Forall (lacks [lit "content"; lit "chunk"]) elems ->
  searchRelevantMemories numberIsZero numberToStringJS available prompt
    collection (Some (err, stdout, stderr)) = [].
Proof.
  intros Hr Hl. unfold searchRelevantMemories. cbv zeta.
  destruct (negb available || negb (truthy (trim prompt))); [reflexivity|].
  destruct (negb (truthy (sanitizePrompt prompt))); [reflexivity|].
  destruct (negb (checkCollection _ _ _)); [reflexivity|].
  rewrite Hr.
  destruct (negb (jsTruthy numberIsZero (JArray elems))
            || lengthIsZero numberIsZero (JArray elems)); [reflexivity|].
  destruct (mapAttempt_lacking numberIsZero numberToStringJS elems Hl)
    as (mapped & -> & ->).
  reflexivity.
Qed.

Lemma search_needs_content_witness :
  searchRelevantMemories (fun _ => false) (fun lexeme => lexeme) true
    (lit "what is the token?") (None, qlit "['pi-memory']")
    (Some (None, cleanPayload, None)) = [].
Proof.
  apply (search_needs_content (fun _ => false) (fun lexeme => lexeme) true
           (lit "what is the token?") (None, qlit "['pi-memory']")
           None cleanPayload None
           [JObject [(lit "docid", JString (lit "#abc123"));
                     (lit "score", JNumber (lit "0.42"));
                     (lit "file", JString (lit "qmd://pi-memory/MEMORY.md"));
                     (lit "snippet", JString (lit "Hello"))];
            JObject [(lit "docid", JString (lit "#def456"));
                     (lit "score", JNumber (lit "0.1"));
                     (lit "file", JString (lit "qmd://pi-memory/daily/2026-02-16.md"));
                     (lit "snippet", JString (lit "World"))]]).
  - vm_compute. reflexivity.
  - repeat constructor; eexists; (split; [reflexivity|repeat constructor]).
Defined.

Lemma keepTruthy_In (mapped : list (option jsstring)) :
  keepTruthy mapped <> [] -> exists s, In (Some s) mapped.
Proof.
  induction mapped as [|[s|] mapped IH]; cbn [keepTruthy]; intros H.
  - contradiction.
  - exists s. now left.
  - destruct (IH H) as [s Hs]. exists s. now right.
Qed.

Lemma mapAttempt_In (A B : Type) (f : A -> attempt B) (l : list A) (ys : list B) (y : B) :
  mapAttempt f l = Returns ys -> In y ys -> exists x, In x l /\ f x = Returns y.
Proof.
  revert ys. induction l as [|x l IH]; intros ys E Hy; cbn [mapAttempt] in E.
  - injection E as <-. contradiction.
  - destruct (f x) as [y0|] eqn:Ex; [|discriminate].
    destruct (mapAttempt f l) as [ys0|]; [|discriminate].
    injection E as <-. destruct Hy as [<-|Hy].
    + exists x. split; [now left|exact Ex].
    + destruct (IH ys0 eq_refl Hy) as (x' & Hx' & E'). exists x'. split; [now right|exact E'].
Qed.

(** X20.  The automatic search yields text only when everything held: qmd
    was flagged available, the prompt is not blank, the collection was
    found, the search settled before the timeout and resolved to an array,
    and some record of it has a string [content] (or, failing that, a
    string [chunk]) that is not blank.  In every other case the result is
    the empty string. *)
Theorem search_results_only_when (numberIsZero : jsstring -> bool)
    (numberToStringJS : jsstring -> jsstring) (available : bool)
    (prompt : jsstring) (collection : option jsstring * jsstring)
    (search : option (option jsstring * jsstring * option jsstring)) :
  searchRelevantMemories numberIsZero numberToStringJS available prompt
    collection search <> [] ->
  available = true
  /\ blank prompt = false
  /\ checkCollection (lit "pi-memory") (fst collection) (snd collection) = true
  /\ exists err stdout stderr elems r body,
       search = Some (err, stdout, stderr)
       /\ runQmdSearch err stdout stderr = Resolved (JArray elems)
       /\ In r elems
       /\ resultBody r = Returns (JString body)
       /\ blank body = false.
Proof.
  unfold searchRelevantMemories. cbv zeta. intros H.
  destruct available; [|contradiction]. cbn [negb orb] in H.
  rewrite trim_truthy in H. destruct (blank prompt); [contradiction|].
  cbn [negb] in H.
  destruct (negb (truthy (sanitizePrompt prompt))); [contradiction|].
  destruct (checkCollection _ _ _); [|contradiction]. cbn [negb] in H.
  destruct search as [[[err stdout] stderr]|]; [|contradiction].
  destruct (runQmdSearch err stdout stderr) as [results|] eqn:Er; [|contradiction].
  destruct (negb (jsTruthy numberIsZero results) || lengthIsZero numberIsZero results);
    [contradiction|].
  destruct results as [| | | |elems|]; try contradiction.
  destruct (mapAttempt _ elems) as [mapped|] eqn:Em; [|contradiction].
  destruct (keepTruthy mapped) as [|s ss] eqn:Ek; [contradiction|].
  destruct (keepTruthy_In mapped ltac:(rewrite Ek; discriminate)) as [s' Hs'].
  destruct (mapAttempt_In _ _ _ _ _ _ Em Hs') as (r & Hr & Es).
  repeat split. exists err, stdout, stderr, elems, r.
  unfold snippetOf in Es.
  destruct (resultBody r) as [[| | |body| |]|] eqn:Eb; try discriminate.
  exists body. repeat split; try assumption.
  rewrite trim_truthy in Es. destruct (blank body); [discriminate|reflexivity].
Qed.

Lemma search_results_only_when_witness :
  exists body,
    resultBody (JObject [(lit "path", JString (lit "MEMORY.md"));
                         (lit "content", JString (lit "Token: XYZ"))])
    = Returns (JString body)
    /\ blank body = false.
Proof.
  destruct (search_results_only_when (fun _ => false) (fun lexeme => lexeme) true
              (lit "token") (None, qlit "['pi-memory']")
              (Some (None, qlit "[{'path':'MEMORY.md','content':'Token: XYZ'}]", None))
              ltac:(vm_compute; discriminate))
    as (_ & _ & _ & err & stdout & stderr & elems & r & body & Es & Er & Hr & Eb & Hb).
  injection Es as <- <- <-. vm_compute in Er. injection Er as <-.
  destruct Hr as [<-|[]]. exists body. now split.
Defined.

(** ** The replies of memory_search *)

Lemma formatResults_lacking (numberIsZero : jsstring -> bool)
    (numberToStringJS : jsstring -> jsstring) (elems : list json) :
  Forall (lacks [lit "path"; lit "score"; lit "content"; lit "chunk"]) elems ->
  forall i,
  formatResults numberIsZero numberToStringJS i elems
  = Returns (map resultHeading (seq (S i) (length elems))).
Proof.
  intros H. induction H as [|r elems (members & -> & Hm) _ IH]; intros i;
    [reflexivity|].
  inversion Hm as [|? ? Hp Hm1]. inversion Hm1 as [|? ? Hs Hm2].
  inversion Hm2 as [|? ? Hc Hm3]. inversion Hm3 as [|? ? Hk _]. subst.
  cbn [formatResults length seq map]. rewrite IH.
  unfold formatResult, resultBody, getProperty. rewrite Hp, Hs, Hc, Hk.
  cbn [coalesce jsTruthy truthy app join]. unfold resultHeading.
  now rewrite Nat.add_1_r.
Qed.

(** X21.  What [memory_search] replies.  When qmd is not available and the
    probe fails, the reply is the install instructions, flagged as an
    error.  When qmd and the collection are there: an output that is no
    JSON gives an error reply that quotes its first 200 characters (never
    the reply for an empty result list); an array of records that have no
    [path], [score], [content] or [chunk] member gives one bare heading
    per record, numbered from 1, and the count of the records. *)
Theorem memory_search_replies (numberIsZero : jsstring -> bool)
    (numberToStringJS : jsstring -> jsstring) (query : jsstring)
    (searchMode : option SearchMode) (memoryDir : jsstring)
    (detectErr : option jsstring) (collection : option jsstring * jsstring)
    (addErr err : option jsstring) (stdout : jsstring) (stderr : option jsstring)
    (q : QmdState) :
  let reply := fst (memorySearch numberIsZero numberToStringJS query searchMode
                      memoryDir detectErr collection addErr (err, stdout, stderr) q) in
  let md := match searchMode with Some m => m | None => Keyword end in
  (qmdAvailable q = false -> detectErr <> None ->
   reply = Reply (mkResult (qmdInstallInstructions memoryDir) true NoSearchDetails))
  /\ (qmdAvailable q = true \/ detectErr = None ->
      checkCollection (lit "pi-memory") (fst collection) (snd collection) = true
      \/ addErr = None ->
      (err = None -> JSON_parse stdout = Throws ->
       reply = Reply (mkResult
                        (lit "memory_search error: Failed to parse qmd output: "
                         ++ firstn 200 stdout) true NoSearchDetails))
      /\ (forall elems,
            runQmdSearch err stdout stderr = Resolved (JArray elems) ->
            elems <> [] ->
            Forall (lacks [lit "path"; lit "score"; lit "content"; lit "chunk"])
                   elems ->
            reply = Reply (mkResult
                             (join DIVIDER
                                (map resultHeading (seq 1 (length elems))))
                             false (CountDetails md query (length elems))))).
Proof.
  cbv zeta. unfold memorySearch. cbv zeta. split.
  - intros Hq Hd. rewrite Hq. cbn [negb].
    destruct detectErr as [e|]; [|contradiction]. reflexivity.
  - intros Ha Hc.
    assert (Hav : qmdAvailable (if negb (qmdAvailable q)
                                then setQmdAvailable (detectQmd detectErr) q
                                else q) = true).
    { destruct (qmdAvailable q) eqn:Eq; cbn [negb]; [exact Eq|].
      destruct Ha as [Ha| ->]; [discriminate|reflexivity]. }
    rewrite Hav. cbn [negb].
    assert (Hcol : (if checkCollection (lit "pi-memory") (fst collection)
                         (snd collection)
                    then true else setupQmdCollection addErr) = true).
    { destruct (checkCollection _ _ _); [reflexivity|].
      destruct Hc as [Hc| ->]; [discriminate|reflexivity]. }
    rewrite Hcol. cbn [negb]. split.
    + intros -> Hp. unfold runQmdSearch. rewrite Hp. cbn [fst].
      rewrite slice_first by lia. reflexivity.
    + intros elems Hr Hne Hl. rewrite Hr.
      destruct elems as [|r elems']; [contradiction|]. cbn [lengthIsZero].
      rewrite (formatResults_lacking numberIsZero numberToStringJS _ Hl 0).
      reflexivity.
Qed.

(** ** The debounced index update *)

Lemma remove_single (t : nat) : remove Nat.eq_dec t [t] = [].
Proof. cbn [remove]. destruct (Nat.eq_dec t t); [reflexivity|contradiction]. Qed.

Lemma ensure_keeps_timers (toLowerCase : jsstring -> jsstring)
    (envValue detectErr : option jsstring) (q : QmdState) :
  let q' := snd (ensureQmdAvailableForUpdate toLowerCase envValue detectErr q) in
  updateTimer q' = updateTimer q /\ timers q' = timers q
  /\ updatesRun q' = updatesRun q.
Proof.
  cbv zeta. unfold ensureQmdAvailableForUpdate.
  destruct (qmdAvailable q); [now repeat split|].
  destruct (getQmdUpdateMode toLowerCase envValue); now repeat split.
Qed.

Lemma schedule_step (toLowerCase : jsstring -> jsstring)
    (envValue : option jsstring) (q : QmdState) :
  timers q = pending q ->
  let q' := scheduleQmdUpdate toLowerCase envValue q in
  timers q' = pending q'
  /\ updatesRun q' + length (timers q')
     <= updatesRun q + length (timers q)
        + (match getQmdUpdateMode toLowerCase envValue with
           | Background => 1
           | _ => 0
           end).
Proof.
  intros Inv. cbv zeta. unfold scheduleQmdUpdate.
  destruct (getQmdUpdateMode toLowerCase envValue); try (split; [exact Inv|lia]).
  destruct (qmdAvailable q); cbn [negb]; [|split; [exact Inv|lia]].
  unfold pending in *. destruct (updateTimer q) as [t|] eqn:Et.
  - unfold clearTimeout. cbn [updateTimer timers nextTimer updatesRun qmdAvailable].
    rewrite Inv, remove_single. cbn [length]. split; [reflexivity|lia].
  - cbn [updateTimer timers nextTimer updatesRun qmdAvailable].
    rewrite Inv. cbn [length]. split; [reflexivity|lia].
Qed.

Lemma qmd_step (toLowerCase : jsstring -> jsstring) (e : QmdEvent) (q : QmdState) :
  timers q = pending q ->
  let q' := stepQmd toLowerCase e q in
  timers q' = pending q'
  /\ updatesRun q' + length (timers q')
     <= updatesRun q + length (timers q)
        + (if schedulesInBackground toLowerCase e then 1 else 0).
Proof.
  intros Inv. cbv zeta. destruct e as [env derr|env derr|env|t| |v];
    cbn [stepQmd schedulesInBackground].
  - unfold afterWrite.
    destruct (ensure_keeps_timers toLowerCase env derr q) as (E1 & E2 & E3).
    cbv zeta in E1, E2, E3.
    set (q1 := snd (ensureQmdAvailableForUpdate toLowerCase env derr q)) in *.
    assert (Inv1 : timers q1 = pending q1).
    { unfold pending. rewrite E1, E2. exact Inv. }
    destruct (schedule_step toLowerCase env q1 Inv1) as (I & B). cbv zeta in I, B.
    split; [exact I|]. rewrite E2, E3 in B.
    destruct (getQmdUpdateMode toLowerCase env); lia.
  - destruct (ensure_keeps_timers toLowerCase env derr q) as (E1 & E2 & E3).
    cbv zeta in E1, E2, E3. unfold pending. rewrite E1, E2, E3.
    split; [exact Inv|lia].
  - destruct (schedule_step toLowerCase env q Inv) as (I & B). cbv zeta in I, B.
    split; [exact I|]. destruct (getQmdUpdateMode toLowerCase env); lia.
  - unfold timerFires. destruct (existsb (Nat.eqb t) (timers q)) eqn:Ex;
      [|split; [exact Inv|lia]].
    unfold pending in *. cbn [updateTimer timers updatesRun].
    destruct (updateTimer q) as [t'|]; rewrite Inv in Ex |- *.
    + cbn [existsb] in Ex. rewrite orb_false_r in Ex. apply Nat.eqb_eq in Ex.
      subst t'. rewrite remove_single. cbn [length]. split; [reflexivity|lia].
    + discriminate.
  - unfold clearUpdateTimer, pending in *.
    destruct (updateTimer q) as [t|] eqn:Et; [|rewrite Et; split; [exact Inv|lia]].
    unfold clearTimeout. cbn [updateTimer timers updatesRun].
    rewrite Inv, remove_single. cbn [length]. split; [reflexivity|lia].
  - unfold setQmdAvailable, pending. cbn [updateTimer timers updatesRun].
    split; [exact Inv|lia].
Qed.

Lemma qmd_run (toLowerCase : jsstring -> jsstring) (events : list QmdEvent) :
  forall q, timers q = pending q ->
  let q' := runQmd toLowerCase events q in
  timers q' = pending q'
  /\ updatesRun q' + length (timers q')
     <= updatesRun q + length (timers q)
        + length (filter (schedulesInBackground toLowerCase) events).
Proof.
  induction events as [|e events IH]; intros q Inv; cbv zeta.
  - cbn [runQmd fold_left filter length]. split; [exact Inv|lia].
  - cbn [runQmd fold_left]. fold (runQmd toLowerCase events (stepQmd toLowerCase e q)).
    destruct (qmd_step toLowerCase e q Inv) as (I1 & B1). cbv zeta in I1, B1.
    destruct (IH _ I1) as (I2 & B2). cbv zeta in I2, B2.
    split; [exact I2|]. cbn [filter].
    destruct (schedulesInBackground toLowerCase e); cbn [length]; lia.
Qed.

(** X22.  The index update is debounced.  After any sequence of writes,
    schedule calls, probes, firing timers and shutdowns, starting from the
    initial state, the only timer still to fire is the one [updateTimer]
    holds, so at most one update is pending; and the updates run so far
    together with the pending one never exceed the number of schedule
    calls made in background mode: none in the modes [manual] and [off],
    and one for a burst of writes between two firings. *)
Theorem update_is_debounced (toLowerCase : jsstring -> jsstring)
    (events : list QmdEvent) :
  let q := runQmd toLowerCase events initialQmd in
  timers q = pending q
  /\ length (timers q) <= 1
  /\ updatesRun q + length (timers q)
     <= length (filter (schedulesInBackground toLowerCase) events).
Proof.
  cbv zeta. destruct (qmd_run toLowerCase events initialQmd eq_refl) as (I & B).
  cbv zeta in I, B. split; [exact I|]. split.
  - rewrite I. unfold pending. destruct (updateTimer _); cbn [length]; lia.
  - exact B.
Qed.

(** ** The system prompt *)





(** ** The list of daily logs *)

Lemma strLeb_total (a : jsstring) :
  forall b, strLeb a b = false -> strLeb b a = true.
Proof.
  induction a as [|x a IH]; intros [|y b] H; cbn [strLeb] in *; try discriminate.
  - reflexivity.
  - destruct (N.ltb_spec x y); [discriminate|].
    destruct (N.ltb_spec y x); [reflexivity|]. now apply IH.
Qed.

Lemma strLeb_trans (a : jsstring) :
  forall b c, strLeb a b = true -> strLeb b c = true -> strLeb a c = true.
Proof.
  induction a as [|x a IH]; intros [|y b] [|z c] H1 H2; cbn [strLeb] in *;
    try reflexivity; try discriminate.
  destruct (N.ltb_spec x y), (N.ltb_spec y z), (N.ltb_spec x z),
    (N.ltb_spec y x), (N.ltb_spec z y), (N.ltb_spec z x);
    try reflexivity; try discriminate; try lia.
  now apply (IH b c).
Qed.

Lemma insertSorted_perm (s : jsstring) (l : list jsstring) :
  Permutation (insertSorted s l) (s :: l).
Proof.
  induction l as [|x l IH]; [reflexivity|].
  cbn [insertSorted]. destruct (strLeb s x); [reflexivity|].
  rewrite IH. apply perm_swap.
Qed.

Lemma sortStrings_perm (l : list jsstring) : Permutation (sortStrings l) l.
Proof.
  induction l as [|x l IH]; [reflexivity|].
  cbn [sortStrings fold_right]. fold (sortStrings l).
  rewrite insertSorted_perm. now constructor.
Qed.

Lemma insertSorted_sorted (s : jsstring) (l : list jsstring) :
  StronglySorted (fun a b => strLeb a b = true) l ->
  StronglySorted (fun a b => strLeb a b = true) (insertSorted s l).
Proof.
  intros H. induction H as [|x l Hs IH Hx]; [repeat constructor|].
  cbn [insertSorted]. destruct (strLeb s x) eqn:E.
  - constructor; [now constructor|]. constructor; [exact E|].
    eapply Forall_impl; [|exact Hx]. intros y Hy. now apply (strLeb_trans s x y).
  - constructor; [exact IH|].
    apply (Permutation_Forall (Permutation_sym (insertSorted_perm s l))).
    constructor; [now apply strLeb_total|exact Hx].
Qed.

Lemma sortStrings_sorted (l : list jsstring) :
  StronglySorted (fun a b => strLeb a b = true) (sortStrings l).
Proof.
  induction l as [|x l IH]; [constructor|].
  cbn [sortStrings fold_right]. now apply insertSorted_sorted.
Qed.

Lemma StronglySorted_snoc {A : Type} (R : A -> A -> Prop) (l : list A) (x : A) :
  StronglySorted R l -> Forall (fun y => R y x) l -> StronglySorted R (l ++ [x]).
Proof.
  intros H. induction H as [|y l Hs IH Hy]; intros Hx.
  - repeat constructor.
  - inversion Hx as [|? ? Hyx Hlx]. subst. cbn [app]. constructor; [now apply IH|].
    apply Forall_app. split; [exact Hy|now constructor].
Qed.

Lemma StronglySorted_rev {A : Type} (R : A -> A -> Prop) (l : list A) :
  StronglySorted R l -> StronglySorted (fun a b => R b a) (rev l).
Proof.
  intros H. induction H as [|x l Hs IH Hx]; [constructor|].
  cbn [rev]. apply StronglySorted_snoc; [exact IH|].
  apply Forall_rev. exact Hx.
Qed.

(** X24.  The [list] target of [memory_read] shows each entry of the
    daily directory whose name ends in [.md], once per entry and no other
    name, in descending order of their code units: with names of the form
    [YYYY-MM-DD.md], the newest log first.  It says so when there is none,
    and when the directory cannot be read. *)
Theorem memoryRead_list_newest_first (date : option jsstring)
    (todayISO filePath : jsstring) (content : option jsstring) :
  (forall entries,
     let files := listedFiles entries in
     Permutation files (filter (endsWith (lit ".md")) entries)
     /\ StronglySorted (fun a b => strLeb b a = true) files
     /\ (forall f, In f files <-> In f entries /\ endsWith (lit ".md") f = true)
     /\ memoryRead ReadList date todayISO (Some entries) filePath content
        = match files with
          | [] => mkResult (lit "No daily logs found.") false NoReadDetails
          | _ :: _ =>
              mkResult (lit "Daily logs:" ++ [LF]
                        ++ join [LF] (map (fun f => lit "- " ++ f) files))
                       false (FilesDetails files)
          end)
  /\ memoryRead ReadList date todayISO None filePath content
     = mkResult (lit "No daily logs directory.") false NoReadDetails.
Proof.
  split; [|reflexivity]. intros entries. cbv zeta.
  assert (P : Permutation (listedFiles entries) (filter (endsWith (lit ".md")) entries)).
  { unfold listedFiles. rewrite <- Permutation_rev. apply sortStrings_perm. }
  split; [exact P|]. split; [|split].
  - unfold listedFiles. apply StronglySorted_rev. apply sortStrings_sorted.
  - intros f. rewrite <- filter_In. split; intros H.
    + exact (Permutation_in _ P H).
    + exact (Permutation_in _ (Permutation_sym P) H).
  - unfold memoryRead. destruct (listedFiles entries); reflexivity.
Qed.

(** ** The size of the replies of the scratchpad tool *)

Lemma parsed_cost (s : jsstring) :
  lineCost (flat_map itemLines (parseScratchpad s)) <= S (length s).
Proof.
  pose proof (parseLines_cost (split_nl s) None) as H.
  fold (parseScratchpad s) in H. rewrite lineCost_split in H.
  cbn [metaCredit] in H. lia.
Qed.

Lemma itemLines_cost (it : ScratchpadItem) :
  lineCost (itemLines it)
  = (if truthy (meta it) then S (length (meta it)) else 0) + 7 + length (text it).
Proof.
  unfold itemLines. rewrite lineCost_app. cbn [lineCost]. rewrite !length_app.
  destruct (truthy (meta it)), (done it); cbn [lineCost length lit map
    list_ascii_of_string]; lia.
Qed.

Lemma marked_cost (lower : jsstring -> jsstring) (target : bool) (needle : jsstring)
    (items items' : list ScratchpadItem) :
  markFirst lower target needle items = Some items' ->
  lineCost (flat_map itemLines items') = lineCost (flat_map itemLines items).
Proof.
  intros M. destruct (markFirst_Some _ _ _ _ _ M) as (l1 & it & l2 & -> & _ & _ & ->).
  rewrite !flat_map_app. cbn [flat_map]. rewrite !lineCost_app.
  now rewrite !itemLines_cost.
Qed.

Lemma nowTimestamp_length (iso : jsstring) : length (nowTimestamp iso) <= length iso.
Proof.
  unfold nowTimestamp. destruct (dropFraction_prefix (replaceFirstT iso)) as [w E].
  assert (H : length (replaceFirstT iso) = length iso).
  { clear. induction iso as [|c s IH]; [reflexivity|].
    cbn [replaceFirstT]. destruct (c =? 84)%N; cbn [length]; congruence. }
  rewrite <- H. rewrite E at 2. rewrite length_app. lia.
Qed.

Lemma shortSessionId_length (sessionId : jsstring) : length (shortSessionId sessionId) <= 8.
Proof.
  unfold shortSessionId. rewrite slice_first by lia. rewrite length_firstn.
  change (Z.to_nat 8) with 8. lia.
Qed.

Lemma stamp_length (ts sid : jsstring) :
  length (stamp ts sid) = 12 + length ts + length sid.
Proof.
  unfold stamp. rewrite !length_app.
  change (length (lit "<!-- ")) with 5. change (length (lit " [")) with 2.
  change (length (lit "] -->")) with 5. lia.
Qed.

Lemma written_reply_length (message serialized : jsstring) :
  (len serialized < 10 ^ 17 - 1)%Z ->
  (len (message ++ [LF; LF]
        ++ formatPreviewBlock (lit "Scratchpad preview") serialized ModeStart)
   <= len message + 4160)%Z.
Proof.
  intros H.
  pose proof (formatPreviewBlock_length (lit "Scratchpad preview") serialized
                ModeStart H) as Hb.
  change (len (lit "Scratchpad preview")) with 18%Z in Hb.
  unfold len in *. rewrite !length_app. cbn [length]. lia.
Qed.

(** X25.  The replies of the scratchpad tool are capped: whatever the
    size of the scratchpad file, the text of a reply is at most the text
    parameter and 4200 characters; the list itself is shown through a
    preview of at most 4000 characters. *)
Theorem scratchpad_reply_capped (toLowerCase : jsstring -> jsstring)
    (action : ScratchpadAction) (itemText : option jsstring)
    (sessionId nowISO : jsstring)
    (existingFile envValue detectErr : option jsstring) (q : QmdState) :
  optSized existingFile -> optSized itemText -> jsSized nowISO ->
  (len (resultText (so_result (scratchpadExecute toLowerCase action itemText
                                 sessionId nowISO existingFile envValue
                                 detectErr q)))
   <= len (optString itemText) + 4200)%Z.
Proof.
  intros He Ht Hn.
  assert (He' : (len (optString existingFile) <= JS_MAX_LENGTH)%Z).
  { destruct existingFile; [exact He|unfold len, JS_MAX_LENGTH; cbn [optString length]; lia]. }
  assert (Ht' : (len (optString itemText) <= JS_MAX_LENGTH)%Z).
  { destruct itemText; [exact Ht|unfold len, JS_MAX_LENGTH; cbn [optString length]; lia]. }
  clear He Ht. unfold jsSized in Hn. unfold JS_MAX_LENGTH in *.
  pose proof (parsed_cost (optString existingFile)) as Hcost.
  pose proof (nowTimestamp_length nowISO) as Hts.
  pose proof (shortSessionId_length sessionId) as Hsid.
  unfold scratchpadExecute. cbv beta zeta.
  set (items := parseScratchpad (optString existingFile)) in *.
  set (t := optString itemText) in *.
  assert (Hpos : (0 <= len t)%Z) by (unfold len; lia).
  assert (Hkeep : forall items',
             lineCost (flat_map itemLines items')
             <= lineCost (flat_map itemLines items) ->
             (len (serializeScratchpad items') < 10 ^ 17 - 1)%Z).
  { intros items' H. unfold len in *. rewrite serializeScratchpad_length. lia. }
  destruct action.
  - (* add *)
    destruct t as [|c t'] eqn:Et; cbn [truthy negb plainReply so_result resultText].
    + vm_compute. discriminate.
    + etransitivity; [apply written_reply_length|].
      * unfold len in *. rewrite serializeScratchpad_length.
        rewrite flat_map_app, lineCost_app. cbn [flat_map]. rewrite app_nil_r.
        rewrite itemLines_cost. cbn [meta text].
        assert (Hs : truthy (stamp (nowTimestamp nowISO) (shortSessionId sessionId))
                     = true) by reflexivity.
        rewrite Hs, stamp_length. lia.
      * unfold len. rewrite length_app.
        change (length (lit "Added: - [ ] ")) with 13. lia.
  - (* done *)
    destruct t as [|c t'] eqn:Et; cbn [truthy negb plainReply so_result resultText].
    + vm_compute. discriminate.
    + destruct (markFirst toLowerCase true _ items) as [items'|] eqn:M;
        cbn [plainReply so_result resultText].
      * etransitivity; [apply written_reply_length|].
        -- apply Hkeep. now rewrite (marked_cost _ _ _ _ _ M).
        -- change (len (lit "Updated.")) with 8%Z. lia.
      * unfold len. rewrite !length_app.
        change (length (lit "No matching ")) with 12.
        change (length (lit "open")) with 4.
        change (length (lit " item found for: ")) with 17.
        cbn [length]. lia.
  - (* undo *)
    destruct t as [|c t'] eqn:Et; cbn [truthy negb plainReply so_result resultText].
    + vm_compute. discriminate.
    + destruct (markFirst toLowerCase false _ items) as [items'|] eqn:M;
        cbn [plainReply so_result resultText].
      * etransitivity; [apply written_reply_length|].
        -- apply Hkeep. now rewrite (marked_cost _ _ _ _ _ M).
        -- change (len (lit "Updated.")) with 8%Z. lia.
      * unfold len. rewrite !length_app.
        change (length (lit "No matching ")) with 12.
        change (length (lit "done")) with 4.
        change (length (lit " item found for: ")) with 17.
        cbn [length]. lia.
  - (* clear_done *)
    cbn [so_result resultText].
    etransitivity; [apply written_reply_length|].
    + apply Hkeep. apply lineCost_filter.
    + unfold len. rewrite !length_app.
      change (length (lit "Cleared ")) with 8.
      change (length (lit " done item(s).")) with 14.
      assert (Hr : length (numberToString (length items - length (filter isOpen items)))
                   <= 17).
      { apply numberToString_length; [|lia].
        assert (Hi : length items <= lineCost (flat_map itemLines items)).
        { clear. induction items as [|it its IH]; [reflexivity|].
          cbn [flat_map length]. rewrite lineCost_app, itemLines_cost. lia. }
        unfold len in *. change (10 ^ Z.of_nat 17)%Z with (10 ^ 17)%Z. lia. }
      lia.
  - (* list *)
    destruct (length items =? 0)%nat; cbn [plainReply so_result resultText].
    + change (len (lit "Scratchpad is empty.")) with 20%Z. lia.
    + pose proof (formatPreviewBlock_length (lit "Scratchpad preview")
                    (serializeScratchpad items) ModeStart
                    (Hkeep items (Nat.le_refl _))) as Hb.
      change (len (lit "Scratchpad preview")) with 18%Z in Hb. lia.
Qed.

Lemma scratchpad_reply_capped_witness :
  (len (resultText (so_result (scratchpadExecute (fun s => s) ActAdd
                                 (Some (lit "Review PR")) (lit "a1b2c3d4e5f6")
                                 (lit "2026-02-15T14:30:00.123Z")
                                 (Some (lit "- [x] Ship release" ++ [LF]))
                                 None None initialQmd)))
   <= len (lit "Review PR") + 4200)%Z.
Proof.
  apply (scratchpad_reply_capped (fun s => s) ActAdd (Some (lit "Review PR"))
           (lit "a1b2c3d4e5f6") (lit "2026-02-15T14:30:00.123Z")
           (Some (lit "- [x] Ship release" ++ [LF])) None None initialQmd);
    cbn [optSized]; unfold jsSized; vm_compute; discriminate.
Defined.

(** ** The flag [truncated] *)

Lemma truncateLines_untruncated (lines : list jsstring) (m : Z) (md : TruncateMode) :
  lr_truncated (truncateLines lines (Fin m) md) = false ->
  lr_lines (truncateLines lines (Fin m) md) = lines.
Proof.
  intros H. destruct (Z.le_gt_cases m 0) as [H0|H0];
    [now rewrite truncateLines_pass by lia|].
  destruct (Z.le_gt_cases (len lines) m) as [Hle|Hgt];
    [now rewrite truncateLines_pass by lia|].
  rewrite truncateLines_cases in H by lia.
  destruct md; try discriminate. destruct (1 <? m)%Z; discriminate.
Qed.

Lemma truncateText_untruncated (text : jsstring) (m : Z) (md : TruncateMode) :
  tr_truncated (truncateText text (Fin m) md) = false ->
  tr_text (truncateText text (Fin m) md) = text.
Proof.
  intros H. destruct (Z.le_gt_cases m 0) as [H0|H0];
    [now rewrite truncateText_pass by lia|].
  destruct (Z.le_gt_cases (len text) m) as [Hle|Hgt];
    [now rewrite truncateText_pass by lia|].
  rewrite truncateText_cases in H by lia.
  destruct md; try discriminate. destruct (19 <? m)%Z; discriminate.
Qed.

(** X26.  The flag [truncated] is exact: for every content, mode and pair
    of limits, a preview is reported as not truncated if and only if it is
    the trimmed content itself, so a truncation note appears exactly when
    something was cut. *)
Theorem truncated_iff_changed (content : jsstring) (ml mc : Z) (md : TruncateMode) :
  let r := buildPreview content (mkOptions (Fin ml) (Fin mc) md) in
  truncated r = false <-> preview r = trim content.
Proof.
  cbv zeta. destruct (truthy (normalizeContent content)) eqn:Hn.
  2:{ rewrite buildPreview_empty by assumption. cbn [truncated preview].
      unfold normalizeContent in Hn. destruct (trim content); [now split|discriminate]. }
  rewrite buildPreview_nonempty by assumption. cbv zeta.
  cbn [truncated preview]. unfold lineTruncatedText, normalizeContent.
  cbn [maxLines maxChars mode].
  set (lines := split_nl (trim content)).
  set (lr := truncateLines lines (Fin ml) md).
  set (text := join [LF] (lr_lines lr)).
  set (cr := truncateText text (Fin mc) md).
  assert (Hjoin : join [LF] lines = trim content) by apply join_split_nl.
  split.
  - intros H. apply orb_false_iff in H. destruct H as [Hl Hc].
    subst cr. rewrite (truncateText_untruncated _ _ _ Hc).
    subst text lr. now rewrite (truncateLines_untruncated _ _ _ Hl).
  - intros E. destruct (lr_truncated lr) eqn:Hl.
    + exfalso. subst lr.
      pose proof (truncateLines_truncated _ _ _ Hl) as Hb.
      pose proof (truncateLines_exact lines ml md Hb) as Hex.
      destruct (truncateLines_spec lines ml md ltac:(lia) (split_nl_not_nil _)
                  (split_nl_lines_noLF _)) as (_ & Hno & _).
      cbv zeta in Hno.
      assert (Ht : nlCount text < nlCount (trim content)).
      { subst text. rewrite nlCount_join by exact Hno.
        rewrite <- Hjoin. rewrite nlCount_join by apply split_nl_lines_noLF.
        unfold len in *. lia. }
      assert (Hp : nlCount (tr_text cr) <= nlCount text).
      { subst cr. destruct (Z.le_gt_cases mc 0) as [H0|H0].
        - rewrite truncateText_pass by lia. reflexivity.
        - now destruct (truncateText_spec text mc md ltac:(lia)) as (_ & Hx & _). }
      rewrite E in Hp. lia.
    + cbn [orb]. destruct (tr_truncated cr) eqn:Hc; [|reflexivity].
      exfalso. subst cr.
      pose proof (truncateText_truncated _ _ _ Hc) as Hb.
      pose proof (truncateText_exact text mc md Hb) as Hex.
      rewrite E in Hex.
      assert (Et : text = trim content).
      { subst text lr. now rewrite (truncateLines_untruncated _ _ _ Hl). }
      rewrite Et in Hb. lia.
Qed.

(** ** From the scratchpad tool to the context *)

Lemma trimEnd_app_blank (a b : jsstring) :
  blank b = true -> trimEnd (a ++ b) = trimEnd a.
Proof.
  intros H. unfold trimEnd. rewrite <- !rev_alt. rewrite rev_app_distr.
  f_equal. rewrite <- blank_rev in H. revert H. generalize (rev b) as w.
  induction w as [|c w IH]; intros H; [reflexivity|].
  cbn [blank forallb] in H. apply andb_true_iff in H. destruct H as [Hc Hw].
  cbn [app trimStart]. rewrite Hc. now apply IH.
Qed.

(** With limits that are not exceeded a preview is the trimmed content. *)
Lemma preview_fits (content : jsstring) (ml mc : Z) (md : TruncateMode) :
  (Z.of_nat (nlCount (trim content)) < ml)%Z -> (len (trim content) <= mc)%Z ->
  let r := buildPreview content (mkOptions (Fin ml) (Fin mc) md) in
  preview r = trim content /\ truncated r = false.
Proof.
  intros Hl Hc. cbv zeta. destruct (truthy (normalizeContent content)) eqn:Hn.
  - rewrite buildPreview_nonempty by assumption. cbv zeta.
    cbn [truncated preview]. unfold lineTruncatedText, normalizeContent.
    cbn [maxLines maxChars mode].
    rewrite truncateLines_pass by (unfold len; rewrite split_nl_length; lia).
    cbn [lr_lines lr_truncated]. rewrite join_split_nl.
    rewrite truncateText_pass by lia. now split.
  - rewrite buildPreview_empty by assumption. cbn [truncated preview].
    unfold normalizeContent in Hn. destruct (trim content); [now split|discriminate].
Qed.

Lemma filter_app_last {A : Type} (f : A -> bool) (l : list A) (x : A) :
  f x = true -> filter f (l ++ [x]) = filter f l ++ [x].
Proof. intros H. rewrite filter_app. cbn [filter]. now rewrite H. Qed.

(** The serialized list ends with the line of its last item. *)
Lemma serialize_last (items : list ScratchpadItem) (it : ScratchpadItem) :
  exists start,
    serializeScratchpad (items ++ [it])
    = (35%N :: start ++ lit "- " ++ (if done it then lit "[x]" else lit "[ ]")
       ++ lit " ") ++ text it ++ [LF].
Proof.
  unfold serializeScratchpad. cbv zeta. rewrite flat_map_app. cbn [flat_map].
  rewrite app_nil_r. unfold itemLines at 2.
  set (box := lit "- " ++ (if done it then lit "[x]" else lit "[ ]") ++ lit " ").
  set (front := [lit "# Scratchpad"; []] ++ flat_map itemLines items
                ++ (if truthy (meta it) then [meta it] else [])).
  assert (E : [lit "# Scratchpad"; []]
              ++ flat_map itemLines items
              ++ (if truthy (meta it) then [meta it] else [])
              ++ [lit "- " ++ (if done it then lit "[x]" else lit "[ ]")
                  ++ lit " " ++ text it]
              = front ++ [box ++ text it]).
  { subst front box. now rewrite <- !app_assoc. }
  rewrite E. rewrite join_snoc by (subst front; discriminate).
  assert (Hf : exists start, join [LF] front ++ [LF] = 35%N :: start).
  { subst front. cbn [app]. rewrite join_cons by discriminate.
    cbn [lit map list_ascii_of_string app]. eexists. reflexivity. }
  destruct Hf as [start Hs]. exists start.
  change (35%N :: start ++ box) with ((35%N :: start) ++ box).
  rewrite <- Hs. now rewrite <- !app_assoc.
Qed.

(** X27.  An item added with the scratchpad tool is in the memory context
    of the next turn when the list of open items is short enough: if the
    open items of the file just written, serialized, have at most 2000
    characters and fewer than 120 line feeds, the context built from the
    store with that file contains the line [- [ ] text] of the new item
    (the text without its trailing white space). *)
Theorem added_item_reaches_context (toLowerCase : jsstring -> jsstring)
    (t sessionId nowISO : jsstring)
    (existingFile envValue detectErr : option jsstring) (q : QmdState)
    (st : MemoryStore) (searchResults : option jsstring) (file : jsstring) :
  so_file (scratchpadExecute toLowerCase ActAdd (Some t) sessionId nowISO
             existingFile envValue detectErr q) = Some file ->
  blank t = false -> noLineTerminator t = true ->
  noLineTerminator sessionId = true -> noLineTerminator nowISO = true ->
  (len (openItemsText file) <= CONTEXT_SCRATCHPAD_MAX_CHARS)%Z ->
  (Z.of_nat (nlCount (openItemsText file)) < CONTEXT_SCRATCHPAD_MAX_LINES)%Z ->
  realistic (withScratchpad st file) searchResults ->
  exists before after,
    buildMemoryContext (withScratchpad st file) searchResults
    = before ++ (lit "- [ ] " ++ trimEnd t) ++ after.
Proof.
  intros Hfile Hb Hnt Hs Hn Hc Hl R.
  assert (Hne : t <> []) by (intros ->; discriminate).
  destruct (scratchpad_add_parse toLowerCase t sessionId nowISO existingFile
              envValue detectErr q Hne Hnt Hs Hn) as (file' & Ef & P).
  rewrite Hfile in Ef. injection Ef as <-.
  set (new := mkItem false t (stamp (nowTimestamp nowISO) (shortSessionId sessionId))) in *.
  assert (Eo : openItemsText file
               = serializeScratchpad
                   (filter isOpen (parseScratchpad (optString existingFile)) ++ [new])).
  { unfold openItemsText. rewrite P. now rewrite filter_app_last. }
  destruct (serialize_last (filter isOpen (parseScratchpad (optString existingFile))) new)
    as (start & Es).
  rewrite <- Eo in Es. unfold new in Es. cbn [done text] in Es.
  set (A := 35%N :: start ++ lit "- " ++ lit "[ ]" ++ lit " ") in Es.
  assert (Et : trim (openItemsText file) = A ++ trimEnd t).
  { rewrite Es. rewrite trim_app.
    - subst A. cbn [trimStart]. change (isWhiteSpace 35%N) with false. cbv iota.
      now rewrite trimEnd_app_blank by reflexivity.
    - reflexivity.
    - rewrite blank_app, Hb. reflexivity. }
  destruct (preview_fits (openItemsText file) CONTEXT_SCRATCHPAD_MAX_LINES
              CONTEXT_SCRATCHPAD_MAX_CHARS ModeStart) as (Hp & Htr).
  { pose proof (nlCount_trim (openItemsText file)). lia. }
  { pose proof (trim_length (openItemsText file)). unfold len in *. lia. }
  cbv zeta in Hp, Htr.
  assert (Hsec : exists a b,
             scratchpadSections (Some file) = [a ++ (lit "- [ ] " ++ trimEnd t) ++ b]).
  { unfold scratchpadSections. cbn [optString].
    assert (Htt : trimmedTruthy (Some file) = true).
    { cbn [trimmedTruthy]. rewrite trim_truthy.
      destruct (blank file) eqn:Ebf; [|reflexivity].
      rewrite (parseScratchpad_blank _ Ebf) in P. destruct (parseScratchpad _); discriminate. }
    rewrite Htt. fold (openItemsText file).
    assert (Hlen : (0 <? length (filter isOpen (parseScratchpad file)))%nat = true).
    { rewrite P, filter_app_last by reflexivity. rewrite length_app. cbn [length].
      apply Nat.ltb_lt. lia. }
    rewrite Hlen. unfold formatContextSection. cbv zeta. rewrite Hp, Htr, Et.
    assert (Htruthy : truthy (A ++ trimEnd t) = true) by (subst A; reflexivity).
    rewrite Htruthy. cbn [negb]. unfold pushSection.
    assert (Hsect : truthy (SCRATCHPAD_LABEL ++ [LF; LF] ++ (A ++ trimEnd t) ++ []) = true)
      by reflexivity.
    unfold jsstring, jschar in *. rewrite Hsect. subst A.
    exists (SCRATCHPAD_LABEL ++ [LF; LF] ++ 35%N :: start), [].
    rewrite !app_nil_r. cbn [lit map list_ascii_of_string app].
    repeat (rewrite <- ?app_assoc; cbn [app]). reflexivity. }
  destruct Hsec as (a & b & Hsec).
  rewrite (buildMemoryContext_realistic _ _ R).
  unfold contextSections. cbn [withScratchpad scratchpadFile]. rewrite Hsec.
  set (rest := todaySections _ ++ _).
  assert (Hm : forall l : list jsstring, l <> [] ->
               match l with
               | [] => []
               | j :: l' => assembleContext (j :: l')
               end = assembleContext l).
  { intros [|j l'] Hne'; [contradiction|reflexivity]. }
  rewrite Hm by discriminate. unfold assembleContext.
  destruct (join_middle DIVIDER (a ++ (lit "- [ ] " ++ trimEnd t) ++ b) [] rest)
    as (before & after & J).
  cbn [app] in J |- *. unfold jsstring, jschar in *. rewrite J.
  exists (HEADING ++ before ++ a), (b ++ after).
  now rewrite <- !app_assoc.
Qed.

Lemma added_item_reaches_context_witness :
  exists before after,
    buildMemoryContext
      (withScratchpad sampleStore
         (serializeScratchpad
            [mkItem true (lit "Ship release") [];
             mkItem false (lit "Review PR ")
               (lit "<!-- 2026-02-15 14:30:00 [a1b2c3d4] -->")]))
      sampleSearch
    = before ++ lit "- [ ] Review PR" ++ after.
Proof.
  destruct (added_item_reaches_context (fun s => s) (lit "Review PR ")
              (lit "a1b2c3d4e5f6") (lit "2026-02-15T14:30:00.123Z")
              (Some (lit "- [x] Ship release" ++ [LF])) None None initialQmd
              sampleStore sampleSearch
              (serializeScratchpad
                 [mkItem true (lit "Ship release") [];
                  mkItem false (lit "Review PR ")
                    (lit "<!-- 2026-02-15 14:30:00 [a1b2c3d4] -->")]))
    as (before & after & E).
  - vm_compute. reflexivity.
  - reflexivity.
  - reflexivity.
  - reflexivity.
  - reflexivity.
  - vm_compute. discriminate.
  - vm_compute. reflexivity.
  - constructor; try reflexivity;
      cbn [optSized withScratchpad sampleStore sampleSearch scratchpadFile todayFile
             longTermFile yesterdayFile]; unfold jsSized; vm_compute; discriminate.
  - exists before, after. exact E.
Defined.

(** ** The counts a truncation note reports *)

Lemma isPrefix_length (p s : jsstring) : isPrefix p s -> length p <= length s.
Proof. intros [w ->]. rewrite length_app. lia. Qed.

Lemma isSuffix_length (u s : jsstring) : isSuffix u s -> length u <= length s.
Proof. intros [w ->]. rewrite length_app. lia. Qed.

(** X28.  Of the two ratios a truncation note reports, the one of the
    lines is always sound: a preview never has more lines than the trimmed
    content.  The one of the characters is sound in the modes keep-start
    and keep-end, where a preview is never longer than the trimmed
    content; in keep-middle mode the marker line can make the preview
    longer than the content, as for three lines of one character cut to
    two lines: 21 characters shown of 5. *)
Theorem preview_counts_vs_totals (content : jsstring) (ml mc : Z) (md : TruncateMode) :
  let r := buildPreview content (mkOptions (Fin ml) (Fin mc) md) in
  previewLines r <= totalLines r
  /\ (md <> ModeMiddle -> previewChars r <= totalChars r)
  /\ (let three := lit "a" ++ [LF] ++ lit "b" ++ [LF] ++ lit "c" in
      let cut := buildPreview three (mkOptions (Fin 2) (Fin 4000) ModeMiddle) in
      preview cut = lit "a" ++ [LF] ++ marker
      /\ previewChars cut = 21 /\ totalChars cut = 5).
Proof.
  cbv zeta. split; [|split; [|now vm_compute]].
  - destruct (truthy (normalizeContent content)) eqn:Hn.
    2:{ rewrite buildPreview_empty by assumption. cbn [previewLines totalLines]. lia. }
    rewrite buildPreview_nonempty by assumption. cbv zeta.
    cbn [previewLines totalLines]. unfold lineTruncatedText.
    cbn [maxLines maxChars mode].
    set (lines := split_nl (normalizeContent content)).
    set (lr := truncateLines lines (Fin ml) md).
    set (text := join [LF] (lr_lines lr)).
    set (cr := truncateText text (Fin mc) md).
    assert (Ht : nlCount text < length lines).
    { subst text lr. destruct (Z.le_gt_cases ml 0) as [H0|H0].
      - rewrite truncateLines_pass by lia. cbn [lr_lines].
        rewrite nlCount_join by apply split_nl_lines_noLF.
        pose proof (split_nl_length (normalizeContent content)). fold lines in H. lia.
      - destruct (truncateLines_spec lines ml md ltac:(lia) (split_nl_not_nil _)
                    (split_nl_lines_noLF _)) as (Hl & Hno & _).
        cbv zeta in Hl, Hno. rewrite nlCount_join by exact Hno.
        destruct (Z.le_gt_cases (len lines) ml) as [Hle|Hgt].
        + rewrite truncateLines_pass by lia. cbn [lr_lines].
          pose proof (split_nl_length (normalizeContent content)). fold lines in H. lia.
        + unfold len in *. lia. }
    assert (Hp : nlCount (tr_text cr) <= nlCount text).
    { subst cr. destruct (Z.le_gt_cases mc 0) as [H0|H0].
      - rewrite truncateText_pass by lia. reflexivity.
      - now destruct (truncateText_spec text mc md ltac:(lia)) as (_ & Hx & _). }
    destruct (truthy (tr_text cr)); [|lia]. rewrite split_nl_length. lia.
  - intros Hmd.
    destruct (truthy (normalizeContent content)) eqn:Hn.
    2:{ rewrite buildPreview_empty by assumption. cbn [previewChars totalChars]. lia. }
    rewrite buildPreview_nonempty by assumption. cbv zeta.
    cbn [previewChars totalChars]. unfold lineTruncatedText.
    cbn [maxLines maxChars mode].
    rewrite <- (join_split_nl (normalizeContent content)) at 2.
    destruct md; [| |contradiction].
    + etransitivity; [apply isPrefix_length, truncateText_start_prefix|].
      apply isPrefix_length, truncateLines_start_prefix.
    + etransitivity; [apply isSuffix_length, truncateText_end_suffix|].
      apply isSuffix_length, truncateLines_end_suffix.
Qed.
